(** * Hugo build orchestrator, watcher and page rendering: a shallow embedding

    The development follows four source files:
    - [commands/hugo.go]: [fullBuild], the event loop of [newWatcher],
      [pickOneWriteOrCreatePath], and around them [doWithPublishDirs],
      [initSites] with the builds that go through it, [rebuildSites],
      [fullRebuild] and the walk function of [getDirList];
    - the site renderer ([pageRenderer], [renderPaginator], [renderRSS],
      [renderRobotsTXT], [renderAliases]);
    - the page type ([ReadFrom], [analyzePage], [TargetPath], [StripHTML],
      [guessSection], [Type], [Layout], [ExecuteTemplate], [Convert],
      [permalink], [removeTomlIdentifier]);
    - the handler registry ([RegisterHandler], [Handler], [Match]).

    Go strings are byte strings ([string]), decoded as UTF-8 where the
    code decodes them ([strings.TrimSpace], [range] over a string); Go
    [int] is a 64-bit signed integer carried by [Z] with the wrap-around
    written out; Go maps are [gmap]s; side effects are recorded as traces
    of actions. *)

From Stdlib Require Import ZArith Lia List Bool Ascii String.
From stdpp Require Import base option list strings gmap pretty.

Import ListNotations.
Local Open Scope string_scope.
Local Open Scope list_scope.

(** ** Part I: definitions *)

(** *** Go's [unicode/utf8] and [unicode.IsSpace] *)

Module Utf8.

Definition RuneError : Z := 65533.     (* U+FFFD *)
Definition RuneSelf : Z := 128.
Definition MaxRune : Z := 1114111.     (* U+10FFFF *)

(** A byte of a string as a number, and [byte(x)], which keeps the low
    eight bits. *)
Definition byte (c : ascii) : Z := Z.of_N (N_of_ascii c).

Definition toByte (z : Z) : ascii := ascii_of_N (Z.to_N (z mod 256)).

(** The table [first] with [acceptRanges], for the leading byte of a
    sequence of more than one byte: the size of the sequence and the range
    accepted for its second byte. [None] for the bytes marked [xx]. *)
Definition first (s0 : Z) : option (nat * Z * Z) :=
  if (194 <=? s0)%Z && (s0 <=? 223)%Z then Some (2, 128%Z, 191%Z)
  else if (s0 =? 224)%Z then Some (3, 160%Z, 191%Z)
  else if (225 <=? s0)%Z && (s0 <=? 236)%Z then Some (3, 128%Z, 191%Z)
  else if (s0 =? 237)%Z then Some (3, 128%Z, 159%Z)
  else if (238 <=? s0)%Z && (s0 <=? 239)%Z then Some (3, 128%Z, 191%Z)
  else if (s0 =? 240)%Z then Some (4, 144%Z, 191%Z)
  else if (241 <=? s0)%Z && (s0 <=? 243)%Z then Some (4, 128%Z, 191%Z)
  else if (s0 =? 244)%Z then Some (4, 128%Z, 143%Z)
  else None.

(** [locb <= b && b <= hicb] *)
Definition isCont (b : Z) : bool := (128 <=? b)%Z && (b <=? 191)%Z.

(** [utf8.DecodeRuneInString]: the rune a string begins with and its
    width in bytes; [(RuneError, 1)] for an encoding that is invalid or cut
    short, [(RuneError, 0)] for the empty string. The masks that clear the
    marker bits of an accepted byte are written as subtractions, and the
    shifts as multiplications. *)
Definition DecodeRune (l : list ascii) : Z * nat :=
  match l with
  | [] => (RuneError, 0)
  | c0 :: rest =>
      let s0 := byte c0 in
      if (s0 <? RuneSelf)%Z then (s0, 1)
      else
        match first s0 with
        | None => (RuneError, 1)
        | Some (sz, lo, hi) =>
            if (length l <? sz)%nat then (RuneError, 1)
            else
              match rest with
              | [] => (RuneError, 1)
              | c1 :: rest1 =>
                  let s1 := byte c1 in
                  if (s1 <? lo)%Z || (hi <? s1)%Z then (RuneError, 1)
                  else if (sz <=? 2)%nat
                  then (((s0 - 192) * 64 + (s1 - 128))%Z, 2)
                  else
                    match rest1 with
                    | [] => (RuneError, 1)
                    | c2 :: rest2 =>
                        let s2 := byte c2 in
                        if negb (isCont s2) then (RuneError, 1)
                        else if (sz <=? 3)%nat
                        then (((s0 - 224) * 4096 + (s1 - 128) * 64 +
                               (s2 - 128))%Z, 3)
                        else
                          match rest2 with
                          | [] => (RuneError, 1)
                          | c3 :: _ =>
                              let s3 := byte c3 in
                              if negb (isCont s3) then (RuneError, 1)
                              else (((s0 - 240) * 262144 + (s1 - 128) * 4096 +
                                     (s2 - 128) * 64 + (s3 - 128))%Z, 4)
                          end
                    end
              end
        end
  end.

(** [utf8.RuneStart(b)]: [b&0xC0 != 0x80] *)
Definition RuneStart (c : ascii) : bool := negb (Z.land (byte c) 192 =? 128)%Z.

(** The loop of [DecodeLastRuneInString] that steps back from the last
    byte to a byte that can start a rune, over the string reversed and
    without its last byte: the number of bytes stepped over, at most
    [UTFMax - 1]; when none of them starts a rune the loop runs out one
    byte further. *)
Fixpoint stepsBack (r : list ascii) (fuel : nat) : nat :=
  match fuel, r with
  | S k, c :: r' => if RuneStart c then 1 else S (stepsBack r' k)
  | _, _ => 1
  end.

(** [utf8.DecodeLastRuneInString], over the string reversed: the rune the
    string ends with and its width. *)
Definition DecodeLastRune (r : list ascii) : Z * nat :=
  match r with
  | [] => (RuneError, 0)
  | c :: rest =>
      if (byte c <? RuneSelf)%Z then (byte c, 1)
      else
        let segment := rev (take (S (stepsBack rest 3)) r) in
        let '(ru, size) := DecodeRune segment in
        if (size =? length segment)%nat then (ru, size) else (RuneError, 1)
  end.

(** [utf8.EncodeRune] *)
Definition EncodeRune (r : Z) : list ascii :=
  let i := (r mod 2 ^ 32)%Z in
  if (i <=? 127)%Z then [toByte r]
  else if (i <=? 2047)%Z then
    [toByte (Z.lor 192 (Z.shiftr r 6)); toByte (Z.lor 128 (Z.land r 63))]
  else
    let three r :=
      [toByte (Z.lor 224 (Z.shiftr r 12));
       toByte (Z.lor 128 (Z.land (Z.shiftr r 6) 63));
       toByte (Z.lor 128 (Z.land r 63))] in
    if (MaxRune <? i)%Z || ((55296 <=? i)%Z && (i <=? 57343)%Z)
    then three RuneError
    else if (i <=? 65535)%Z then three r
    else
      [toByte (Z.lor 240 (Z.shiftr r 18));
       toByte (Z.lor 128 (Z.land (Z.shiftr r 12) 63));
       toByte (Z.lor 128 (Z.land (Z.shiftr r 6) 63));
       toByte (Z.lor 128 (Z.land r 63))].

(** [unicode.IsSpace]: the white space of Latin-1, and beyond it the
    [White_Space] property of Unicode. *)
Definition IsSpace (r : Z) : bool :=
  if (r <=? 255)%Z then
    ((9 <=? r)%Z && (r <=? 13)%Z) || (r =? 32)%Z || (r =? 133)%Z || (r =? 160)%Z
  else
    (r =? 5760)%Z || ((8192 <=? r)%Z && (r <=? 8202)%Z) ||
    (r =? 8232)%Z || (r =? 8233)%Z || (r =? 8239)%Z || (r =? 8287)%Z ||
    (r =? 12288)%Z.

End Utf8.

(** *** Go's [strings], [path] and [path/filepath] (Unix) *)

Module GoStr.

Definition len (s : string) : nat := String.length s.

Definition chars (s : string) : list ascii := list_ascii_of_string s.

Definition str (l : list ascii) : string := string_of_list_ascii l.

(** [strings.HasPrefix(s, prefix)] *)
Definition HasPrefix (s pre : string) : bool := String.prefix pre s.

(** [strings.HasSuffix(s, suffix)]: [len(s) >= len(suffix) &&
    s[len(s)-len(suffix):] == suffix] *)
Definition HasSuffix (s suf : string) : bool :=
  (len suf <=? len s)%nat &&
  String.eqb (String.substring (len s - len suf) (len suf) s) suf.

(** [strings.TrimLeftFunc(s, unicode.IsSpace)]: the runes are decoded one
    by one; [skip] counts the bytes of a white space rune still to pass
    over. *)
Fixpoint trimLeft (l : list ascii) (skip : nat) : list ascii :=
  match l with
  | [] => []
  | c :: l' =>
      match skip with
      | S k => trimLeft l' k
      | O =>
          let '(r, wid) := Utf8.DecodeRune l in
          if Utf8.IsSpace r then trimLeft l' (wid - 1) else l
      end
  end.

(** [lastIndexFunc(s, unicode.IsSpace, false)], over the string reversed:
    the index at which the last rune that is not white space begins,
    [None] for -1. *)
Fixpoint lastIndex (r : list ascii) (skip : nat) : option nat :=
  match r with
  | [] => None
  | c :: r' =>
      match skip with
      | S k => lastIndex r' k
      | O =>
          let '(ru, size) := Utf8.DecodeLastRune r in
          if Utf8.IsSpace ru then lastIndex r' (size - 1)
          else Some (length r - size)
      end
  end.

(** [strings.TrimRightFunc(s, unicode.IsSpace)] *)
Definition trimRight (l : list ascii) : list ascii :=
  match lastIndex (rev l) 0 with
  | Some i =>
      match drop i l with
      | c :: _ =>
          if (Utf8.RuneSelf <=? Utf8.byte c)%Z
          then take (i + snd (Utf8.DecodeRune (drop i l))) l
          else take (i + 1) l
      | [] => take (i + 1) l
      end
  | None => []
  end.

(** [strings.TrimSpace]: [TrimFunc(s, unicode.IsSpace)], which trims the
    right end of what the trim of the left end leaves. *)
Definition TrimSpace (s : string) : string :=
  str (trimRight (trimLeft (chars s) 0)).

Definition slash : ascii := "/"%char.
Definition dot : ascii := "."%char.

(** Scans a reversed path for its last element: the bytes after the final
    slash, and the rest (slash included), both still reversed. *)
Fixpoint lastElem (r : list ascii) (acc : list ascii)
  : list ascii * list ascii :=
  match r with
  | [] => (acc, [])
  | c :: r' =>
      if Ascii.eqb c slash then (acc, r) else lastElem r' (c :: acc)
  end.

(** [path.Split] and [filepath.Split]: [path[:i+1], path[i+1:]] for the
    index [i] of the final slash. *)
Definition Split (p : string) : string * string :=
  let '(file, dir_rev) := lastElem (rev (chars p)) [] in
  (str (rev dir_rev), str file).

(** The loop of [filepath.Ext], over the reversed path. *)
Fixpoint extScan (r : list ascii) (acc : list ascii) : list ascii :=
  match r with
  | [] => []
  | c :: r' =>
      if Ascii.eqb c slash then []
      else if Ascii.eqb c dot then c :: acc
      else extScan r' (c :: acc)
  end.

(** [filepath.Ext]: the suffix beginning at the final dot of the final
    element, empty when there is no dot. *)
Definition Ext (p : string) : string := str (extScan (rev (chars p)) []).

Fixpoint dropSlashes (r : list ascii) : list ascii :=
  match r with
  | c :: r' => if Ascii.eqb c slash then dropSlashes r' else r
  | [] => []
  end.

(** [filepath.Base] *)
Definition Base (p : string) : string :=
  if String.eqb p "" then "."
  else
    let stripped := dropSlashes (rev (chars p)) in
    let '(file, _) := lastElem stripped [] in
    match file with
    | [] => "/"
    | _ => str file
    end.

(** The elements of a path between its slashes. *)
Fixpoint splitSlash (l : list ascii) (cur : list ascii) : list string :=
  match l with
  | [] => [str (rev cur)]
  | c :: l' =>
      if Ascii.eqb c slash then str (rev cur) :: splitSlash l' []
      else splitSlash l' (c :: cur)
  end.

(** The main loop of [path.Clean], element by element; [stack] holds the
    output elements, last one first. *)
Fixpoint cleanElems (rooted : bool) (elems : list string)
  (stack : list string) : list string :=
  match elems with
  | [] => stack
  | e :: es =>
      if String.eqb e "" || String.eqb e "." then cleanElems rooted es stack
      else if String.eqb e ".." then
        match stack with
        | top :: below =>
            if String.eqb top ".." then cleanElems rooted es (e :: stack)
            else cleanElems rooted es below
        | [] =>
            if rooted then cleanElems rooted es []
            else cleanElems rooted es [e]
        end
      else cleanElems rooted es (e :: stack)
  end.

Fixpoint joinWith (sep : string) (l : list string) : string :=
  match l with
  | [] => ""
  | [x] => x
  | x :: rest => x +:+ sep +:+ joinWith sep rest
  end.

(** [path.Clean] *)
Definition Clean (p : string) : string :=
  match chars p with
  | [] => "."
  | c :: _ =>
      let rooted := Ascii.eqb c slash in
      let out := rev (cleanElems rooted (splitSlash (chars p) []) []) in
      let body := joinWith "/" out in
      if rooted then "/" +:+ body
      else if String.eqb body "" then "." else body
  end.

Fixpoint dropEmpty (l : list string) : list string :=
  match l with
  | e :: l' => if String.eqb e "" then dropEmpty l' else l
  | [] => []
  end.

(** [path.Join] and [filepath.Join]: the elements from the first non-empty
    one on, joined with slashes and cleaned; empty when all are empty. *)
Definition Join (elem : list string) : string :=
  match dropEmpty elem with
  | [] => ""
  | rest => Clean (joinWith "/" rest)
  end.

End GoStr.

(** *** [fsnotify] events *)

Module Fsnotify.

(** [type Op uint32], with [Create Op = 1 << iota] and the four after it. *)
Definition Create : Z := 1.
Definition Write : Z := 2.
Definition Remove : Z := 4.
Definition Rename : Z := 8.
Definition Chmod : Z := 16.

Record Event := mkEvent { Name : string; Op : Z }.

(** [ev.Op&flag == flag] *)
Definition has (flag : Z) (ev : Event) : bool :=
  (Z.land (Op ev) flag =? flag)%Z.

End Fsnotify.

Module Pick.
Import Fsnotify.

(** The condition of the loop of [pickOneWriteOrCreatePath] that does not
    depend on the name picked so far. *)
Definition isWriteOrCreate (ev : Event) : bool :=
  has Write ev || has Create ev.

Fixpoint pickLoop (events : list Event) (name : string) : string :=
  match events with
  | [] => name
  | ev :: rest =>
      pickLoop rest
        (if isWriteOrCreate ev && (GoStr.len name <? GoStr.len (Name ev))%nat
         then Name ev else name)
  end.

Definition pickOneWriteOrCreatePath (events : list Event) : string :=
  pickLoop events "".

End Pick.

(** *** The event loop of [newWatcher] *)

Module Watcher.
Import Fsnotify.

(** Calls the loop makes on its collaborators, in the order made. *)
Inductive Action :=
| DebounceFullRebuild                      (* c.debounce(c.fullRebuild) *)
| FullRebuild                              (* c.fullRebuild() *)
| WatcherAdd (path : string)               (* watcher.Add(path) *)
| CopyStatic                               (* c.copyStatic() *)
| StopOnErr                                (* utils.StopOnErr: the process exits *)
| SyncsStaticEvents (evs : list Event)     (* staticSyncer.syncsStaticEvents *)
| RefreshPath (path : string)              (* livereload.RefreshPath *)
| ForceRefresh                             (* livereload.ForceRefresh *)
| RebuildSites (evs : list Event)          (* c.rebuildSites *)
| NavigateToPathForPort (relPermalink : string) (port : Z).

(** What one pass of the loop reads from the commandeer and from its
    collaborators: configuration flags, the registered config files, the
    symbolic link table, the static syncer, the source file system and the
    results of the calls that can fail. *)
Record Env := mkEnv {
  buildWatch : bool;
  disableLiveReload : bool;
  forceSyncStatic : bool;
  navigateToChanged : bool;
  configFiles : list string;
  GetSymbolicLinkMappings : string -> list string;
  isStatic : string -> bool;
  MakeStaticPathRelative : string -> string;
  statIsDir : string -> bool;
  SymbolicWalk : string -> list (string * bool);
  watcherAddOk : string -> bool;
  copyStaticOk : bool;
  syncsStaticEventsOk : list Event -> bool;
  GetContentPage : string -> option (string * Z)
}.

(** [configSet[configFile] = true] for every registered config file. *)
Definition mkConfigSet (files : list string) : gmap string bool :=
  foldl (fun m f => <[f := true]> m) ∅ files.

(** [configSet[name]]: a Go map read, false for an absent key. *)
Definition inConfigSet (configSet : gmap string bool) (name : string) : bool :=
  default false (configSet !! name).

(** How a phase of the loop body ends: it falls through to the next phase,
    [continue]s the outer loop, or the process exits. *)
Inductive Flow := Proceed | Continue | Exit.

(** The first loop over the batch: config files and symbolic links.
    Returns whether [c.fullRebuild()] was called (the loop was left by
    [break]) and the events appended to [filtered]. *)
Fixpoint filterLoop (env : Env) (configSet : gmap string bool)
  (evs : list Event) (filtered : list Event) : bool * list Event :=
  match evs with
  | [] => (false, filtered)
  | ev :: rest =>
      if inConfigSet configSet (Name ev) then
        if has Chmod ev then filterLoop env configSet rest filtered
        else (true, filtered)
      else
        let contentMapped := GetSymbolicLinkMappings env (Name ev) in
        if (0 <? length contentMapped)%nat then
          filterLoop env configSet rest
            (filtered ++ map (fun mapped => mkEvent mapped (Op ev)) contentMapped)
        else
          let '(dir, name) := GoStr.Split (Name ev) in
          let contentMapped := GetSymbolicLinkMappings env dir in
          if (length contentMapped =? 0)%nat then
            filterLoop env configSet rest (filtered ++ [ev])
          else
            filterLoop env configSet rest
              (filtered ++
               map (fun mapped => mkEvent (GoStr.Join [mapped; name]) (Op ev))
                   contentMapped)
  end.

Definition istemp (ev : Event) : bool :=
  let ext := GoStr.Ext (Name ev) in
  let baseName := GoStr.Base (Name ev) in
  GoStr.HasSuffix ext "~" ||
  String.eqb ext ".swp" ||
  String.eqb ext ".swx" ||
  String.eqb ext ".tmp" ||
  String.eqb ext ".DS_Store" ||
  String.eqb baseName "4913" ||
  GoStr.HasPrefix ext ".goutputstream" ||
  GoStr.HasSuffix ext "jb_old___" ||
  GoStr.HasSuffix ext "jb_tmp___" ||
  GoStr.HasSuffix ext "jb_bak___" ||
  GoStr.HasPrefix ext ".sb-" ||
  GoStr.HasPrefix baseName ".#" ||
  GoStr.HasPrefix baseName "#".

(** [ev.Op&(Chmod|Write|Create) == Chmod] *)
Definition chmodOnly (ev : Event) : bool :=
  (Z.land (Op ev) (Z.lor (Z.lor Chmod Write) Create) =? Chmod)%Z.

(** [walkAdder] over the entries the walk visits, each with whether it is
    a directory; an error from [watcher.Add] ends the walk. *)
Fixpoint walkAdder (env : Env) (entries : list (string * bool))
  (adds : list Action) (dynamicEvents : list Event)
  : list Action * list Event :=
  match entries with
  | [] => (adds, dynamicEvents)
  | (path, isDir) :: rest =>
      if isDir then
        if watcherAddOk env path
        then walkAdder env rest (adds ++ [WatcherAdd path]) dynamicEvents
        else (adds ++ [WatcherAdd path], dynamicEvents)
      else if negb (isStatic env path) then
        walkAdder env rest adds (dynamicEvents ++ [mkEvent path Create])
      else walkAdder env rest adds dynamicEvents
  end.

(** The second loop: temporary files, empty names and chmod-only events
    are skipped, created directories are walked, and the rest is split
    into static and dynamic events. *)
Fixpoint classifyLoop (env : Env) (evs : list Event) (adds : list Action)
  (staticEvents dynamicEvents : list Event)
  : list Action * list Event * list Event :=
  match evs with
  | [] => (adds, staticEvents, dynamicEvents)
  | ev :: rest =>
      if istemp ev then classifyLoop env rest adds staticEvents dynamicEvents
      else if String.eqb (Name ev) "" then
        classifyLoop env rest adds staticEvents dynamicEvents
      else if chmodOnly ev then
        classifyLoop env rest adds staticEvents dynamicEvents
      else
        let '(adds', dynamicEvents') :=
          if has Create ev && statIsDir env (Name ev)
          then walkAdder env (SymbolicWalk env (Name ev)) adds dynamicEvents
          else (adds, dynamicEvents) in
        if isStatic env (Name ev)
        then classifyLoop env rest adds' (staticEvents ++ [ev]) dynamicEvents'
        else classifyLoop env rest adds' staticEvents (dynamicEvents' ++ [ev])
  end.

Definition liveReload (env : Env) : bool :=
  negb (buildWatch env) && negb (disableLiveReload env).

(** [if len(staticEvents) > 0 { ... }] *)
Definition staticPhase (env : Env) (staticEvents : list Event)
  : list Action * Flow :=
  if (0 <? length staticEvents)%nat then
    let '(sync, flow) :=
      if forceSyncStatic env then
        if copyStaticOk env then ([CopyStatic], Proceed)
        else ([CopyStatic; StopOnErr], Exit)
      else
        if syncsStaticEventsOk env staticEvents
        then ([SyncsStaticEvents staticEvents], Proceed)
        else ([SyncsStaticEvents staticEvents], Continue) in
    match flow with
    | Proceed =>
        (sync ++
         (if liveReload env then
            if (0 <? length staticEvents)%nat then
              map (fun ev => RefreshPath (MakeStaticPathRelative env (Name ev)))
                  staticEvents
            else [ForceRefresh]
          else []),
         Proceed)
    | _ => (sync, flow)
    end
  else ([], Proceed).

(** [if len(dynamicEvents) > 0 { ... }] *)
Definition dynamicPhase (env : Env) (dynamicEvents : list Event)
  : list Action :=
  if (0 <? length dynamicEvents)%nat then
    let doLiveReload := liveReload env in
    let onePageName := Pick.pickOneWriteOrCreatePath dynamicEvents in
    RebuildSites dynamicEvents ::
    (if doLiveReload then
       let p :=
         if navigateToChanged env then
           if negb (String.eqb onePageName "")
           then GetContentPage env onePageName else None
         else None in
       match p with
       | Some (relPermalink, port) => [NavigateToPathForPort relPermalink port]
       | None => [ForceRefresh]
       end
     else [])
  else [].

(** The static and dynamic events of a batch, as the two loops leave them. *)
Definition classified (env : Env) (evs : list Event)
  : list Action * list Event * list Event :=
  let '(_, filtered) := filterLoop env (mkConfigSet (configFiles env)) evs [] in
  classifyLoop env filtered [] [] [].

(** One [case evs := <-watcher.Events] of the loop. *)
Definition handleEvents (env : Env) (evs : list Event) : list Action :=
  if (50 <? length evs)%nat then [DebounceFullRebuild]
  else
    let '(rebuilt, filtered) :=
      filterLoop env (mkConfigSet (configFiles env)) evs [] in
    let '(adds, staticEvents, dynamicEvents) :=
      classifyLoop env filtered [] [] [] in
    let '(sacts, flow) := staticPhase env staticEvents in
    (if rebuilt then [FullRebuild] else []) ++ adds ++ sacts ++
    match flow with
    | Proceed => dynamicPhase env dynamicEvents
    | _ => []
    end.

(** Modelled from the spec: the debouncer is a library outside the
    repository; section 4.3 gives its contract: [trigger] schedules the
    action to run once after an idle window, and a call during the window
    resets the timer. The state is the action waiting for the window to
    elapse, if any. *)
Definition Debouncer := option Action.

Definition trigger (action : Action) (_ : Debouncer) : Debouncer := Some action.

(** The idle window elapses: what runs, and the state after. *)
Definition elapse (d : Debouncer) : list Action * Debouncer :=
  match d with
  | Some action => ([action], None)
  | None => ([], None)
  end.

(** Feeds the [c.debounce(c.fullRebuild)] calls of a trace to the debouncer. *)
Definition debounced (trace : list Action) (d : Debouncer) : Debouncer :=
  foldl (fun d a => match a with
                    | DebounceFullRebuild => trigger FullRebuild d
                    | _ => d
                    end) d trace.

Definition isFullRebuild (a : Action) : bool :=
  match a with FullRebuild => true | _ => false end.

Definition isForceRefresh (a : Action) : bool :=
  match a with ForceRefresh => true | _ => false end.

(** Static resync ([copyStatic] or [syncsStaticEvents]) or a rebuild from
    a change set ([rebuildSites]). *)
Definition isPartialHandling (a : Action) : bool :=
  match a with
  | CopyStatic | SyncsStaticEvents _ | RebuildSites _ => true
  | _ => false
  end.

Definition count (f : Action -> bool) (trace : list Action) : nat :=
  length (filter (fun a => f a = true) trace).

(** The static sync of a batch, by either route, returns no error. *)
Definition syncOk (env : Env) (staticEvents : list Event) : bool :=
  if forceSyncStatic env then copyStaticOk env
  else syncsStaticEventsOk env staticEvents.

(** The call that syncs the static events of a batch. *)
Definition syncAction (env : Env) (staticEvents : list Event) : Action :=
  if forceSyncStatic env then CopyStatic else SyncsStaticEvents staticEvents.

(** The event is on a registered config file and its [Chmod] bit is clear. *)
Definition isConfigChange (env : Env) (ev : Event) : bool :=
  inConfigSet (mkConfigSet (configFiles env)) (Name ev) && negb (has Chmod ev).

End Watcher.

(** *** [fullBuild] *)

Module Build.

(** A Go [error]: [None] is [nil]. *)
Definition error := option string.

Inductive Task := CopyStatic | BuildSites.

(** What an observer of one [fullBuild] sees of its phases. *)
Inductive Ev :=
| Started (t : Task)
| Finished (t : Task) (err : error)
| GC (err : error).

Record Env := mkEnv {
  cleanDestinationDir : bool;            (* c.Cfg.GetBool("cleanDestinationDir") *)
  gc : bool;                             (* c.h.gc *)
  copyStatic : gmap string Z * error;    (* c.copyStatic() *)
  buildSites : error;                    (* c.buildSites() *)
  hugoGC : Z * error;                    (* Hugo.GC() *)
  sites : list string                    (* the language of each of Hugo.Sites *)
}.

(** [uint64(count)] for a [count] of type [int]. *)
Definition toUint64 (count : Z) : Z := (count mod 2 ^ 64)%Z.

(** [s.ProcessingStats] of one site: the fields written here. *)
Record Stats := mkStats { Lang : string; Static : Z; Cleaned : option Z }.

(** [fmt.Errorf(prefix + "%s", err)] when [err != nil] *)
Definition wrap (prefix : string) (err : error) : error :=
  match err with
  | Some e => Some (prefix +:+ e)
  | None => None
  end.

(** The error [copyStaticFunc] returns. *)
Definition copyStaticFunc (env : Env) : error :=
  wrap "Error copying static files: " (snd (copyStatic env)).

(** [langCount] after [copyStaticFunc]: assigned only when it succeeds;
    a read of the nil map gives 0. *)
Definition langCountAfter (env : Env) : gmap string Z :=
  match snd (copyStatic env) with
  | Some _ => ∅
  | None => fst (copyStatic env)
  end.

(** The error [buildSitesFunc] returns. *)
Definition buildSitesFunc (env : Env) : error :=
  wrap "Error building site: " (buildSites env).

Definition taskFunc (env : Env) (t : Task) : error :=
  match t with
  | CopyStatic => copyStaticFunc env
  | BuildSites => buildSitesFunc env
  end.

(** [errgroup.Group]: each function passed to [Go] runs in a goroutine of
    its own; the first one to return a non-nil error has it recorded, and
    [Wait] returns that error once all have returned. *)
Inductive TaskState := Ready | Running | Done.

Record Group := mkGroup {
  copyState : TaskState;
  buildState : TaskState;
  firstErr : error;
  trace : list Ev
}.

Definition taskState (g : Group) (t : Task) : TaskState :=
  match t with
  | CopyStatic => copyState g
  | BuildSites => buildState g
  end.

Definition setTaskState (g : Group) (t : Task) (st : TaskState) : Group :=
  match t with
  | CopyStatic => mkGroup st (buildState g) (firstErr g) (trace g)
  | BuildSites => mkGroup (copyState g) st (firstErr g) (trace g)
  end.

Definition emit (g : Group) (e : Ev) : Group :=
  mkGroup (copyState g) (buildState g) (firstErr g) (trace g ++ [e]).

Definition recordErr (g : Group) (err : error) : Group :=
  match firstErr g with
  | Some _ => g
  | None => mkGroup (copyState g) (buildState g) err (trace g)
  end.

(** The scheduler lets goroutine [t] take its next step: it starts, or it
    returns; a goroutine that has returned has no step left. *)
Definition step (env : Env) (g : Group) (t : Task) : Group :=
  match taskState g t with
  | Ready => emit (setTaskState g t Running) (Started t)
  | Running =>
      recordErr (emit (setTaskState g t Done) (Finished t (taskFunc env t)))
                (taskFunc env t)
  | Done => g
  end.

(** [g.Go(copyStaticFunc); g.Go(buildSitesFunc); g.Wait()] under a
    schedule: the goroutines step in the order of [sched]; [Wait] returns
    only when both have returned, so whatever the schedule leaves undone
    still runs. *)
Definition goAndWait (env : Env) (sched : list Task) : Group :=
  foldl (step env) (mkGroup Ready Ready None [])
        (sched ++ [CopyStatic; CopyStatic; BuildSites; BuildSites]).

(** The part of [fullBuild] after the two phases: statistics and the
    optional garbage collection. *)
Definition finish (env : Env) (phases : list Ev)
  : list Ev * list Stats * error :=
  let stats :=
    map (fun lang => mkStats lang (default 0%Z (langCountAfter env !! lang)) None)
        (sites env) in
  if gc env then
    match snd (hugoGC env) with
    | Some e => (phases ++ [GC (Some e)], stats, Some e)
    | None =>
        (phases ++ [GC None],
         map (fun s => mkStats (Lang s) (Static s)
                               (Some (toUint64 (fst (hugoGC env))))) stats,
         None)
    end
  else (phases, stats, None).

(** [fullBuild]: the phases observed, the statistics written, and the
    error returned. Statistics are left untouched when a phase fails. *)
Definition fullBuild (env : Env) (sched : list Task)
  : list Ev * list Stats * error :=
  if cleanDestinationDir env then
    match copyStaticFunc env with
    | Some e =>
        ([Started CopyStatic; Finished CopyStatic (Some e)], [], Some e)
    | None =>
        match buildSitesFunc env with
        | Some e =>
            ([Started CopyStatic; Finished CopyStatic None;
              Started BuildSites; Finished BuildSites (Some e)], [], Some e)
        | None =>
            finish env [Started CopyStatic; Finished CopyStatic None;
                        Started BuildSites; Finished BuildSites None]
        end
    end
  else
    let g := goAndWait env sched in
    match firstErr g with
    | Some e => (trace g, [], Some e)
    | None => finish env (trace g)
    end.

Definition phasesOf (r : list Ev * list Stats * error) : list Ev := fst (fst r).
Definition errorOf (r : list Ev * list Stats * error) : error := snd r.

(** The events of one task, in program order. *)
Definition taskEvents (env : Env) (t : Task) : list Ev :=
  [Started t; Finished t (taskFunc env t)].

(** [l] interleaves [l1] and [l2], keeping the order of each. *)
Inductive Interleave {A : Type} : list A -> list A -> list A -> Prop :=
| interleave_nil : Interleave [] [] []
| interleave_left x l1 l2 l :
    Interleave l1 l2 l -> Interleave (x :: l1) l2 (x :: l)
| interleave_right x l1 l2 l :
    Interleave l1 l2 l -> Interleave l1 (x :: l2) (x :: l).

(** The error of the first task seen to return one. *)
Fixpoint firstFailure (l : list Ev) : error :=
  match l with
  | [] => None
  | Finished _ (Some e) :: _ => Some e
  | _ :: rest => firstFailure rest
  end.

(** Position of the first event satisfying [f]. *)
Fixpoint indexOf (f : Ev -> bool) (l : list Ev) : option nat :=
  match l with
  | [] => None
  | e :: rest => if f e then Some 0 else S <$> indexOf f rest
  end.

Definition isStarted (t : Task) (e : Ev) : bool :=
  match e, t with
  | Started CopyStatic, CopyStatic | Started BuildSites, BuildSites => true
  | _, _ => false
  end.

Definition isFinished (t : Task) (e : Ev) : bool :=
  match e, t with
  | Finished CopyStatic _, CopyStatic | Finished BuildSites _, BuildSites => true
  | _, _ => false
  end.

(** The events a goroutine has produced when in a given state. *)
Definition produced (env : Env) (t : Task) (st : TaskState) : list Ev :=
  match st with
  | Ready => []
  | Running => [Started t]
  | Done => taskEvents env t
  end.

(** What ties the state of a group to its trace: the trace interleaves
    what the two goroutines have produced, and the error recorded is that
    of the first goroutine seen to fail. *)
Definition groupInv (env : Env) (g : Group) : Prop :=
  Interleave (produced env CopyStatic (copyState g))
             (produced env BuildSites (buildState g)) (trace g) /\
  firstErr g = firstFailure (trace g).

(** The events of the garbage collection, when it runs. *)
Definition gcEvents (env : Env) : list Ev :=
  if gc env then [GC (snd (hugoGC env))] else [].

End Build.

(** *** The site renderer: [renderRSS], [renderPaginator], [pageRenderer] *)

Module Render.

Definition error := option string.

(** [output.Format]: the fields the renderer reads. *)
Record OutputFormat := mkFormat { Name : string; IsHTML : bool }.

(** A page of a page list, with the fields read through it; [time.Time]
    values are carried as seconds. *)
Record SubPage := mkSubPage { spTitle : string; spDate : Z; spLastmod : Z }.

(** Modelled from the spec: the paginator type is declared outside the
    files at hand. Section 3: an ordered partition of a Document's sub-page
    list into fixed-size pages. A pager is one page of the partition, known
    by its number, counted from 1. *)
Record Paginator := mkPaginator { paginatedElements : list (list SubPage) }.

Record Pager := mkPager { number : nat; owner : Paginator }.

Definition Pagers (p : Pager) : list Pager :=
  imap (fun i _ => mkPager (S i) (owner p)) (paginatedElements (owner p)).

Definition TotalPages (p : Pager) : nat :=
  length (paginatedElements (owner p)).

(** [pager.page(index)]: nil when the pager's own page has no such entry. *)
Definition pagerPage (p : Pager) (index : nat) : option SubPage :=
  match paginatedElements (owner p) !! (number p - 1) with
  | Some pages => pages !! index
  | None => None
  end.

(** [PageOutput], with the fields of the page it wraps that the renderer
    reads or writes. *)
Record PageOutput := mkPageOutput {
  pageId : nat;
  outputFormat : OutputFormat;
  Kind : string;
  Title : string;
  Date : Z;
  Lastmod : Z;
  Pages : list SubPage;
  Data : gmap string (list SubPage);
  paginator : option Pager;
  isNode : bool
}.

Definition setKind (p : PageOutput) (k : string) : PageOutput :=
  mkPageOutput (pageId p) (outputFormat p) k (Title p) (Date p) (Lastmod p)
               (Pages p) (Data p) (paginator p) (isNode p).

Definition setDate (p : PageOutput) (d : Z) : PageOutput :=
  mkPageOutput (pageId p) (outputFormat p) (Kind p) (Title p) d (Lastmod p)
               (Pages p) (Data p) (paginator p) (isNode p).

Definition setLastmod (p : PageOutput) (d : Z) : PageOutput :=
  mkPageOutput (pageId p) (outputFormat p) (Kind p) (Title p) (Date p) d
               (Pages p) (Data p) (paginator p) (isNode p).

Definition setPages (p : PageOutput) (ps : list SubPage) : PageOutput :=
  mkPageOutput (pageId p) (outputFormat p) (Kind p) (Title p) (Date p)
               (Lastmod p) ps (Data p) (paginator p) (isNode p).

Definition setData (p : PageOutput) (k : string) (ps : list SubPage)
  : PageOutput :=
  mkPageOutput (pageId p) (outputFormat p) (Kind p) (Title p) (Date p)
               (Lastmod p) (Pages p) (<[k := ps]> (Data p)) (paginator p)
               (isNode p).

Definition setPaginator (p : PageOutput) (pg : Pager) : PageOutput :=
  mkPageOutput (pageId p) (outputFormat p) (Kind p) (Title p) (Date p)
               (Lastmod p) (Pages p) (Data p) (Some pg) (isNode p).

(** What the renderer does to the world, in order. *)
Inductive Effect :=
| NewPageOutput (pid : nat) (createCopy : bool) (f : OutputFormat)
| LogError (what : string)
| WriteDestAlias (target link : string)
| RenderAndWritePage (name targetPath : string) (p : PageOutput)
    (layouts : list string)
| RenderAndWriteXML (name targetPath : string) (p : PageOutput)
    (layouts : list string)
| SendResult (err : string)
| Panic.

(** The site: configuration, the constants of page kinds, and the
    collaborators declared outside the files at hand. A call that returns
    a value and an error is a pair. *)
Record Site := mkSite {
  isEnabledRSS : bool;                   (* s.isEnabled(kindRSS) *)
  disableRSS : bool;                     (* s.Cfg.GetBool("disableRSS") *)
  rssLimit : Z;                          (* s.Cfg.GetInt("rssLimit") *)
  paginatePath : string;                 (* s.Cfg.GetString("paginatePath") *)
  kindRSS : string;
  KindTaxonomy : string;
  newPageOutput : nat -> bool -> OutputFormat -> option PageOutput * error;
  layouts : PageOutput -> list string * error;        (* s.layouts(p) *)
  pLayouts : PageOutput -> list string * error;       (* p.layouts() *)
  layoutHandlerFor : PageOutput -> list string * error;
  targetPath : PageOutput -> list string -> string * error;
  createTargetPath : PageOutput -> OutputFormat -> list string -> string * error;
  Permalink : PageOutput -> string;
  FullFilePath : PageOutput -> string;
  copyPageOutput : PageOutput -> PageOutput;
  writeDestAlias : string -> string -> error;
  renderAndWritePage : string -> string -> PageOutput -> list string -> error;
  renderAndWriteXML : string -> string -> PageOutput -> list string -> error
}.

(** [p.Pages[:limit]] *)
Definition truncatePages (p : PageOutput) (limit : Z) : PageOutput :=
  let p' := setPages p (take (Z.to_nat limit) (Pages p)) in
  setData p' "Pages" (Pages p').

(** [renderRSS]: the page output as left, the effects, the error returned. *)
Definition renderRSS (s : Site) (p : PageOutput)
  : PageOutput * list Effect * error :=
  if negb (isEnabledRSS s) then (p, [], None)
  else if disableRSS s then (p, [], None)
  else
    let p := setKind p (kindRSS s) in
    let p := if String.eqb (Kind p) (KindTaxonomy s) then setDate p 0%Z else p in
    let limit := rssLimit s in
    let p :=
      if (0 <=? limit)%Z && (limit <? Z.of_nat (length (Pages p)))%Z
      then truncatePages p limit else p in
    match layoutHandlerFor s p with
    | (_, Some e) => (p, [], Some e)
    | (layouts, None) =>
        match targetPath s p [] with
        | (_, Some e) => (p, [], Some e)
        | (target, None) =>
            (p, [RenderAndWriteXML (Title p) target p layouts],
             renderAndWriteXML s (Title p) target p layouts)
        end
    end.

(** [fmt.Sprintf("/%s/%d", paginatePath, pageNumber)] *)
Definition paginateAddend (s : Site) (pageNumber : nat) : string :=
  "/" +:+ paginatePath s +:+ "/" +:+ pretty pageNumber.

(** How a call ends: it returns an error (or nil), or it panics. *)
Inductive Outcome := Returned (err : error) | Panicked.

(** [pagerNode] of one round of the loop: a copy of [p] with the pager and,
    when the paginator has pages, the dates of the pager's first page; no
    node when that page is nil. *)
Definition pagerNodeOf (s : Site) (p : PageOutput) (pager : Pager)
  : option PageOutput :=
  let pagerNode := setPaginator (copyPageOutput s p) pager in
  if (0 <? TotalPages pager)%nat then
    match pagerPage pager 0 with
    | Some first => Some (setLastmod (setDate pagerNode (spDate first)) (spLastmod first))
    | None => None
    end
  else Some pagerNode.

(** The loop of [renderPaginator]; [i] is the index of the head of
    [pagers]. *)
Fixpoint renderPagers (s : Site) (p : PageOutput) (i : nat)
  (pagers : list Pager) : list Effect * Outcome :=
  match pagers with
  | [] => ([], Returned None)
  | pager :: rest =>
      if (i =? 0)%nat then renderPagers s p (S i) rest
      else
        match pagerNodeOf s p pager with
        | None => ([Panic], Panicked)
        | Some pagerNode =>
            let pageNumber := i + 1 in
            let addend := paginateAddend s pageNumber in
            let target := fst (targetPath s p [addend]) in
            match pLayouts s p with
            | (_, Some e) => ([], Returned (Some e))
            | (ls, None) =>
                let eff :=
                  RenderAndWritePage (Title pagerNode) target pagerNode ls in
                match renderAndWritePage s (Title pagerNode) target pagerNode ls with
                | Some e => ([eff], Returned (Some e))
                | None =>
                    let '(effs, out) := renderPagers s p (S i) rest in
                    (eff :: effs, out)
                end
            end
        end
  end.

Definition renderPaginator (s : Site) (p : PageOutput)
  : list Effect * Outcome :=
  match paginator p with
  | None => ([], Returned None)
  | Some pg =>
      let addend := paginateAddend s 1 in
      match createTargetPath s p (outputFormat p) [addend] with
      | (_, Some e) => ([], Returned (Some e))
      | (target, None) =>
          let link := Permalink s p in
          match writeDestAlias s target link with
          | Some e => ([WriteDestAlias target link], Returned (Some e))
          | None =>
              let '(effs, out) := renderPagers s p 0 (Pagers pg) in
              (WriteDestAlias target link :: effs, out)
          end
      end
  end.

(** A page as the workers share it: its output formats, its own layout,
    and the [sync.Once] with the main page output it guards. *)
Record Page := mkPage {
  outputFormats : list OutputFormat;
  selfLayout : string;
  pageOutputInit : bool;                 (* the Once has run *)
  mainPageOutput : option PageOutput     (* nil until set *)
}.

(** The pages behind the [*Page] pointers, the effects so far, and whether
    a worker has panicked (which ends the process). *)
Record State := mkState {
  pages : gmap nat Page;
  effects : list Effect;
  crashed : bool
}.

Definition say (st : State) (effs : list Effect) : State :=
  mkState (pages st) (effects st ++ effs) (crashed st).

Definition crash (st : State) : State :=
  mkState (pages st) (effects st ++ [Panic]) true.

Definition setMain (st : State) (pid : nat) (page : Page)
  (po : option PageOutput) : State :=
  mkState (<[pid := mkPage (outputFormats page) (selfLayout page) true po]> (pages st))
          (effects st) (crashed st).

Definition sendIfErr (err : error) : list Effect :=
  match err with
  | Some e => [SendResult e]
  | None => []
  end.

(** The first statement of the loop body: the page output for format [i].
    [page.pageOutputInit.Do] runs its function only the first time, and
    the error is that of this round alone. *)
Definition createOutput (s : Site) (pid : nat) (page : Page) (i : nat)
  (outFormat : OutputFormat) (st : State)
  : State * option PageOutput * error :=
  if (i =? 0)%nat then
    if pageOutputInit page then (st, mainPageOutput page, None)
    else
      let '(po, err) := newPageOutput s pid false outFormat in
      (say (setMain st pid page po) [NewPageOutput pid false outFormat], po, err)
  else
    let '(po, err) := newPageOutput s pid true outFormat in
    (say st [NewPageOutput pid true outFormat], po, err).

(** The rest of the loop body, from the layouts on. [shared] tells that
    [pageOutput] is the page's main output, which [renderRSS] writes to. *)
Definition renderOutput (s : Site) (pid : nat) (page : Page) (shared : bool)
  (pageOutput : PageOutput) (st : State) : State :=
  let '(ls, lerr) :=
    if negb (String.eqb (selfLayout page) "") then ([selfLayout page], None)
    else layouts s pageOutput in
  match lerr with
  | Some _ => say st [LogError "Failed to resolve layout output"]
  | None =>
      if String.eqb (Name (outputFormat pageOutput)) "RSS" then
        let '(po', effs, err) := renderRSS s pageOutput in
        let st := say st (effs ++ sendIfErr err) in
        if shared then
          match pages st !! pid with
          | Some page' => setMain st pid page' (Some po')
          | None => st
          end
        else st
      else
        match targetPath s pageOutput [] with
        | (_, Some _) => say st [LogError "Failed to create target path"]
        | (target, None) =>
            let name := "page " +:+ FullFilePath s pageOutput in
            let st :=
              say st (RenderAndWritePage name target pageOutput ls ::
                      sendIfErr (renderAndWritePage s name target pageOutput ls)) in
            if isNode pageOutput then
              match renderPaginator s pageOutput with
              | (effs, Returned err) => say st (effs ++ sendIfErr err)
              | (effs, Panicked) => mkState (pages st) (effects st ++ effs) true
              end
            else st
        end
  end.

(** One round of the inner loop of [pageRenderer]: page [pid], format
    index [i]. *)
Definition renderFormat (s : Site) (st : State) (job : nat * nat) : State :=
  let '(pid, i) := job in
  if crashed st then st
  else
    match pages st !! pid with
    | None => st
    | Some page =>
        match outputFormats page !! i with
        | None => st
        | Some outFormat =>
            let '(st, pageOutput, err) := createOutput s pid page i outFormat st in
            match err with
            | Some _ => say st [LogError "Failed to create output page"]
            | None =>
                match pageOutput with
                | None => crash st
                | Some po => renderOutput s pid page (i =? 0)%nat po st
                end
            end
        end
    end.

(** The rounds of one page, in the order of its output formats. *)
Definition jobsOf (st : State) (pid : nat) : list (nat * nat) :=
  match pages st !! pid with
  | Some page => map (fun i => (pid, i)) (seq 0 (length (outputFormats page)))
  | None => []
  end.

(** Any number of workers: their rounds happen in some order, the schedule. *)
Definition run (s : Site) (sched : list (nat * nat)) (st : State) : State :=
  foldl (renderFormat s) st sched.

(** [pageRenderer]: one worker, the pages it receives from the channel. *)
Definition pageRenderer (s : Site) (received : list nat) (st : State) : State :=
  foldl (fun st pid => run s (jobsOf st pid) st) st received.

Definition isMainInit (pid : nat) (e : Effect) : bool :=
  match e with
  | NewPageOutput pid' false _ => (pid' =? pid)%nat
  | _ => false
  end.

Definition isCopyInit (pid : nat) (e : Effect) : bool :=
  match e with
  | NewPageOutput pid' true _ => (pid' =? pid)%nat
  | _ => false
  end.

Definition countEff (f : Effect -> bool) (l : list Effect) : nat :=
  length (filter (fun e => f e = true) l).

Definition isNew (e : Effect) : bool :=
  match e with
  | NewPageOutput _ _ _ => true
  | _ => false
  end.

(** [eff] is the render of [pager] as page [pageNumber] of [p]: the node
    is a copy of [p] with the pager and the dates of the pager's first
    page, written at the target path of [p] extended by
    [/<paginatePath>/<pageNumber>], the number in decimal. *)
Definition rendersPager (s : Site) (p : PageOutput) (pageNumber : nat)
  (pager : Pager) (eff : Effect) : Prop :=
  exists first node ls,
    pagerPage pager 0 = Some first /\
    node = setPaginator (copyPageOutput s p) pager /\
    pLayouts s p = (ls, None) /\
    eff = RenderAndWritePage (Title node)
            (fst (targetPath s p
                    ["/" +:+ paginatePath s +:+ "/" +:+ pretty pageNumber]))
            (setLastmod (setDate node (spDate first)) (spLastmod first)) ls.

(** A render of a pager node is one of a pager numbered 2 or more. *)
Definition notFirstPager (eff : Effect) : Prop :=
  match eff with
  | RenderAndWritePage _ _ node _ =>
      exists pager, paginator node = Some pager /\ 2 <= number pager
  | _ => True
  end.

(** The [sync.Once] of page [pid] has run. *)
Definition initDone (st : State) (pid : nat) : bool :=
  match pages st !! pid with
  | Some page => pageOutputInit page
  | None => false
  end.

Definition formatsOf (st : State) (pid : nat) : list OutputFormat :=
  match pages st !! pid with
  | Some page => outputFormats page
  | None => []
  end.

Definition noNew (l : list Effect) : Prop :=
  Forall (fun e => isNew e = false) l.

(** How a round for page [pid0] may change the pages: the output formats
    stay, a [sync.Once] that has run stays run, and only a round that may
    go through the Once ([canInit]) changes whether it has run, and then
    only for its own page. *)
Definition storeRel (m m' : gmap nat Page) (pid0 : nat) (canInit : bool)
  : Prop :=
  forall pid,
    match m !! pid, m' !! pid with
    | Some pg, Some pg' =>
        outputFormats pg' = outputFormats pg /\
        (pageOutputInit pg = true -> pageOutputInit pg' = true) /\
        (pid <> pid0 \/ canInit = false ->
         pageOutputInit pg' = pageOutputInit pg)
    | None, None => True
    | _, _ => False
    end.

(** The round for page [pid0] and format index [i] is the one that runs
    the function passed to the Once: no worker has panicked, the index is
    0, the page has a first format and its Once has not run. *)
Definition fires (st : State) (pid0 i : nat) : bool :=
  negb (crashed st) && (i =? 0)%nat &&
  match pages st !! pid0 with
  | Some page =>
      negb (pageOutputInit page) &&
      match outputFormats page !! 0 with Some _ => true | None => false end
  | None => false
  end.

(** The effects of a run that were not there before it. *)
Definition newEffects (before after : State) : list Effect :=
  drop (length (effects before)) (effects after).

End Render.

(** *** The page: [ReadFrom], [analyzePage], [TargetPath] *)

Module PageM.

Definition error := option string.

(** Go's [int] on a 64-bit platform. *)
Definition maxInt : Z := 2 ^ 63 - 1.

Definition wrapInt (z : Z) : Z := ((z + 2 ^ 63) mod 2 ^ 64 - 2 ^ 63)%Z.

Definition addInt (a b : Z) : Z := wrapInt (a + b).
Definition mulInt (a b : Z) : Z := wrapInt (a * b).

(** Go's [/] truncates toward zero. *)
Definition divInt (a b : Z) : Z := wrapInt (Z.quot a b).

(** [Page], with [File], [PageMeta] and the fields of [Node] read here;
    [Permalinks] is [p.Site.Permalinks], from section to path pattern. *)
Record Page := mkPage {
  rawContent : string;
  plain : string;
  FileName : string;
  Extension : string;
  Dir : string;
  Section : string;
  Slug : string;
  Url : string;
  WordCount : Z;
  FuzzyWordCount : Z;
  ReadingTime : Z;
  Permalinks : gmap string string
}.

(** The functions of the package declared outside the files at hand. *)
Record Deps := mkDeps {
  Expand : string -> Page -> string * error;       (* override.Expand(p) *)
  replaceExtension : string -> string -> string;
  StripShortcodes : string -> string;
  TotalWords : string -> nat;                      (* a count of words *)
  parse : string -> Page -> Page * error           (* p.parse(buf) *)
}.

Fixpoint containsAny (s : string) (cs : list ascii) : bool :=
  match s with
  | EmptyString => false
  | String c s' => existsb (Ascii.eqb c) cs || containsAny s' cs
  end.

(** [strings.Replace(s, old, new, -1)] for a non-empty [old]; [skip] counts
    the bytes of a match still to pass over. *)
Fixpoint replaceFrom (old new : string) (s : string) (skip : nat) : string :=
  match s with
  | EmptyString => EmptyString
  | String c s' =>
      match skip with
      | S k => replaceFrom old new s' k
      | O =>
          if String.prefix old s
          then new +:+ replaceFrom old new s' (GoStr.len old - 1)
          else String c (replaceFrom old new s' 0)
      end
  end.

Definition Replace (s old new : string) : string := replaceFrom old new s 0.

(** The walk of [StripHTML] that removes the tags: [for _, r := range s]
    decodes the runes of the string one by one, an invalid byte giving
    U+FFFD and a width of one, and [WriteRune] encodes what is kept.
    [skip] counts the bytes of the current rune still to pass over. *)
Fixpoint stripRunes (l : list ascii) (skip : nat) (inTag : bool) : list ascii :=
  match l with
  | [] => []
  | c :: l' =>
      match skip with
      | S k => stripRunes l' k inTag
      | O =>
          let '(r, wid) := Utf8.DecodeRune l in
          if (r =? 60)%Z then stripRunes l' (wid - 1) true
          else if (r =? 62)%Z then stripRunes l' (wid - 1) false
          else if inTag then stripRunes l' (wid - 1) inTag
          else Utf8.EncodeRune r ++ stripRunes l' (wid - 1) inTag
      end
  end.

Definition stripTags (s : string) (inTag : bool) : string :=
  GoStr.str (stripRunes (GoStr.chars s) 0 inTag).

Definition newline : string := String (ascii_of_nat 10) EmptyString.

Definition StripHTML (s : string) : string :=
  if negb (containsAny s ["<"%char; ">"%char]) then s
  else
    let s := Replace s newline " " in
    let s := Replace s "</p>" (" " +:+ newline) in
    let s := Replace s "<br>" (" " +:+ newline) in
    let s := Replace s "</br>" (" " +:+ newline) in
    stripTags s false.

Definition setPlain (p : Page) (v : string) : Page :=
  mkPage (rawContent p) v (FileName p) (Extension p) (Dir p) (Section p)
         (Slug p) (Url p) (WordCount p) (FuzzyWordCount p) (ReadingTime p)
         (Permalinks p).

Definition setSection (p : Page) (v : string) : Page :=
  mkPage (rawContent p) (plain p) (FileName p) (Extension p) (Dir p) v
         (Slug p) (Url p) (WordCount p) (FuzzyWordCount p) (ReadingTime p)
         (Permalinks p).

Definition setMeta (p : Page) (wc fuzzy reading : Z) : Page :=
  mkPage (rawContent p) (plain p) (FileName p) (Extension p) (Dir p) (Section p)
         (Slug p) (Url p) wc fuzzy reading (Permalinks p).

(** [p.Plain()]: the page after the call and the value returned. *)
Definition Plain (d : Deps) (p : Page) : Page * string :=
  if (GoStr.len (plain p) =? 0)%nat then
    let v := StripHTML (StripShortcodes d (rawContent p)) in
    (setPlain p v, v)
  else (p, plain p).

Definition guessSection (p : Page) : Page :=
  if String.eqb (Section p) "" then
    let x := GoStr.splitSlash (GoStr.chars (FileName p)) [] in
    let x := take (length x - 1) x in
    match x with
    | [] => p
    | x0 :: rest =>
        let x := if String.eqb x0 "content" then rest else x in
        setSection p (GoStr.Join x)
    end
  else p.

(** [newPage(filename)]; [permalinks] stands for the site the page is
    attached to. *)
Definition newPage (filename : string) (permalinks : gmap string string) : Page :=
  guessSection (mkPage "" "" filename "html" "" "" "" "" 0 0 0 permalinks).

Definition analyzePage (d : Deps) (p : Page) : Page :=
  let '(p, text) := Plain d p in
  let wc := Z.of_nat (TotalWords d text) in
  let fuzzy := mulInt (divInt (addInt wc 100) 100) 100 in
  let reading := divInt (addInt wc 212) 213 in
  setMeta p wc fuzzy reading.

(** [ReadFrom(buf, name)]: [(nil, err)] or [(p, nil)]. *)
Definition ReadFrom (d : Deps) (permalinks : gmap string string)
  (buf name : string) : option Page * error :=
  if (GoStr.len name =? 0)%nat then (None, Some "Zero length page name")
  else
    let p := newPage name permalinks in
    match parse d buf p with
    | (_, Some e) => (None, Some e)
    | (p, None) => (Some (analyzePage d p), None)
    end.

(** [if strings.HasSuffix(outfile, "/") { outfile += "index.html" }] *)
Definition withIndex (outfile : string) : string :=
  if GoStr.HasSuffix outfile "/" then outfile +:+ "index.html" else outfile.

(** The second step of [TargetPath]: the permalink override of the page's
    section, when there is one and it expands without error. *)
Definition permalinkTarget (d : Deps) (p : Page) : option string :=
  match Permalinks p !! Section p with
  | Some override =>
      match Expand d override p with
      | (outfile, None) => Some (withIndex outfile)
      | (_, Some _) => None
      end
  | None => None
  end.

Definition TargetPath (d : Deps) (p : Page) : string :=
  if (2 <? GoStr.len (GoStr.TrimSpace (Url p)))%nat then
    withIndex (GoStr.TrimSpace (Url p))
  else
    match permalinkTarget d p with
    | Some outfile => outfile
    | None =>
        let outfile :=
          if (0 <? GoStr.len (GoStr.TrimSpace (Slug p)))%nat then
            GoStr.TrimSpace (Slug p) +:+ "." +:+ Extension p
          else
            let '(_, t) := GoStr.Split (FileName p) in
            replaceExtension d (GoStr.TrimSpace t) (Extension p) in
        GoStr.Join [Dir p; GoStr.TrimSpace outfile]
    end.

(** No permalink pattern applies: the section has none, or its expansion
    returned an error. *)
Definition noOverride (d : Deps) (p : Page) : Prop :=
  match Permalinks p !! Section p with
  | Some override => snd (Expand d override p) <> None
  | None => True
  end.

(** The counters of a page are those [analyzePage] computes from its word
    count: the fuzzy count is the next multiple of 100 above the count, the
    reading time the count over 213, rounded up. *)
Definition analyzed (p : Page) : Prop :=
  (0 <= WordCount p /\
   FuzzyWordCount p = WordCount p / 100 * 100 + 100 /\
   0 < FuzzyWordCount p /\
   FuzzyWordCount p mod 100 = 0 /\
   WordCount p < FuzzyWordCount p <= WordCount p + 100 /\
   213 * (ReadingTime p - 1) < WordCount p <= 213 * ReadingTime p /\
   (WordCount p = 0 -> ReadingTime p = 0))%Z.

End PageM.

(** *** Readings of the watcher's batches and traces *)

Module WatcherRead.
Import Fsnotify Watcher.

(** The second loop [continue]s on the event: a temporary file, an empty
    name, or [Chmod] without [Write] or [Create]. *)
Definition skipped (ev : Event) : bool :=
  istemp ev || String.eqb (Name ev) "" || chmodOnly ev.

(** A call into [livereload], or a call that can end in one:
    [c.fullRebuild()], made at once or handed to the debouncer, reloads the
    configuration and then calls [livereload.ForceRefresh()] when the
    configuration it has just loaded allows live reload. *)
Definition isLiveReloadCall (a : Action) : bool :=
  match a with
  | RefreshPath _ | ForceRefresh | NavigateToPathForPort _ _ => true
  | FullRebuild | DebounceFullRebuild => true
  | _ => false
  end.

Definition isWatcherAdd (a : Action) : bool :=
  match a with WatcherAdd _ => true | _ => false end.

Definition isRebuildSites (a : Action) : bool :=
  match a with RebuildSites _ => true | _ => false end.

(** [ev'] is one of the events the first loop appends to [filtered] for the
    event [ev] of the batch: [ev] itself, [ev] renamed to a mapping of its
    name, or [ev] renamed to its file name under a mapping of its directory. *)
Definition rewrites (env : Env) (ev ev' : Event) : Prop :=
  Op ev' = Op ev /\
  (ev' = ev \/
   In (Name ev') (GetSymbolicLinkMappings env (Name ev)) \/
   exists mapped,
     In mapped (GetSymbolicLinkMappings env (fst (GoStr.Split (Name ev)))) /\
     Name ev' = GoStr.Join [mapped; snd (GoStr.Split (Name ev))]).

(** [evs = filtered]: the events the first loop hands to the second. *)
Definition filteredOf (env : Env) (evs : list Event) : list Event :=
  snd (filterLoop env (mkConfigSet (configFiles env)) evs []).

(** [staticEvents] and [dynamicEvents] when the second loop is done. *)
Definition staticOf (env : Env) (evs : list Event) : list Event :=
  snd (fst (classified env evs)).

Definition dynamicOf (env : Env) (evs : list Event) : list Event :=
  snd (classified env evs).

(** What one round of the second loop appends to [dynamicEvents]: nothing
    for an event it skips; otherwise what [walkAdder] appends over the walk
    of a created directory, and then the event itself unless its path is
    static. *)
Definition appended (env : Env) (ev : Event) : list Event :=
  if skipped ev then []
  else
    (if has Create ev && statIsDir env (Name ev)
     then snd (walkAdder env (SymbolicWalk env (Name ev)) [] [])
     else []) ++
    (if isStatic env (Name ev) then [] else [ev]).

End WatcherRead.

(** *** The static copy over the publish directories: [doWithPublishDirs] *)

Module Static.

Definition error := Build.error.

Section PublishDirs.

(** [*src.Dirs], of which only [Language] is read here: nil, or its [Lang]. *)
Variable Dirs : Type.
Variable Language : Dirs -> option string.

(** The function applied to each entry, [c.pathSpec.PublishDir] and
    [c.languages] (the [Lang] of each). *)
Variable f : Dirs -> string -> Z * error.
Variable publishDir : string.
Variable languages : list string.

(** The body of the loop after a successful [f]: the count goes to every
    language when the entry has none of its own, to its language otherwise. *)
Definition credit (dirs : Dirs) (cnt : Z) (langCount : gmap string Z)
  : gmap string Z :=
  match Language dirs with
  | None => foldl (fun m l => <[l := cnt]> m) langCount languages
  | Some lang => <[lang := cnt]> langCount
  end.

Fixpoint publishLoop (staticDirsConfig : list Dirs) (langCount : gmap string Z)
  : gmap string Z * error :=
  match staticDirsConfig with
  | [] => (langCount, None)
  | dirs :: rest =>
      let '(cnt, err) := f dirs publishDir in
      match err with
      | Some e => (langCount, Some e)
      | None => publishLoop rest (credit dirs cnt langCount)
      end
  end.

Definition doWithPublishDirs (staticDirsConfig : list Dirs)
  : gmap string Z * error :=
  publishLoop staticDirsConfig ∅.

End PublishDirs.

End Static.

(** *** The resident sites: [initSites] and the builds that go through it *)

Module Sites.
Import Fsnotify.

Definition error := Build.error.

(** [c.Cfg], of which only [GetBool] is read here. *)
Record Config := mkConfig { GetBool : string -> bool }.

(** [*hugolib.HugoSites]: its [Cfg], and the language of each of its
    [Sites]. *)
Record HugoSites := mkHugoSites { HCfg : Config; HSites : list string }.

(** The [hugolib.BuildCfg] values built here. *)
Inductive BuildCfg :=
| Zero                                          (* hugolib.BuildCfg{} *)
| CreateSitesFromConfig
| ResetState
| RecentlyVisited (visited : gmap string bool).

(** The calls made on collaborators. *)
Inductive Call :=
| NewHugoSites (ok : bool)                      (* hugolib.NewHugoSites, and whether err == nil *)
| ResetLogCounters                              (* Hugo.Log.ResetLogCounters() *)
| HugoBuild (cfg : BuildCfg) (events : list Event)   (* Hugo.Build(cfg, events...) *)
| LoadConfig                                    (* c.loadConfig(true) *)
| LogError (msg : string)                       (* jww.ERROR.Println *)
| ForceRefresh.                                 (* livereload.ForceRefresh() *)

Record Commandeer := mkCommandeer {
  buildWatch : bool;                            (* c.h.buildWatch *)
  Cfg : Config;
  languages : list string;                      (* l.Lang for each of c.languages *)
  GetLangSubDir : string -> string;
  PrependBasePath : string -> string
}.

(** What the collaborators answer, each given the calls made so far. *)
Record World := mkWorld {
  newHugoSites : list Call -> HugoSites + string;
  hugoBuild : list Call -> BuildCfg -> list Event -> error;
  PeekAllSet : list Call -> gmap string bool;   (* c.visitedURLs.PeekAllSet() *)
  loadConfig : list Call -> Commandeer -> Commandeer * error
}.

(** The package variable [Hugo], the commandeer, and the calls made. *)
Record State := mkState {
  Hugo : option HugoSites;
  c : Commandeer;
  calls : list Call
}.

Definition say (st : State) (a : Call) : State :=
  mkState (Hugo st) (c st) (calls st ++ [a]).

(** [Reset] *)
Definition Reset (st : State) : State * error :=
  (mkState None (c st) (calls st), None).

Definition initSites (w : World) (st : State) : State * error :=
  match Hugo st with
  | Some h =>
      (mkState (Some (mkHugoSites (Cfg (c st)) (HSites h))) (c st)
               (calls st ++ [ResetLogCounters]), None)
  | None =>
      match newHugoSites w (calls st) with
      | inr e => (say st (NewHugoSites false), Some e)
      | inl h => (mkState (Some h) (c st) (calls st ++ [NewHugoSites true]), None)
      end
  end.

(** [initSites] and then [Hugo.Build(cfg, events...)]. *)
Definition initAndBuild (w : World) (cfg : BuildCfg) (events : list Event)
  (st : State) : State * error :=
  let '(st1, err) := initSites w st in
  match err with
  | Some e => (st1, Some e)
  | None => (say st1 (HugoBuild cfg events), hugoBuild w (calls st1) cfg events)
  end.

Definition buildSites (w : World) (st : State) : State * error :=
  initAndBuild w Zero [] st.

Definition recreateAndBuildSites (w : World) (watching : bool) (st : State)
  : State * error :=
  initAndBuild w CreateSitesFromConfig [] st.

Definition resetAndBuildSites (w : World) (st : State) : State * error :=
  initAndBuild w ResetState [] st.

(** [!c.h.buildWatch && !c.Cfg.GetBool("disableLiveReload")] *)
Definition doLiveReload (cm : Commandeer) : bool :=
  negb (buildWatch cm) && negb (GetBool (Cfg cm) "disableLiveReload").

(** The home page of a language, as [rebuildSites] computes it. *)
Definition home (cm : Commandeer) (lang : string) : string :=
  let langPath := GetLangSubDir cm lang in
  let langPath :=
    if negb (String.eqb langPath "") then langPath +:+ "/" else langPath in
  PrependBasePath cm ("/" +:+ langPath).

(** The set handed to the build as [RecentlyVisited]. *)
Definition visitedFor (cm : Commandeer) (visited : gmap string bool)
  : gmap string bool :=
  if doLiveReload cm && negb (GetBool (Cfg cm) "disableFastRender") then
    foldl (fun v l => <[home cm l := true]> v) visited (languages cm)
  else visited.

Definition rebuildSites (w : World) (events : list Event) (st : State)
  : State * error :=
  let '(st1, err) := initSites w st in
  match err with
  | Some e => (st1, Some e)
  | None =>
      let visited := visitedFor (c st1) (PeekAllSet w (calls st1)) in
      (say st1 (HugoBuild (RecentlyVisited visited) events),
       hugoBuild w (calls st1) (RecentlyVisited visited) events)
  end.

Definition fullRebuild (w : World) (st : State) : State :=
  let '(c', err) := loadConfig w (calls st) (c st) in
  let st1 := mkState (Hugo st) c' (calls st ++ [LoadConfig]) in
  match err with
  | Some e => say st1 (LogError ("Failed to reload config: " +:+ e))
  | None =>
      let '(st2, err) := recreateAndBuildSites w true st1 in
      match err with
      | Some e => say st2 (LogError e)
      | None => if doLiveReload (c st2) then say st2 ForceRefresh else st2
      end
  end.

(** The entry points that build, as the commands and the watcher call them. *)
Inductive Op :=
| OpBuildSites
| OpRecreateAndBuildSites (watching : bool)
| OpResetAndBuildSites
| OpRebuildSites (events : list Event)
| OpFullRebuild.

Definition exec (w : World) (st : State) (op : Op) : State :=
  match op with
  | OpBuildSites => fst (buildSites w st)
  | OpRecreateAndBuildSites watching => fst (recreateAndBuildSites w watching st)
  | OpResetAndBuildSites => fst (resetAndBuildSites w st)
  | OpRebuildSites events => fst (rebuildSites w events st)
  | OpFullRebuild => fullRebuild w st
  end.

Definition run (w : World) (ops : list Op) (st : State) : State :=
  foldl (exec w) st ops.

Definition isNewHugoSites (a : Call) : bool :=
  match a with NewHugoSites _ => true | _ => false end.

(** The call needs [Hugo] to be non-nil, or records that it became so. *)
Definition needsSites (a : Call) : bool :=
  match a with
  | NewHugoSites true | ResetLogCounters | HugoBuild _ _ => true
  | _ => false
  end.

(** The calls made agree with [Hugo]: while it is nil no call has used the
    sites; once it is set, the sites were created by one successful
    [NewHugoSites], nothing used them before, and [NewHugoSites] was not
    called again. *)
Definition consistent (st : State) : Prop :=
  match Hugo st with
  | None => Forall (fun a => needsSites a = false) (calls st)
  | Some _ =>
      exists pre post,
        calls st = pre ++ NewHugoSites true :: post /\
        Forall (fun a => needsSites a = false) pre /\
        Forall (fun a => isNewHugoSites a = false) post
  end.

End Sites.

(** *** Readings of the renderer's effects *)

Module RenderRead.
Import Render.

Definition isLogError (e : Effect) : bool :=
  match e with LogError _ => true | _ => false end.

Definition isSendResult (e : Effect) : bool :=
  match e with SendResult _ => true | _ => false end.

(** A feed handed to [renderAndWriteXML]. *)
Definition isXMLWrite (e : Effect) : bool :=
  match e with RenderAndWriteXML _ _ _ _ => true | _ => false end.

(** A page handed to [renderAndWritePage], or an alias written. *)
Definition isPageWrite (e : Effect) : bool :=
  match e with
  | RenderAndWritePage _ _ _ _ | WriteDestAlias _ _ => true
  | _ => false
  end.

(** Something is rendered or written. *)
Definition isArtifact (e : Effect) : bool := isXMLWrite e || isPageWrite e.

(** The effects of the part of a round after the page output is there:
    a failure that is logged and ends the round, or the work of
    [renderRSS], or that of [renderAndWritePage] and [renderPaginator],
    each with the errors sent to the results channel. *)
Inductive RoundKind := Skipped | Feed | Document.

Definition roundShape (k : RoundKind) (d : list Effect) : Prop :=
  match k with
  | Skipped => exists what, d = [LogError what]
  | Feed => Forall (fun e => isXMLWrite e = true \/ isSendResult e = true) d
  | Document =>
      Forall (fun e => isPageWrite e = true \/ isSendResult e = true \/ e = Panic) d
  end.

End RenderRead.

(** *** The site-wide files: [renderRobotsTXT] and [renderAliases] *)

Module SiteFiles.

Definition error := option string.

(** [output.Format]: the fields [renderAliases] reads besides those of
    [Render.OutputFormat]. *)
Record Format := mkFormat { format : Render.OutputFormat; Path : string }.

Definition IsHTML (f : Format) : bool := Render.IsHTML (format f).

Record Page := mkPage {
  pageId : nat;
  Aliases : list string;
  outputFormats : list Format
}.

Inductive Effect :=
| WriteDestAlias (path permalink : string) (pid : nat)    (* s.writeDestAlias(a, plink, p) *)
| PublishDestAlias (allowRoot : bool) (path permalink : string)
| RenderForLayouts (name : string) (layouts : list string)
| Warn (msg : string)                                     (* helpers.DistinctWarnLog *)
| Publish (path content : string).                        (* s.publish *)

Record Site := mkSite {
  Pages : list Page;
  isEnabledRobotsTXT : bool;                  (* s.isEnabled(kindRobotsTXT) *)
  enableRobotsTXT : bool;                     (* s.Cfg.GetBool("enableRobotsTXT") *)
  initTargetPathDescriptor : error;           (* of the node page of the kind *)
  appendThemeTemplates : list string -> list string;
  renderForLayouts : string -> list string -> string * error;  (* what it writes, its error *)
  publish : string -> string -> error;
  Permalink : Page -> Format -> string;       (* newOutputFormat(p, f).Permalink() *)
  writeDestAlias : string -> string -> Page -> error;
  multilingualEnabled : bool;                 (* s.owner.multilingual.enabled() *)
  DefaultLang : string;                       (* s.owner.multilingual.DefaultLang.Lang *)
  defaultContentLanguageInSubdir : bool;
  AbsURL : string -> bool -> string;
  publishDestAlias : bool -> string -> string -> error
}.

Definition renderRobotsTXT (s : Site) : list Effect * error :=
  if negb (isEnabledRobotsTXT s) then ([], None)
  else if negb (enableRobotsTXT s) then ([], None)
  else
    match initTargetPathDescriptor s with
    | Some e => ([], Some e)
    | None =>
        let rLayouts :=
          ["robots.txt"; "_default/robots.txt"; "_internal/_default/robots.txt"] in
        let layouts := appendThemeTemplates s rLayouts in
        match renderForLayouts s "robots" layouts with
        | (_, Some e) => ([RenderForLayouts "robots" layouts; Warn e], None)
        | (outBuffer, None) =>
            ([RenderForLayouts "robots" layouts; Publish "robots.txt" outBuffer],
             publish s "robots.txt" outBuffer)
        end
    end.

(** The alias as written for format [f]. *)
Definition aliasFor (f : Format) (a : string) : string :=
  if negb (String.eqb (Path f) "") then GoStr.Join [a; Path f] else a.

(** [for _, a := range p.Aliases] *)
Fixpoint aliasLoop (s : Site) (p : Page) (f : Format) (plink : string)
  (aliases : list string) : list Effect * error :=
  match aliases with
  | [] => ([], None)
  | a :: rest =>
      let a := aliasFor f a in
      match writeDestAlias s a plink p with
      | Some e => ([WriteDestAlias a plink (pageId p)], Some e)
      | None =>
          let '(effs, err) := aliasLoop s p f plink rest in
          (WriteDestAlias a plink (pageId p) :: effs, err)
      end
  end.

(** [for _, f := range p.outputFormats] *)
Fixpoint formatLoop (s : Site) (p : Page) (formats : list Format)
  : list Effect * error :=
  match formats with
  | [] => ([], None)
  | f :: rest =>
      if negb (IsHTML f) then formatLoop s p rest
      else
        let plink := Permalink s p f in
        match aliasLoop s p f plink (Aliases p) with
        | (effs, Some e) => (effs, Some e)
        | (effs, None) =>
            let '(effs', err) := formatLoop s p rest in
            (effs ++ effs', err)
        end
  end.

(** [for _, p := range s.Pages] *)
Fixpoint pageLoop (s : Site) (pages : list Page) : list Effect * error :=
  match pages with
  | [] => ([], None)
  | p :: rest =>
      if (length (Aliases p) =? 0)%nat then pageLoop s rest
      else
        match formatLoop s p (outputFormats p) with
        | (effs, Some e) => (effs, Some e)
        | (effs, None) =>
            let '(effs', err) := pageLoop s rest in
            (effs ++ effs', err)
        end
  end.

Definition renderAliases (s : Site) : list Effect * error :=
  match pageLoop s (Pages s) with
  | (effs, Some e) => (effs, Some e)
  | (effs, None) =>
      if multilingualEnabled s then
        if defaultContentLanguageInSubdir s then
          let mainLangURL := AbsURL s (DefaultLang s) false in
          (effs ++ [PublishDestAlias true "/" mainLangURL],
           publishDestAlias s true "/" mainLangURL)
        else
          let mainLangURL := AbsURL s "" false in
          (effs ++ [PublishDestAlias true (DefaultLang s) mainLangURL],
           publishDestAlias s true (DefaultLang s) mainLangURL)
      else (effs, None)
  end.

(** The effect is the alias [a] of page [p] written for its format [f]. *)
Definition aliasOf (s : Site) (p : Page) (f : Format) (a : string) : Effect :=
  WriteDestAlias (aliasFor f a) (Permalink s p f) (pageId p).

End SiteFiles.

(** *** More of the page: [Type], [Layout], [ExecuteTemplate], [Convert],
    [permalink], [removeTomlIdentifier] *)

Module PageMore.
Import PageM.

(** [strings.Contains(s, sub)] *)
Fixpoint contains (sub s : string) : bool :=
  String.prefix sub s ||
  match s with
  | EmptyString => false
  | String _ s' => contains sub s'
  end.

(** The length of the run of [+] a string begins with. *)
Fixpoint plusRun (s : string) : nat :=
  match s with
  | String c s' => if Ascii.eqb c "+" then S (plusRun s') else 0
  | EmptyString => 0
  end.

(** [removeTomlIdentifier]: [bytes.Replace(datum, "+++", "", -1)] *)
Definition removeTomlIdentifier (datum : string) : string :=
  Replace datum "+++" "".

(** A path element with no slash in it. *)
Definition noSlash (e : string) : bool := negb (containsAny e ["/"%char]).

(** A directory name proper: not empty, no slash, and neither [.] nor [..]. *)
Definition dirName (e : string) : bool :=
  noSlash e && negb (String.eqb e "") && negb (String.eqb e ".") &&
  negb (String.eqb e "..").

(** The fields of [Page] and of its site read by the methods below, around
    those of [PageM.Page]. [UglyUrls] is
    [p.Site.Config != nil && p.Site.Config.UglyUrls]. *)
Record PageX := mkPageX {
  base : Page;
  contentType : string;
  layout : string;
  Markup : string;
  Content : string;
  BaseUrl : string;
  UglyUrls : bool
}.

Definition setBase (p : PageX) (b : Page) : PageX :=
  mkPageX b (contentType p) (layout p) (Markup p) (Content p) (BaseUrl p)
          (UglyUrls p).

Definition setContent (p : PageX) (v : string) : PageX :=
  mkPageX (base p) (contentType p) (layout p) (Markup p) v (BaseUrl p)
          (UglyUrls p).

(** [page.Type()]: the page after the call and the value returned. *)
Definition Type_ (p : PageX) : PageX * string :=
  if negb (String.eqb (contentType p) "") then (p, contentType p)
  else
    let p := setBase p (guessSection (base p)) in
    if negb (String.eqb (Section (base p)) "") then (p, Section (base p))
    else (p, "page").

Section Methods.

(** [strings.ToLower], over Unicode text. *)
Variable ToLower : string -> string.

(** [layouts(types, layout)] *)
Definition layouts (types layout : string) : list string :=
  let t := GoStr.splitSlash (GoStr.chars types) [] in
  map (fun i => ToLower (GoStr.Join (take (length t - i) t)) +:+ "/" +:+
                layout +:+ ".html")
      (seq 0 (length t)) ++
  [layout +:+ ".html"].

(** [page.Layout(l...)] *)
Definition Layout (p : PageX) (l : list string) : PageX * list string :=
  if negb (String.eqb (layout p) "") then
    let '(p', ty) := Type_ p in (p', layouts ty (layout p))
  else
    let layout := match l with [] => "single" | l0 :: _ => l0 end in
    let '(p', ty) := Type_ p in (p', layouts ty layout).

(** [p.Tmpl]: whether [Lookup] finds a template, and what executing it
    for a page writes to the buffer. *)
Variable Lookup : string -> bool.
Variable Execute : string -> PageX -> string.

(** The loop of [ExecuteTemplate], left at the first template found. *)
Fixpoint firstFound (l : list string) : option string :=
  match l with
  | [] => None
  | layout :: rest => if Lookup layout then Some layout else firstFound rest
  end.

(** [p.ExecuteTemplate(layout)]: the page after the call and the bytes of
    the buffer returned. *)
Definition ExecuteTemplate (p : PageX) (layout : string) : PageX * string :=
  let '(p', l) := Layout p [layout] in
  match firstFound l with
  | Some t => (p', Execute t p')
  | None => (p', "")
  end.

(** [guessType] *)
Definition guessType (in_ : string) : string :=
  let l := ToLower in_ in
  if String.eqb l "md" || String.eqb l "markdown" || String.eqb l "mdown"
  then "markdown"
  else if String.eqb l "rst" then "rst"
  else if String.eqb l "html" || String.eqb l "htm" then "html"
  else "unknown".

Definition guessMarkupType (p : PageX) : string :=
  if negb (String.eqb (Markup p) "") &&
     negb (String.eqb (guessType (Markup p)) "unknown")
  then guessType (Markup p)
  else
    let ext := ToLower (GoStr.Ext (FileName (base p))) in
    if GoStr.HasPrefix ext "."
    then guessType (String.substring 1 (GoStr.len ext - 1) ext)
    else "unknown".

(** The renderers and [RemoveSummaryDivider], declared outside the file. *)
Variable MarkdownCommon : string -> string.
Variable getRstContent : string -> string.
Variable RemoveSummaryDivider : string -> string.

Definition renderBytes (content pagefmt : string) : string :=
  if String.eqb pagefmt "markdown" then MarkdownCommon content
  else if String.eqb pagefmt "rst" then getRstContent content
  else MarkdownCommon content.

(** [page.Convert()] *)
Definition Convert (p : PageX) : PageX * error :=
  let markupType := guessMarkupType p in
  if String.eqb markupType "markdown" || String.eqb markupType "rst" then
    (setContent p
       (renderBytes (RemoveSummaryDivider (rawContent (base p)))
                    (guessMarkupType p)),
     None)
  else if String.eqb markupType "html" then
    (setContent p (rawContent (base p)), None)
  else (p, Some ("Error converting unsupported file type " +:+ markupType)).

End Methods.

Section Links.

(** [*url.URL], [url.Parse], [MakePermalink] and [fileExt], declared
    outside the file. *)
Variable URL : Type.
Variable urlParse : string -> URL * error.
Variable MakePermalink : URL -> URL -> URL.
Variable fileExt : string -> string * string.

(** The local variable [permalink] of [p.permalink()] and the error of
    the pattern expansion, before anything is parsed as a URL. *)
Definition permalinkPath (d : Deps) (p : PageX) : string * error :=
  let dir := GoStr.TrimSpace (Dir (base p)) in
  let pSlug := GoStr.TrimSpace (Slug (base p)) in
  let pUrl := GoStr.TrimSpace (Url (base p)) in
  match Permalinks (base p) !! Section (base p) with
  | Some override => Expand d override (base p)
  | None =>
      if (0 <? GoStr.len pSlug)%nat then
        if UglyUrls p
        then (GoStr.Join [dir; Slug (base p); Extension (base p)], None)
        else (GoStr.Join [dir; Slug (base p)] +:+ "/", None)
      else if (2 <? GoStr.len pUrl)%nat then (pUrl, None)
      else
        let '(_, t) := GoStr.Split (FileName (base p)) in
        if UglyUrls p then
          let x := replaceExtension d (GoStr.TrimSpace t) (Extension (base p)) in
          (GoStr.Join [dir; x], None)
        else
          let '(file, _) := fileExt (GoStr.TrimSpace t) in
          (GoStr.Join [dir; file], None)
  end.

(** [p.permalink()] *)
Definition permalink (d : Deps) (p : PageX) : option URL * error :=
  match permalinkPath d p with
  | (_, Some e) => (None, Some e)
  | (permalink, None) =>
      match urlParse (BaseUrl p) with
      | (_, Some e) => (None, Some e)
      | (base, None) =>
          match urlParse permalink with
          | (_, Some e) => (None, Some e)
          | (path, None) => (Some (MakePermalink base path), None)
          end
      end
  end.

End Links.

End PageMore.

(** *** The handler registry of [hugolib/handlers/handlers.go] *)

Module Handlers.

(** A handler, known here by the extensions it lists. *)
Record Handler := mkHandler { hName : string; Extensions : list string }.

(** [RegisterHandler(h)]: the package variable [handlers] after the call. *)
Definition RegisterHandler (h : Handler) (handlers : list Handler)
  : list Handler :=
  handlers ++ [h].

Definition Handlers (handlers : list Handler) : list Handler := handlers.

(** The loop of [h.Match(ext)]. *)
Fixpoint matchLoop (ext : string) (extensions : list string) : bool :=
  match extensions with
  | [] => false
  | x :: rest => if String.eqb ext x then true else matchLoop ext rest
  end.

Definition Match (h : Handler) (ext : string) : bool :=
  matchLoop ext (Extensions h).

(** [Handler(ext)]: nil when the loop runs out. *)
Fixpoint HandlerFor (handlers : list Handler) (ext : string) : option Handler :=
  match Handlers handlers with
  | [] => None
  | h :: rest => if Match h ext then Some h else HandlerFor rest ext
  end.

End Handlers.

(** *** The walker of [getDirList] *)

Module DirList.

Definition error := Build.error.

(** [os.FileMode]: the type bits. *)
Definition ModeDir : Z := 2 ^ 31.
Definition ModeSymlink : Z := 2 ^ 27.
Definition ModeDevice : Z := 2 ^ 26.
Definition ModeNamedPipe : Z := 2 ^ 25.
Definition ModeSocket : Z := 2 ^ 24.
Definition ModeCharDevice : Z := 2 ^ 21.
Definition ModeIrregular : Z := 2 ^ 19.

Definition ModeType : Z :=
  Z.lor ModeDir (Z.lor ModeSymlink (Z.lor ModeNamedPipe (Z.lor ModeSocket
    (Z.lor ModeDevice (Z.lor ModeCharDevice ModeIrregular))))).

(** [os.FileInfo]: the name and the mode. *)
Record FileInfo := mkInfo { Name : string; Mode : Z }.

(** [fi.IsDir()] *)
Definition IsDir (fi : FileInfo) : bool :=
  negb (Z.land (Mode fi) ModeDir =? 0)%Z.

(** [fi.Mode().IsRegular()] *)
Definition IsRegular (fi : FileInfo) : bool :=
  (Z.land (Mode fi) ModeType =? 0)%Z.

(** [fi.Mode()&os.ModeSymlink == os.ModeSymlink] *)
Definition isSymlink (fi : FileInfo) : bool :=
  (Z.land (Mode fi) ModeSymlink =? ModeSymlink)%Z.

(** The file system as the walker reads it. *)
Record Fs := mkFs {
  EvalSymlinks : string -> string * error;
  LstatIfPossible : string -> FileInfo * error
}.

(** The variables of [getDirList] the walkers close over. *)
Record State := mkState {
  a : list string;
  seen : gmap string bool;
  nested : list string
}.

(** What the walk function returns: nil or [filepath.SkipDir]. *)
Inductive Result := Nil | SkipDir.

(** The end of the walk function: [if fi.IsDir() { ... }; return nil]. *)
Definition addDir (path : string) (fi : FileInfo) (st : State)
  : State * Result :=
  if IsDir fi then
    if String.eqb (Name fi) ".git" || String.eqb (Name fi) "node_modules" ||
       String.eqb (Name fi) "bower_components"
    then (st, SkipDir)
    else (mkState (a st ++ [path]) (seen st) (nested st), Nil)
  else (st, Nil).

(** The function [newWalker(allowSymbolicDirs)] returns, what it logs
    aside; [err] is the error the walk hands it. *)
Definition walker (fs : Fs) (allowSymbolicDirs : bool) (path : string)
  (fi : FileInfo) (err : error) (st : State) : State * Result :=
  match err with
  | Some _ => (st, Nil)
  | None =>
      if String.eqb (Name fi) ".git" then (st, Nil)
      else if isSymlink fi then
        match EvalSymlinks fs path with
        | (_, Some _) => (st, Nil)
        | (link, None) =>
            match LstatIfPossible fs link with
            | (_, Some _) => (st, Nil)
            | (linkfi, None) =>
                if negb allowSymbolicDirs && negb (IsRegular linkfi)
                then (st, Nil)
                else if allowSymbolicDirs && IsDir linkfi then
                  if negb (default false (seen st !! path))
                  then (mkState (a st) (<[path := true]> (seen st))
                                (nested st ++ [path]), Nil)
                  else (st, Nil)
                else addDir path linkfi st
            end
        end
      else addDir path fi st
  end.

(** What happens to the variables, one step at a time: a call of one of
    the two walk functions with its arguments, or the [nested = nested[:0]]
    that opens a round of nested walks. *)
Inductive Step :=
| Call (allowSymbolicDirs : bool) (path : string) (fi : FileInfo) (err : error)
| Truncate.

(** The variables after a step, and beside them every path put on the
    queue so far. *)
Definition step (fs : Fs) (acc : State * list string) (s : Step)
  : State * list string :=
  let '(st, queued) := acc in
  match s with
  | Call allow path fi err =>
      let st' := fst (walker fs allow path fi err st) in
      (st', queued ++ drop (length (nested st)) (nested st'))
  | Truncate => (mkState (a st) (seen st) [], queued)
  end.

Definition steps (fs : Fs) (l : list Step) (acc : State * list string)
  : State * list string :=
  foldl (step fs) acc l.

(** Every path queued so far is marked as seen, and the queue holds
    nothing else. *)
Definition queuedSeen (acc : State * list string) : Prop :=
  (forall path, In path (snd acc) -> seen (fst acc) !! path = Some true) /\
  (forall path, In path (nested (fst acc)) -> In path (snd acc)).

End DirList.

(** *** Sample sites, used to run the definitions *)

Module Samples.
Import Fsnotify.

(** A server with live reload, one config file, no symbolic links, and
    [static/] as the static directory. *)
Definition serverEnv : Watcher.Env :=
  Watcher.mkEnv false false false false ["config.toml"]
    (fun _ => [])
    (fun path => GoStr.HasPrefix path "static/")
    (fun path => String.substring 7 (GoStr.len path - 7) path)
    (fun _ => false)
    (fun _ => [])
    (fun _ => true)
    true
    (fun _ => true)
    (fun _ => None).

(** A burst of [n] create events, one per new content file. *)
Definition burst (n : nat) : list Event :=
  map (fun i => mkEvent ("content/post/p" +:+ pretty i +:+ ".md") Create) (seq 0 n).

(** Three content changes and then a change of the config file. *)
Definition contentThenConfig : list Event :=
  [mkEvent "content/post/a.md" Write;
   mkEvent "content/post/b.md" Write;
   mkEvent "content/post/c.md" Create;
   mkEvent "config.toml" Write].

(** The same four events, the config file first. *)
Definition configThenContent : list Event :=
  [mkEvent "config.toml" Write;
   mkEvent "content/post/a.md" Write;
   mkEvent "content/post/b.md" Write;
   mkEvent "content/post/c.md" Create].

(** An editor's swap file: noise. *)
Definition swapOnly : list Event := [mkEvent "content/post/.a.md.swp" Write].

(** A build with destination cleaning, and the same build without. *)
Definition cleanBuild : Build.Env :=
  Build.mkEnv true false (<["en" := 12%Z]> ∅, None) None (0%Z, None) ["en"].

Definition plainBuild : Build.Env :=
  Build.mkEnv false false (<["en" := 12%Z]> ∅, None) (Some "no layout")
              (0%Z, None) ["en"].

Definition twoStatic : list Event :=
  [mkEvent "static/css/main.css" Write; mkEvent "static/js/app.js" Create].

Definition html : Render.OutputFormat := Render.mkFormat "HTML" true.
Definition rss : Render.OutputFormat := Render.mkFormat "RSS" false.

Definition post (n : Z) : Render.SubPage :=
  Render.mkSubPage ("post " +:+ pretty n) (1000 + n) (2000 + n).

(** A section list of five posts, two to a page. *)
Definition pager1 : Render.Pager :=
  Render.mkPager 1
    (Render.mkPaginator [[post 1; post 2]; [post 3; post 4]; [post 5]]).

Definition blogList : Render.PageOutput :=
  Render.mkPageOutput 7 html "section" "Blog" 1005 2005
    [post 1; post 2; post 3; post 4; post 5] ∅ (Some pager1) true.

Definition blogFeed : Render.PageOutput :=
  Render.mkPageOutput 7 rss "section" "Blog" 1005 2005
    [post 1; post 2; post 3; post 4; post 5] ∅ None true.

(** A site where every collaborator succeeds; the feed holds 3 entries. *)
Definition site : Render.Site :=
  Render.mkSite true false 3 "page" "RSS" "taxonomy"
    (fun pid createCopy f =>
       (Some (if String.eqb (Render.Name f) "RSS" then blogFeed else blogList), None))
    (fun _ => (["section/list.html"], None))
    (fun _ => (["section/list.html"], None))
    (fun _ => (["_default/rss.xml"], None))
    (fun p addends => ("blog" +:+ GoStr.joinWith "" addends +:+ "/index.html", None))
    (fun p f addends => ("blog" +:+ GoStr.joinWith "" addends +:+ "/index.html", None))
    (fun _ => "http://example.org/blog/")
    (fun _ => "blog/_index.md")
    (fun p => p)
    (fun _ _ => None)
    (fun _ _ _ _ => None)
    (fun _ _ _ _ => None).

(** The same site with RSS switched off in the configuration. *)
Definition siteNoRSS : Render.Site :=
  Render.mkSite true true 3 "page" "RSS" "taxonomy"
    (Render.newPageOutput site) (Render.layouts site) (Render.pLayouts site)
    (Render.layoutHandlerFor site) (Render.targetPath site)
    (Render.createTargetPath site) (Render.Permalink site)
    (Render.FullFilePath site) (Render.copyPageOutput site)
    (Render.writeDestAlias site) (Render.renderAndWritePage site)
    (Render.renderAndWriteXML site).

(** One page with two output formats, not yet rendered. *)
Definition store : Render.State :=
  Render.mkState (<[7 := Render.mkPage [html; rss] "" false None]> ∅) [] false.

(** Words are runs of bytes other than the space. *)
Fixpoint countWords (s : string) (inWord : bool) : nat :=
  match s with
  | EmptyString => 0
  | String c s' =>
      if Ascii.eqb c " " then countWords s' false
      else if inWord then countWords s' true
      else S (countWords s' true)
  end.

Definition deps : PageM.Deps :=
  PageM.mkDeps (fun pattern _ => (pattern, None))
               (fun path ext => path +:+ "." +:+ ext)
               (fun s => s)
               (fun s => countWords s false)
               (fun buf p => (PageM.mkPage buf "" (PageM.FileName p)
                                (PageM.Extension p) (PageM.Dir p)
                                (PageM.Section p) (PageM.Slug p) (PageM.Url p)
                                0 0 0 (PageM.Permalinks p), None)).

(** A page whose front matter sets [url: /about/]. *)
Definition aboutPage : PageM.Page :=
  PageM.mkPage "" "" "content/about.md" "html" "" "" "" "/about/"
               0 0 0 ∅.

(** A page of thirty words. *)
Definition thirtyWords : PageM.Page :=
  PageM.mkPage "a b c d e f g h i j k l m n o p q r s t u v w x y z aa bb cc dd"
               "" "content/post/words.md" "html" "post" "post" "" ""
               0 0 0 ∅.

(** A page whose front matter sets [url: /a] and [slug: s]. *)
Definition shortUrlPage : PageM.Page :=
  PageM.mkPage "" "" "content/post/first.md" "html" "post" "post" "s" "/a"
               0 0 0 ∅.

(** U+00A0, the no-break space, and U+3000, the ideographic space, in
    UTF-8. *)
Definition nbsp : string :=
  String (ascii_of_nat 194) (String (ascii_of_nat 160) "").

Definition ideographicSpace : string :=
  String (ascii_of_nat 227) (String (ascii_of_nat 128) (String (ascii_of_nat 128) "")).

(** The page of [shortUrlPage] with white space around its URL and its
    slug: the URL is seven bytes long and two when trimmed. *)
Definition paddedShortUrlPage : PageM.Page :=
  PageM.mkPage "" "" "content/post/first.md" "html" "post" "post"
               (ideographicSpace +:+ "s ")
               (nbsp +:+ "/a" +:+ ideographicSpace)
               0 0 0 ∅.

(** The page of [aboutPage] with white space around its URL. *)
Definition paddedAboutPage : PageM.Page :=
  PageM.mkPage "" "" "content/about.md" "html" "" "" ""
               (" /about/" +:+ nbsp)
               0 0 0 ∅.

End Samples.

(** *** More sample data *)

Module MoreSamples.
Import Fsnotify.

(** The server of [Samples.serverEnv] started with [--watch] only: no
    live reload; [content/new] is a directory that holds one page and one
    sub-directory. *)
Definition watchEnv : Watcher.Env :=
  Watcher.mkEnv true false false true ["config.toml"]
    (fun _ => [])
    (fun path => GoStr.HasPrefix path "static/")
    (fun path => String.substring 7 (GoStr.len path - 7) path)
    (fun path => String.eqb path "content/new")
    (fun _ => [("content/new", true); ("content/new/a.md", false);
               ("content/new/img", true)])
    (fun _ => true)
    true
    (fun _ => true)
    (fun _ => Some ("/new/a/", 1313%Z)).

(** A server whose static syncer fails. *)
Definition brokenSyncEnv : Watcher.Env :=
  Watcher.mkEnv false false false false ["config.toml"]
    (fun _ => [])
    (fun path => GoStr.HasPrefix path "static/")
    (fun path => String.substring 7 (GoStr.len path - 7) path)
    (fun _ => false)
    (fun _ => [])
    (fun _ => true)
    true
    (fun _ => false)
    (fun _ => None).

(** A build of two sites with garbage collection, whose collector reports
    a count of -1 and no error. *)
Definition gcBuild : Build.Env :=
  Build.mkEnv false true (<["en" := 12%Z]> ∅, None) None ((-1)%Z, None)
              ["en"; "fr"].

(** Metadata changes only, one of them on the config file. *)
Definition chmods : list Event :=
  [mkEvent "content/post/a.md" Chmod; mkEvent "config.toml" Chmod;
   mkEvent "static/css/main.css" (Z.lor Chmod Remove)].

(** Editor and desktop droppings, and the empty name of [rm -rf]. *)
Definition droppings : list Event :=
  [mkEvent "content/post/foo.txt~" Write; mkEvent "content/post/.#lock" Create;
   mkEvent "content/post/4913" Create; mkEvent "content/bar.tmp" Write;
   mkEvent "" Remove; mkEvent "content/post/a.md" Chmod].

(** A static file and a content file changed in the same batch. *)
Definition staticAndContent : list Event :=
  [mkEvent "static/css/main.css" Write; mkEvent "content/post/a.md" Write].

(** A new directory and a page. *)
Definition newDir : list Event :=
  [mkEvent "content/new" Create; mkEvent "content/post/a.md" Write].

(** A static directory of a sample site: its language, if it has one of
    its own, and what copying it gives. *)
Record StaticDir := mkStaticDir {
  dirLang : option string;
  dirCount : Z;
  dirErr : Build.error
}.

Definition copyOf (d : StaticDir) (_ : string) : Z * Build.error :=
  (dirCount d, dirErr d).

(** A multihost site in three languages; the copy of the second fails. *)
Definition enDir : StaticDir := mkStaticDir (Some "en") 12 None.
Definition frDir : StaticDir := mkStaticDir (Some "fr") 0 (Some "disk full").
Definition nnDir : StaticDir := mkStaticDir (Some "nn") 7 None.

(** The static directory of a site that is not multihost. *)
Definition oneDir : StaticDir := mkStaticDir None 12 None.

Definition config (liveReloadOff fastRenderOff : bool) : Sites.Config :=
  Sites.mkConfig (fun key =>
    if String.eqb key "disableLiveReload" then liveReloadOff
    else if String.eqb key "disableFastRender" then fastRenderOff
    else false).

(** A server in two languages, English at the root and French under
    [/fr], served below [/docs]. *)
Definition commandeer : Sites.Commandeer :=
  Sites.mkCommandeer false (config false false) ["en"; "fr"]
    (fun lang => if String.eqb lang "en" then "" else lang)
    (fun p => "/docs" +:+ p).

(** Creating the sites fails until it has been tried once; builds
    succeed; one page has been visited. *)
Definition world : Sites.World :=
  Sites.mkWorld
    (fun calls => match calls with
                  | [] => inr "no config"
                  | _ => inl (Sites.mkHugoSites (config false false) ["en"; "fr"])
                  end)
    (fun _ _ _ => None)
    (fun _ => <["/docs/post/a/" := true]> ∅)
    (fun _ cm => (cm, None)).

(** [Samples.site] with no layout to be found for any page. *)
Definition siteNoLayout : Render.Site :=
  Render.mkSite true false 3 "page" "RSS" "taxonomy"
    (Render.newPageOutput Samples.site)
    (fun _ => ([], Some "no layout"))
    (Render.pLayouts Samples.site)
    (Render.layoutHandlerFor Samples.site) (Render.targetPath Samples.site)
    (Render.createTargetPath Samples.site) (Render.Permalink Samples.site)
    (Render.FullFilePath Samples.site) (Render.copyPageOutput Samples.site)
    (Render.writeDestAlias Samples.site) (Render.renderAndWritePage Samples.site)
    (Render.renderAndWriteXML Samples.site).

(** [Samples.site] with [rssLimit] set to -1. *)
Definition siteNoLimit : Render.Site :=
  Render.mkSite true false (-1) "page" "RSS" "taxonomy"
    (Render.newPageOutput Samples.site) (Render.layouts Samples.site)
    (Render.pLayouts Samples.site)
    (Render.layoutHandlerFor Samples.site) (Render.targetPath Samples.site)
    (Render.createTargetPath Samples.site) (Render.Permalink Samples.site)
    (Render.FullFilePath Samples.site) (Render.copyPageOutput Samples.site)
    (Render.writeDestAlias Samples.site) (Render.renderAndWritePage Samples.site)
    (Render.renderAndWriteXML Samples.site).

Definition htmlFormat : SiteFiles.Format := SiteFiles.mkFormat Samples.html "".
Definition ampFormat : SiteFiles.Format :=
  SiteFiles.mkFormat (Render.mkFormat "AMP" true) "amp".
Definition jsonFormat : SiteFiles.Format :=
  SiteFiles.mkFormat (Render.mkFormat "JSON" false) "".

(** A page that moved twice, rendered as HTML, AMP and JSON. *)
Definition movedPage : SiteFiles.Page :=
  SiteFiles.mkPage 3 ["/old/"; "/older/"] [htmlFormat; jsonFormat; ampFormat].

Definition plainPage : SiteFiles.Page := SiteFiles.mkPage 4 [] [htmlFormat].

(** A site in two languages whose robots template does not render. *)
Definition filesSite : SiteFiles.Site :=
  SiteFiles.mkSite [plainPage; movedPage] true true None
    (fun ls => ls)
    (fun _ _ => ("", Some "template: robots.txt: unexpected EOF"))
    (fun _ _ => None)
    (fun p f => "http://example.org/new/" +:+ SiteFiles.Path f)
    (fun _ _ _ => None)
    true "en" false
    (fun lang _ => "http://example.org/" +:+ lang)
    (fun _ _ _ => None).

(** A page two directories below [content], its section not yet set. *)
Definition archivePage : PageM.Page :=
  PageM.mkPage "" "" "content/post/2013/a.md" "html" "post/2013" "" "" ""
               0 0 0 ∅.

(** A page with [slug: first] and [url: /hello/] in its front matter. *)
Definition slugAndUrl : PageMore.PageX :=
  PageMore.mkPageX
    (PageM.mkPage "" "" "content/post/a.md" "html" "post" "post" "first"
                  "/hello/" 0 0 0 ∅)
    "" "" "" "" "http://example.org/" false.

(** The same page with a no-break space before the slug and an
    ideographic space after the URL. *)
Definition paddedSlugAndUrl : PageMore.PageX :=
  PageMore.mkPageX
    (PageM.mkPage "" "" "content/post/a.md" "html" "post" "post"
                  (Samples.nbsp +:+ "first")
                  ("/hello/" +:+ Samples.ideographicSpace) 0 0 0 ∅)
    "" "" "" "" "http://example.org/" false.

(** A page of a section whose permalink pattern does not expand. *)
Definition brokenPattern : PageMore.PageX :=
  PageMore.mkPageX
    (PageM.mkPage "" "" "content/post/a.md" "html" "post" "post" "" ""
                  0 0 0 (<["post" := "/:nope/"]> ∅))
    "" "" "" "" "http://example.org/" false.

Definition brokenDeps : PageM.Deps :=
  PageM.mkDeps (fun pattern _ => ("", Some "permalink ill-formed"))
               (PageM.replaceExtension Samples.deps)
               (PageM.StripShortcodes Samples.deps)
               (PageM.TotalWords Samples.deps)
               (PageM.parse Samples.deps).

(** A text file with no markup set. *)
Definition textPage : PageMore.PageX :=
  PageMore.mkPageX
    (PageM.mkPage "plain text" "" "content/notes.txt" "html" "" "" "" ""
                  0 0 0 ∅)
    "" "" "" "" "http://example.org/" false.

(** A page in section [post] that asks for the layout [summary]. *)
Definition postPage : PageMore.PageX :=
  PageMore.mkPageX
    (PageM.mkPage "" "" "content/post/a.md" "html" "post" "post" "" ""
                  0 0 0 ∅)
    "" "" "" "" "http://example.org/" false.

(** Lower case for the letters of ASCII, enough for the sample names. *)
Definition lowerAscii (s : string) : string :=
  GoStr.str (map (fun c =>
    let n := nat_of_ascii c in
    if ((65 <=? n) && (n <=? 90))%nat then ascii_of_nat (n + 32) else c)
    (GoStr.chars s)).

Definition markdownHandler : Handlers.Handler :=
  Handlers.mkHandler "markdown" ["md"; "markdown"; "mdown"].

Definition htmlHandler : Handlers.Handler :=
  Handlers.mkHandler "html" ["html"; "htm"].

(** A handler registered late that also lists [md]. *)
Definition asciidocHandler : Handlers.Handler :=
  Handlers.mkHandler "asciidoc" ["ad"; "md"].

End MoreSamples.

(** ** Part II: properties *)

Example ext_swp : GoStr.Ext "content/post/.a.md.swp" = ".swp".
Proof. reflexivity. Qed.

Example base_dir : GoStr.Base "content/post/" = "post".
Proof. reflexivity. Qed.

Example split_file : GoStr.Split "content/post/a.md" = ("content/post/", "a.md").
Proof. reflexivity. Qed.

Example join_clean : GoStr.Join ["post"; ""; "../x//y/./z.html"] = "x/y/z.html".
Proof. reflexivity. Qed.

Example clean_root : GoStr.Clean "/../a/b/../c/" = "/a/c".
Proof. reflexivity. Qed.

Example clean_dotdot : GoStr.Clean "../../a/.." = "../..".
Proof. reflexivity. Qed.

Example trim_ws : GoStr.TrimSpace "  /a b/ " = "/a b/".
Proof. reflexivity. Qed.

Example suffix_tilde : GoStr.HasSuffix ".md~" "~" = true.
Proof. reflexivity. Qed.

(** *** [pickOneWriteOrCreatePath] *)

Section PickFacts.
Import Fsnotify Pick.

Local Abbreviation q := isWriteOrCreate.
Local Abbreviation len := GoStr.len.

(** The loop invariant: the name held at the end is either the one the
    loop started with, no qualifying event being longer, or the name of the
    first qualifying event among the longest, which is longer than the
    starting name. *)
Lemma pickLoop_inv (events : list Event) : forall name : string,
  (pickLoop events name = name /\
   forall j ev', events !! j = Some ev' -> q ev' = true ->
                 len (Name ev') <= len name)
  \/
  (exists i ev,
     events !! i = Some ev /\ q ev = true /\
     pickLoop events name = Name ev /\
     len name < len (Name ev) /\
     (forall j ev', events !! j = Some ev' -> q ev' = true ->
                    len (Name ev') <= len (Name ev)) /\
     (forall j ev', j < i -> events !! j = Some ev' -> q ev' = true ->
                    len (Name ev') < len (Name ev))).
Proof.
  induction events as [|ev rest IH]; intros name; simpl.
  - left. split; [reflexivity|]. intros j ev' H. discriminate H.
  - destruct (q ev) eqn:Hq; simpl.
    + destruct (len name <? len (Name ev))%nat eqn:Hlt.
      * apply Nat.ltb_lt in Hlt.
        destruct (IH (Name ev)) as [[Hr Hall] | (i & ev2 & Hi & Hq2 & Hr & Hgt & Hall & Hbefore)].
        -- right. exists 0, ev. repeat split; auto.
           ++ intros [|j] ev' Hj Hq'; simpl in Hj.
              ** injection Hj as <-. lia.
              ** eapply Hall; eauto.
           ++ intros j ev' Hj. lia.
        -- right. exists (S i), ev2. repeat split; auto.
           ++ lia.
           ++ intros [|j] ev' Hj Hq'; simpl in Hj.
              ** injection Hj as <-. lia.
              ** eapply Hall; eauto.
           ++ intros [|j] ev' Hlt' Hj Hq'; simpl in Hj.
              ** injection Hj as <-. lia.
              ** eapply Hbefore; eauto. lia.
      * apply Nat.ltb_ge in Hlt.
        destruct (IH name) as [[Hr Hall] | (i & ev2 & Hi & Hq2 & Hr & Hgt & Hall & Hbefore)].
        -- left. split; auto.
           intros [|j] ev' Hj Hq'; simpl in Hj.
           ++ injection Hj as <-. lia.
           ++ eapply Hall; eauto.
        -- right. exists (S i), ev2. repeat split; auto.
           ++ intros [|j] ev' Hj Hq'; simpl in Hj.
              ** injection Hj as <-. lia.
              ** eapply Hall; eauto.
           ++ intros [|j] ev' Hlt' Hj Hq'; simpl in Hj.
              ** injection Hj as <-. lia.
              ** eapply Hbefore; eauto. lia.
    + destruct (IH name) as [[Hr Hall] | (i & ev2 & Hi & Hq2 & Hr & Hgt & Hall & Hbefore)].
      * left. split; auto.
        intros [|j] ev' Hj Hq'; simpl in Hj.
        -- injection Hj as <-. congruence.
        -- eapply Hall; eauto.
      * right. exists (S i), ev2. repeat split; auto.
        -- intros [|j] ev' Hj Hq'; simpl in Hj.
           ++ injection Hj as <-. congruence.
           ++ eapply Hall; eauto.
        -- intros [|j] ev' Hlt' Hj Hq'; simpl in Hj.
           ++ injection Hj as <-. congruence.
           ++ eapply Hbefore; eauto. lia.
Qed.

(** The first qualifying event of a list that has one. *)
Lemma first_qualifying (events : list Event) :
  existsb q events = true ->
  exists i ev, events !! i = Some ev /\ q ev = true /\
    forall j ev', j < i -> events !! j = Some ev' -> q ev' = false.
Proof.
  induction events as [|ev rest IH]; simpl; [discriminate|].
  destruct (q ev) eqn:Hq; simpl.
  - intros _. exists 0, ev. repeat split; auto. intros j ev' Hj. lia.
  - intros H. destruct (IH H) as (i & ev2 & Hi & Hq2 & Hbefore).
    exists (S i), ev2. repeat split; auto.
    intros [|j] ev' Hlt Hj; simpl in Hj.
    + injection Hj as <-. exact Hq.
    + eapply Hbefore; eauto. lia.
Qed.

Lemma no_qualifying (events : list Event) :
  existsb q events = false ->
  forall j ev', events !! j = Some ev' -> q ev' = false.
Proof.
  induction events as [|ev rest IH]; simpl; intros H j ev' Hj.
  - discriminate Hj.
  - apply orb_false_iff in H as [H1 H2]. destruct j; simpl in Hj.
    + injection Hj as <-. exact H1.
    + eapply IH; eauto.
Qed.

Lemma len_zero (s : string) : len s = 0 -> s = "".
Proof. destruct s; simpl; [reflexivity | discriminate]. Qed.

(** C9. [pickOneWriteOrCreatePath] returns the empty string when no event
    has the Write or the Create bit; otherwise it returns the name of a
    qualifying event of maximal name length, the earliest one in list order
    among those of that length. *)
Theorem pickOneWriteOrCreatePath_longest_earliest (events : list Event) :
  if existsb isWriteOrCreate events then
    exists i ev,
      events !! i = Some ev /\ isWriteOrCreate ev = true /\
      pickOneWriteOrCreatePath events = Name ev /\
      (forall j ev', events !! j = Some ev' -> isWriteOrCreate ev' = true ->
                     len (Name ev') <= len (Name ev)) /\
      (forall j ev', j < i -> events !! j = Some ev' ->
                     isWriteOrCreate ev' = true ->
                     len (Name ev') < len (Name ev))
  else pickOneWriteOrCreatePath events = "".
Proof.
  unfold pickOneWriteOrCreatePath.
  destruct (existsb q events) eqn:Hex.
  - destruct (pickLoop_inv events "")
      as [[Hr Hall] | (i & ev & Hi & Hq & Hr & _ & Hall & Hbefore)].
    + destruct (first_qualifying events Hex) as (i & ev & Hi & Hq & Hfirst).
      assert (Hname : Name ev = "").
      { apply len_zero. specialize (Hall i ev Hi Hq). simpl in Hall. lia. }
      exists i, ev. rewrite Hr, Hname.
      split; [exact Hi|]. split; [exact Hq|]. split; [reflexivity|]. split.
      * intros j ev' Hj Hq'. specialize (Hall j ev' Hj Hq'). simpl in *. lia.
      * intros j ev' Hlt Hj Hq'. rewrite (Hfirst j ev' Hlt Hj) in Hq'.
        discriminate.
    + exists i, ev. repeat split; auto.
  - destruct (pickLoop_inv events "")
      as [[Hr _] | (i & ev & Hi & Hq & _)]; [exact Hr|].
    rewrite (no_qualifying events Hex i ev Hi) in Hq. discriminate.
Qed.

End PickFacts.

(** *** [analyzePage] and [ReadFrom] *)

Section PageCounts.
Import PageM.
Local Open Scope Z_scope.

Variable d : Deps.

Lemma wrapInt_small (z : Z) : - 2 ^ 63 <= z <= maxInt -> wrapInt z = z.
Proof.
  unfold wrapInt, maxInt. intros H.
  rewrite Z.mod_small by lia. lia.
Qed.

(** The two counters as functions of a word count that leaves room for
    the additions. *)
Lemma fuzzy_value (wc : Z) :
  0 <= wc <= maxInt - 212 ->
  mulInt (divInt (addInt wc 100) 100) 100 = wc / 100 * 100 + 100.
Proof.
  unfold maxInt. intros H. unfold mulInt, divInt, addInt.
  assert (Hq : (wc + 100) ÷ 100 = wc / 100 + 1).
  { rewrite Z.quot_div_nonneg by lia.
    replace (wc + 100) with (wc + 1 * 100) by lia.
    rewrite Z.div_add by lia. reflexivity. }
  assert (Hd : 0 <= wc / 100 <= wc).
  { split; [apply Z.div_pos; lia|]. apply Z.div_le_upper_bound; lia. }
  assert (Hm : wc / 100 * 100 <= wc).
  { pose proof (Z.mul_div_le wc 100). lia. }
  rewrite (wrapInt_small (wc + 100)) by (unfold maxInt; lia).
  rewrite Hq.
  rewrite (wrapInt_small (wc / 100 + 1)) by (unfold maxInt; lia).
  rewrite wrapInt_small by (unfold maxInt; lia). lia.
Qed.

Lemma reading_value (wc : Z) :
  0 <= wc <= maxInt - 212 ->
  divInt (addInt wc 212) 213 = (wc + 212) / 213.
Proof.
  unfold maxInt. intros H. unfold divInt, addInt.
  rewrite (wrapInt_small (wc + 212)) by (unfold maxInt; lia).
  rewrite Z.quot_div_nonneg by lia.
  assert (0 <= (wc + 212) / 213 <= wc + 212).
  { split; [apply Z.div_pos; lia|]. apply Z.div_le_upper_bound; lia. }
  apply wrapInt_small. unfold maxInt. lia.
Qed.

(** What [analyzePage] leaves in the three counters. *)
Lemma analyzePage_meta (p : Page) :
  let wc := Z.of_nat (TotalWords d (snd (Plain d p))) in
  WordCount (analyzePage d p) = wc /\
  FuzzyWordCount (analyzePage d p) = mulInt (divInt (addInt wc 100) 100) 100 /\
  ReadingTime (analyzePage d p) = divInt (addInt wc 212) 213.
Proof.
  unfold analyzePage. destruct (Plain d p) as [p' text]. simpl. auto.
Qed.

Lemma analyzePage_analyzed (p : Page) :
  WordCount (analyzePage d p) <= maxInt - 212 ->
  analyzed (analyzePage d p).
Proof.
  destruct (analyzePage_meta p) as (Hwc & Hf & Hr).
  set (wc := Z.of_nat (TotalWords d (snd (Plain d p)))) in *.
  intros Hb. rewrite Hwc in Hb.
  assert (H0 : 0 <= wc) by (unfold wc; lia).
  unfold analyzed. rewrite Hwc, Hf, Hr.
  rewrite fuzzy_value, reading_value by lia.
  pose proof (Z.mul_div_le wc 100 ltac:(lia)) as Hle.
  pose proof (Z.mul_succ_div_gt wc 100 ltac:(lia)) as Hgt.
  pose proof (Z.div_pos wc 100 H0 ltac:(lia)) as Hpos.
  pose proof (Z.mul_div_le (wc + 212) 213 ltac:(lia)) as Hle2.
  pose proof (Z.mul_succ_div_gt (wc + 212) 213 ltac:(lia)) as Hgt2.
  repeat split; try lia.
  - replace (wc / 100 * 100 + 100) with ((wc / 100 + 1) * 100) by lia.
    apply Z.mod_mul. lia.
Qed.

(** C10. After [analyzePage], and so for every page [ReadFrom] returns,
    [FuzzyWordCount] is [(WordCount/100)*100 + 100], a positive multiple of
    100 above [WordCount] by at most 100, and [ReadingTime] is [WordCount]
    over 213 rounded up, 0 for an empty page. The word count is one that a
    64-bit [int] can add 212 to. *)
Theorem analyzePage_fuzzy_and_reading_time :
  (forall p : Page,
     WordCount (analyzePage d p) <= maxInt - 212 ->
     analyzed (analyzePage d p)) /\
  (forall (permalinks : gmap string string) (buf name : string) (p : Page),
     ReadFrom d permalinks buf name = (Some p, None) ->
     WordCount p <= maxInt - 212 ->
     analyzed p).
Proof.
  split; [exact analyzePage_analyzed|].
  intros permalinks buf name p. unfold ReadFrom.
  destruct (GoStr.len name =? 0)%nat; [discriminate|].
  destruct (parse d buf (newPage name permalinks)) as [p' [e|]]; [discriminate|].
  intros H. injection H as <-. apply analyzePage_analyzed.
Qed.

End PageCounts.

(** *** The watcher's event loop *)

Section WatcherFacts.
Import Fsnotify Watcher.

Variable env : Env.

(** C3. A batch of more than 50 raw events only triggers the debouncer
    with the full rebuild, once: nothing of the batch is rewritten,
    classified, synced or rebuilt, and when the idle window elapses one
    full rebuild runs. *)
Theorem storm_batch_one_debounced_rebuild (evs : list Event) :
  50 < length evs ->
  handleEvents env evs = [DebounceFullRebuild] /\
  elapse (debounced (handleEvents env evs) None) = ([FullRebuild], None).
Proof.
  intros H. unfold handleEvents.
  destruct (50 <? length evs)%nat eqn:Hlt.
  - split; reflexivity.
  - apply Nat.ltb_ge in Hlt. lia.
Qed.

(** The static phase never asks for a force refresh: the branch that
    would is under the test it negates. *)
Lemma staticPhase_no_force_refresh (staticEvents : list Event) :
  count isForceRefresh (fst (staticPhase env staticEvents)) = 0.
Proof.
  unfold staticPhase.
  destruct staticEvents as [|ev rest]; [reflexivity|].
  cbn [length Nat.ltb Nat.leb].
  assert (Hmap : forall l : list Event,
    count isForceRefresh
      (map (fun ev => RefreshPath (MakeStaticPathRelative env (Name ev))) l) = 0).
  { induction l as [|x l IH]; [reflexivity|]. exact IH. }
  destruct (forceSyncStatic env).
  - destruct (copyStaticOk env); [|reflexivity].
    destruct (liveReload env); [|reflexivity].
    exact (Hmap (ev :: rest)).
  - destruct (syncsStaticEventsOk env (ev :: rest)); [|reflexivity].
    destruct (liveReload env); [|reflexivity].
    exact (Hmap (ev :: rest)).
Qed.

(** C6, as the code has it. When the static events of a batch are not
    empty, their sync succeeds and live reload is on, the static phase
    syncs and then refreshes one path per static event, in order. When
    there are no static events it does nothing, and in no case does it ask
    for a force refresh. *)
Theorem static_events_refresh_each_path (evs : list Event) :
  let staticEvents := snd (fst (classified env evs)) in
  (staticEvents <> [] -> syncOk env staticEvents = true ->
   liveReload env = true ->
   fst (staticPhase env staticEvents) =
     syncAction env staticEvents ::
     map (fun ev => RefreshPath (MakeStaticPathRelative env (Name ev)))
         staticEvents) /\
  (staticEvents = [] -> staticPhase env staticEvents = ([], Proceed)) /\
  count isForceRefresh (fst (staticPhase env staticEvents)) = 0.
Proof.
  intros staticEvents. split; [|split].
  - intros Hne Hok Hlive. unfold staticPhase, syncOk, syncAction in *.
    destruct staticEvents as [|ev rest]; [congruence|].
    cbn [length Nat.ltb Nat.leb].
    destruct (forceSyncStatic env).
    + rewrite Hok, Hlive. reflexivity.
    + rewrite Hok, Hlive. reflexivity.
  - intros ->. reflexivity.
  - apply staticPhase_no_force_refresh.
Qed.

(** The first loop over events none of which is a config change: it
    runs to the end, and what follows is filtered after it. *)
Lemma filterLoop_app (cs : gmap string bool) (pre rest : list Event) :
  Forall (fun ev => inConfigSet cs (Name ev) && negb (has Chmod ev) = false) pre ->
  forall filtered,
    fst (filterLoop env cs pre filtered) = false /\
    filterLoop env cs (pre ++ rest) filtered =
    filterLoop env cs rest (snd (filterLoop env cs pre filtered)).
Proof.
  induction 1 as [|ev pre Hev Hpre IH]; intros filtered; [split; reflexivity|].
  simpl. destruct (inConfigSet cs (Name ev)) eqn:Hin.
  - destruct (has Chmod ev); [apply IH | discriminate Hev].
  - destruct (0 <? length (GetSymbolicLinkMappings env (Name ev)))%nat;
      [apply IH|].
    destruct (GoStr.Split (Name ev)) as [dir name].
    destruct (length (GetSymbolicLinkMappings env dir) =? 0)%nat; apply IH.
Qed.

(** What the loop does with a batch that holds a config change: one full
    rebuild, then the handling of the events that came before the first
    config change, as if they were the whole batch; the events after it
    are dropped. *)
Lemma config_change_cuts_batch (pre post : list Event) (ev : Event) :
  length (pre ++ ev :: post) <= 50 ->
  Forall (fun ev => isConfigChange env ev = false) pre ->
  isConfigChange env ev = true ->
  handleEvents env (pre ++ ev :: post) = FullRebuild :: handleEvents env pre.
Proof.
  intros Hlen Hpre Hev. unfold handleEvents.
  rewrite length_app in Hlen. simpl in Hlen.
  destruct (Nat.ltb_spec 50 (length (pre ++ ev :: post))) as [H|_];
    [rewrite length_app in H; simpl in H; lia|].
  destruct (Nat.ltb_spec 50 (length pre)) as [H|_]; [lia|].
  unfold isConfigChange in *.
  destruct (filterLoop_app (mkConfigSet (configFiles env)) pre (ev :: post) Hpre [])
    as [Hfst Happ].
  rewrite Happ.
  destruct (filterLoop env (mkConfigSet (configFiles env)) pre []) as [b filtered].
  simpl in Hfst. subst b. simpl.
  apply andb_true_iff in Hev as [Hin Hch]. rewrite Hin.
  destruct (has Chmod ev); [discriminate|].
  destruct (classifyLoop env filtered [] [] []) as [[adds st] dyn].
  destruct (staticPhase env st) as [sacts flow]. reflexivity.
Qed.

Lemma count_app (f : Action -> bool) (l1 l2 : list Action) :
  count f (l1 ++ l2) = count f l1 + count f l2.
Proof. unfold count. rewrite filter_app, length_app. reflexivity. Qed.

Lemma count_none (f : Action -> bool) (l : list Action) :
  Forall (fun a => f a = false) l -> count f l = 0.
Proof.
  unfold count. induction 1 as [|a l Ha Hl IH]; [reflexivity|].
  rewrite filter_cons. destruct (decide (f a = true)); [congruence | exact IH].
Qed.

Lemma walkAdder_adds (entries : list (string * bool)) :
  forall adds dyn,
    Forall (fun a => isFullRebuild a = false) adds ->
    Forall (fun a => isFullRebuild a = false) (fst (walkAdder env entries adds dyn)).
Proof.
  induction entries as [|[path isDir] rest IH]; intros adds dyn H; simpl; [exact H|].
  assert (H' : Forall (fun a => isFullRebuild a = false) (adds ++ [WatcherAdd path])).
  { apply Forall_app. split; [exact H | repeat constructor]. }
  destruct isDir.
  - destruct (watcherAddOk env path); [apply IH, H' | exact H'].
  - destruct (negb (isStatic env path)); apply IH, H.
Qed.

Lemma classifyLoop_adds (evs : list Event) :
  forall adds st dyn,
    Forall (fun a => isFullRebuild a = false) adds ->
    Forall (fun a => isFullRebuild a = false)
           (fst (fst (classifyLoop env evs adds st dyn))).
Proof.
  induction evs as [|ev rest IH]; intros adds st dyn H; simpl; [exact H|].
  destruct (istemp ev); [apply IH, H|].
  destruct (String.eqb (Name ev) ""); [apply IH, H|].
  destruct (chmodOnly ev); [apply IH, H|].
  destruct (has Create ev && statIsDir env (Name ev)).
  - pose proof (walkAdder_adds (SymbolicWalk env (Name ev)) adds dyn H) as Hw.
    destruct (walkAdder env (SymbolicWalk env (Name ev)) adds dyn) as [adds' dyn'].
    destruct (isStatic env (Name ev)); apply IH, Hw.
  - destruct (isStatic env (Name ev)); apply IH, H.
Qed.

Lemma staticPhase_no_rebuild (st : list Event) :
  Forall (fun a => isFullRebuild a = false) (fst (staticPhase env st)).
Proof.
  unfold staticPhase. destruct (0 <? length st)%nat; [|constructor].
  assert (Hmap : Forall (fun a => isFullRebuild a = false)
            (map (fun ev => RefreshPath (MakeStaticPathRelative env (Name ev))) st)).
  { apply Forall_map. apply Forall_forall. intros; reflexivity. }
  destruct (forceSyncStatic env).
  - destruct (copyStaticOk env); simpl; [|repeat constructor].
    constructor; [reflexivity|]. destruct (liveReload env); [exact Hmap | constructor].
  - destruct (syncsStaticEventsOk env st); simpl; [|repeat constructor].
    constructor; [reflexivity|]. destruct (liveReload env); [exact Hmap | constructor].
Qed.

Lemma dynamicPhase_no_rebuild (dyn : list Event) :
  Forall (fun a => isFullRebuild a = false) (dynamicPhase env dyn).
Proof.
  unfold dynamicPhase. destruct (0 <? length dyn)%nat; [|constructor].
  constructor; [reflexivity|].
  destruct (liveReload env); [|constructor].
  destruct (if navigateToChanged env then _ else _) as [[rel port]|];
    repeat constructor.
Qed.

(** A batch without a config change calls no full rebuild. *)
Lemma no_config_no_full_rebuild (evs : list Event) :
  Forall (fun ev => isConfigChange env ev = false) evs ->
  count isFullRebuild (handleEvents env evs) = 0.
Proof.
  intros Hno. unfold handleEvents.
  destruct (50 <? length evs)%nat; [reflexivity|].
  destruct (filterLoop_app (mkConfigSet (configFiles env)) evs [] Hno []) as [Hf _].
  destruct (filterLoop env (mkConfigSet (configFiles env)) evs []) as [b filtered].
  simpl in Hf. subst b.
  pose proof (classifyLoop_adds filtered [] [] [] ltac:(constructor)) as Ha.
  destruct (classifyLoop env filtered [] [] []) as [[adds st] dyn]. simpl in Ha.
  pose proof (staticPhase_no_rebuild st) as Hs.
  destruct (staticPhase env st) as [sacts flow]. simpl in Hs.
  apply count_none. simpl. apply Forall_app. split; [exact Ha|].
  apply Forall_app. split; [exact Hs|].
  destruct flow; [apply dynamicPhase_no_rebuild | constructor | constructor].
Qed.

(** A batch of at most 50 events with a config change calls the full
    rebuild exactly once. *)
Lemma config_change_one_full_rebuild (pre post : list Event) (ev : Event) :
  length (pre ++ ev :: post) <= 50 ->
  Forall (fun ev => isConfigChange env ev = false) pre ->
  isConfigChange env ev = true ->
  count isFullRebuild (handleEvents env (pre ++ ev :: post)) = 1.
Proof.
  intros Hlen Hpre Hev.
  rewrite (config_change_cuts_batch pre post ev Hlen Hpre Hev).
  change (FullRebuild :: handleEvents env pre)
    with ([FullRebuild] ++ handleEvents env pre).
  rewrite count_app, (no_config_no_full_rebuild pre Hpre). reflexivity.
Qed.

End WatcherFacts.

(** C3 at a burst of 60 create events. *)
Lemma storm_batch_witness :
  50 < length (Samples.burst 60) /\
  Watcher.handleEvents Samples.serverEnv (Samples.burst 60)
    = [Watcher.DebounceFullRebuild] /\
  Watcher.elapse
    (Watcher.debounced
       (Watcher.handleEvents Samples.serverEnv (Samples.burst 60)) None)
    = ([Watcher.FullRebuild], None).
Proof.
  split; [vm_compute; lia|].
  apply (storm_batch_one_debounced_rebuild Samples.serverEnv (Samples.burst 60)).
  vm_compute. lia.
Defined.

(** C1 at the batch of the scenario: three content changes followed by a
    change of the config file. The loop calls the full rebuild once, and
    then still rebuilds from the three content changes that came before. *)
Theorem config_change_after_content_changes :
  Watcher.isConfigChange Samples.serverEnv
    (Fsnotify.mkEvent "config.toml" Fsnotify.Write) = true /\
  Watcher.handleEvents Samples.serverEnv Samples.contentThenConfig =
    [Watcher.FullRebuild;
     Watcher.RebuildSites
       [Fsnotify.mkEvent "content/post/a.md" Fsnotify.Write;
        Fsnotify.mkEvent "content/post/b.md" Fsnotify.Write;
        Fsnotify.mkEvent "content/post/c.md" Fsnotify.Create];
     Watcher.ForceRefresh] /\
  Watcher.count Watcher.isPartialHandling
    (Watcher.handleEvents Samples.serverEnv Samples.contentThenConfig) = 1 /\
  Watcher.handleEvents Samples.serverEnv Samples.configThenContent =
    [Watcher.FullRebuild].
Proof. vm_compute. repeat split; reflexivity. Qed.

(** C6 as stated fails on a batch without static events: with live reload
    on, a batch that holds only an editor's swap file has no static event,
    and no force refresh is asked for. *)
Lemma no_static_events_no_force_refresh :
  snd (fst (Watcher.classified Samples.serverEnv Samples.swapOnly)) = [] /\
  Watcher.liveReload Samples.serverEnv = true /\
  Watcher.handleEvents Samples.serverEnv Samples.swapOnly = [] /\
  Watcher.count Watcher.isForceRefresh
    (Watcher.handleEvents Samples.serverEnv Samples.swapOnly) <> 1.
Proof. vm_compute. repeat split; try reflexivity. discriminate. Qed.

(** C6 at a batch of two static files. *)
Lemma static_events_refresh_witness :
  fst (Watcher.staticPhase Samples.serverEnv Samples.twoStatic) =
    [Watcher.SyncsStaticEvents Samples.twoStatic;
     Watcher.RefreshPath "css/main.css"; Watcher.RefreshPath "js/app.js"].
Proof.
  pose proof (static_events_refresh_each_path Samples.serverEnv Samples.twoStatic)
    as (H & _ & _).
  apply H; vm_compute; [discriminate | reflexivity | reflexivity].
Defined.

(** *** [fullBuild] *)

Section BuildFacts.
Import Build.

Variable env : Env.

Lemma interleave_snoc_left {A : Type} (l1 l2 l : list A) (x : A) :
  Interleave l1 l2 l -> Interleave (l1 ++ [x]) l2 (l ++ [x]).
Proof.
  induction 1 as [|y l1 l2 l H IH|y l1 l2 l H IH]; simpl.
  - repeat constructor.
  - constructor. exact IH.
  - constructor. exact IH.
Qed.

Lemma interleave_snoc_right {A : Type} (l1 l2 l : list A) (x : A) :
  Interleave l1 l2 l -> Interleave l1 (l2 ++ [x]) (l ++ [x]).
Proof.
  induction 1 as [|y l1 l2 l H IH|y l1 l2 l H IH]; simpl.
  - repeat constructor.
  - constructor. exact IH.
  - constructor. exact IH.
Qed.

Lemma firstFailure_snoc (l : list Ev) (e : Ev) :
  firstFailure (l ++ [e]) =
  match firstFailure l with
  | Some err => Some err
  | None => firstFailure [e]
  end.
Proof.
  induction l as [|x l IH]; simpl.
  - destruct (firstFailure [e]); reflexivity.
  - destruct x as [t|t [err|]|err]; auto.
Qed.

(** A step of either goroutine keeps the invariant of the group. *)
Lemma step_inv (g : Group) (t : Task) :
  groupInv env g -> groupInv env (step env g t).
Proof.
  intros [Hi Hf]. unfold groupInv, step.
  destruct g as [cs bs fe tr]. simpl in *.
  destruct t; simpl.
  - destruct cs; simpl in *.
    + split; [apply (interleave_snoc_left [] _ _ _ Hi)|].
      rewrite firstFailure_snoc, <- Hf. destruct fe; reflexivity.
    + unfold recordErr; simpl.
      assert (Hi' : Interleave (taskEvents env CopyStatic)
                      (produced env BuildSites bs)
                      (tr ++ [Finished CopyStatic (copyStaticFunc env)])).
      { apply (interleave_snoc_left [Started CopyStatic] _ _ _ Hi). }
      destruct fe as [e|]; simpl; (split; [exact Hi'|]);
        rewrite firstFailure_snoc, <- Hf; [reflexivity|].
      simpl. destruct (copyStaticFunc env); reflexivity.
    + split; assumption.
  - destruct bs; simpl in *.
    + split; [apply (interleave_snoc_right _ [] _ _ Hi)|].
      rewrite firstFailure_snoc, <- Hf. destruct fe; reflexivity.
    + unfold recordErr; simpl.
      assert (Hi' : Interleave (produced env CopyStatic cs)
                      (taskEvents env BuildSites)
                      (tr ++ [Finished BuildSites (buildSitesFunc env)])).
      { apply (interleave_snoc_right _ [Started BuildSites] _ _ Hi). }
      destruct fe as [e|]; simpl; (split; [exact Hi'|]);
        rewrite firstFailure_snoc, <- Hf; [reflexivity|].
      simpl. destruct (buildSitesFunc env); reflexivity.
    + split; assumption.
Qed.

Lemma run_inv (sched : list Task) (g : Group) :
  groupInv env g -> groupInv env (foldl (step env) g sched).
Proof.
  revert g. induction sched as [|t sched IH]; intros g H; simpl; [exact H|].
  apply IH, step_inv, H.
Qed.

(** The four steps [Wait] stands for leave both goroutines returned. *)
Lemma drained (g : Group) :
  let g' := foldl (step env) g [CopyStatic; CopyStatic; BuildSites; BuildSites] in
  copyState g' = Done /\ buildState g' = Done.
Proof.
  destruct g as [cs bs fe tr]. simpl.
  destruct cs, bs, fe; unfold step, recordErr; simpl; auto;
    destruct (copyStaticFunc env); simpl; auto;
    destruct (buildSitesFunc env); simpl; auto.
Qed.

(** [Wait] returns with both tasks run, their events interleaved, and the
    first failure as its error. *)
Lemma goAndWait_spec (sched : list Task) :
  let g := goAndWait env sched in
  Interleave (taskEvents env CopyStatic) (taskEvents env BuildSites) (trace g) /\
  firstErr g = firstFailure (trace g).
Proof.
  unfold goAndWait. rewrite foldl_app.
  set (g0 := foldl (step env) (mkGroup Ready Ready None []) sched).
  assert (H0 : groupInv env g0).
  { apply run_inv. split; [constructor | reflexivity]. }
  pose proof (run_inv [CopyStatic; CopyStatic; BuildSites; BuildSites] g0 H0)
    as [Hi Hf].
  destruct (drained g0) as [Hc Hb].
  cbv zeta in Hc, Hb. rewrite Hc, Hb in Hi. split; assumption.
Qed.

(** No failure is seen in an interleaving only if neither task failed. *)
Lemma firstFailure_none (l : list Ev) :
  Interleave (taskEvents env CopyStatic) (taskEvents env BuildSites) l ->
  firstFailure l = None ->
  copyStaticFunc env = None /\ buildSitesFunc env = None.
Proof.
  unfold taskEvents. simpl. intros H.
  repeat (match goal with
          | H : Interleave _ _ _ |- _ => inversion H; clear H; subst
          end); simpl;
    destruct (copyStaticFunc env), (buildSitesFunc env); simpl;
    intros; try discriminate; auto.
Qed.

Lemma finish_phases (phases : list Ev) :
  fst (fst (finish env phases)) = phases ++ gcEvents env.
Proof.
  unfold finish, gcEvents. destruct (gc env); simpl.
  - destruct (snd (hugoGC env)); reflexivity.
  - rewrite app_nil_r. reflexivity.
Qed.

(** C2. With [cleanDestinationDir] the static copy starts and finishes
    before the sites are built, and the build is not started when the copy
    fails. Without it the two run as tasks of one group: their events
    interleave in the order the scheduler gives, [fullBuild] returns the
    error of the first task seen to fail, and it fails whenever one of them
    does. *)
Theorem fullBuild_phase_order (sched : list Task) :
  (cleanDestinationDir env = true ->
   exists rest,
     phasesOf (fullBuild env sched) =
       Started CopyStatic :: Finished CopyStatic (copyStaticFunc env) :: rest /\
     match copyStaticFunc env with
     | Some e => rest = [] /\ errorOf (fullBuild env sched) = Some e
     | None =>
         rest = Started BuildSites :: Finished BuildSites (buildSitesFunc env) ::
                match buildSitesFunc env with
                | Some _ => []
                | None => gcEvents env
                end
     end) /\
  (cleanDestinationDir env = false ->
   exists tasks,
     Interleave (taskEvents env CopyStatic) (taskEvents env BuildSites) tasks /\
     match firstFailure tasks with
     | Some e =>
         phasesOf (fullBuild env sched) = tasks /\
         errorOf (fullBuild env sched) = Some e
     | None =>
         phasesOf (fullBuild env sched) = tasks ++ gcEvents env /\
         copyStaticFunc env = None /\ buildSitesFunc env = None
     end).
Proof.
  split; intros Hc; unfold fullBuild, phasesOf, errorOf; rewrite Hc.
  - destruct (copyStaticFunc env) as [e|] eqn:Hcopy.
    + exists []. simpl. auto.
    + destruct (buildSitesFunc env) as [e|] eqn:Hbuild.
      * eexists. simpl. split; reflexivity.
      * eexists. rewrite finish_phases. simpl. split; reflexivity.
  - destruct (goAndWait_spec sched) as [Hi Hf].
    exists (trace (goAndWait env sched)). split; [exact Hi|].
    cbv zeta in Hf. rewrite Hf.
    destruct (firstFailure (trace (goAndWait env sched))) as [e|] eqn:Hff.
    + simpl. auto.
    + rewrite finish_phases. split; [reflexivity|].
      apply (firstFailure_none _ Hi Hff).
Qed.

(** With [cleanDestinationDir], when the build of the sites starts the
    copy has finished: the copy ends at position 1 of the trace and the
    build starts after it. *)
Lemma clean_copy_precedes_build (sched : list Task) :
  cleanDestinationDir env = true ->
  indexOf (isFinished CopyStatic) (phasesOf (fullBuild env sched)) = Some 1 /\
  forall i,
    indexOf (isStarted BuildSites) (phasesOf (fullBuild env sched)) = Some i ->
    1 < i.
Proof.
  intros Hc. unfold fullBuild, phasesOf. rewrite Hc.
  destruct (copyStaticFunc env) as [e|]; [split; [reflexivity | discriminate]|].
  destruct (buildSitesFunc env) as [e|].
  - split; [reflexivity|]. simpl. intros i H. injection H as <-. lia.
  - rewrite finish_phases. split; [reflexivity|].
    simpl. intros i H. injection H as <-. lia.
Qed.

(** Without it the scheduler decides: there is a schedule where the build
    of the sites starts before the copy does, and one where it starts
    after the copy has finished. *)
Lemma concurrent_orders :
  trace (goAndWait env [BuildSites]) =
    [Started BuildSites; Started CopyStatic;
     Finished CopyStatic (copyStaticFunc env);
     Finished BuildSites (buildSitesFunc env)] /\
  trace (goAndWait env [CopyStatic; CopyStatic]) =
    [Started CopyStatic; Finished CopyStatic (copyStaticFunc env);
     Started BuildSites; Finished BuildSites (buildSitesFunc env)].
Proof.
  unfold goAndWait, step, recordErr. simpl.
  destruct (copyStaticFunc env), (buildSitesFunc env); split; reflexivity.
Qed.

End BuildFacts.

(** C2 at two builds: one with destination cleaning, and one without
    where the scheduler starts the build before the copy. *)
Lemma fullBuild_phase_order_witness :
  Build.phasesOf (Build.fullBuild Samples.cleanBuild [Build.BuildSites]) =
    [Build.Started Build.CopyStatic; Build.Finished Build.CopyStatic None;
     Build.Started Build.BuildSites; Build.Finished Build.BuildSites None] /\
  Build.phasesOf (Build.fullBuild Samples.plainBuild [Build.BuildSites]) =
    [Build.Started Build.BuildSites; Build.Started Build.CopyStatic;
     Build.Finished Build.CopyStatic None;
     Build.Finished Build.BuildSites (Some "Error building site: no layout")] /\
  Build.errorOf (Build.fullBuild Samples.plainBuild [Build.BuildSites]) =
    Some "Error building site: no layout".
Proof.
  destruct (fullBuild_phase_order Samples.cleanBuild [Build.BuildSites])
    as [Hclean _].
  destruct (fullBuild_phase_order Samples.plainBuild [Build.BuildSites])
    as [_ Hplain].
  destruct (Hclean eq_refl) as (rest & Hp & Hrest).
  destruct (Hplain eq_refl) as (tasks & Hi & Hres).
  split.
  - rewrite Hp. simpl in Hrest. rewrite Hrest. reflexivity.
  - vm_compute. split; reflexivity.
Defined.

(** *** [renderRSS] *)

Section RSSFacts.
Import Render.

Variable s : Site.

(** The page output [renderRSS] works on once the feed is known to be
    enabled: kind set, date zeroed for a taxonomy, list cut to the limit. *)
Lemma renderRSS_enabled (p : PageOutput) :
  isEnabledRSS s = true -> disableRSS s = false ->
  exists p',
    fst (fst (renderRSS s p)) = p' /\
    Kind p' = kindRSS s /\
    Pages p' =
      (if (0 <=? rssLimit s)%Z && (rssLimit s <? Z.of_nat (length (Pages p)))%Z
       then take (Z.to_nat (rssLimit s)) (Pages p) else Pages p) /\
    match layoutHandlerFor s p', targetPath s p' [] with
    | (ls, None), (target, None) =>
        renderRSS s p =
          (p', [RenderAndWriteXML (Title p') target p' ls],
           renderAndWriteXML s (Title p') target p' ls)
    | (_, Some e), _ => renderRSS s p = (p', [], Some e)
    | (_, None), (_, Some e) => renderRSS s p = (p', [], Some e)
    end.
Proof.
  intros Hen Hdis. unfold renderRSS. rewrite Hen, Hdis. simpl.
  set (p1 := if String.eqb (kindRSS s) (KindTaxonomy s)
             then setDate (setKind p (kindRSS s)) 0 else setKind p (kindRSS s)).
  assert (Hk : Kind p1 = kindRSS s).
  { unfold p1. destruct (String.eqb _ _); reflexivity. }
  assert (Hp : Pages p1 = Pages p).
  { unfold p1. destruct (String.eqb _ _); reflexivity. }
  rewrite Hp.
  set (p2 := if (0 <=? rssLimit s)%Z && (rssLimit s <? Z.of_nat (length (Pages p)))%Z
             then truncatePages p1 (rssLimit s) else p1).
  exists p2.
  assert (Hk2 : Kind p2 = kindRSS s).
  { unfold p2. destruct (_ && _); [simpl|]; exact Hk. }
  assert (Hp2 : Pages p2 =
    (if (0 <=? rssLimit s)%Z && (rssLimit s <? Z.of_nat (length (Pages p)))%Z
     then take (Z.to_nat (rssLimit s)) (Pages p) else Pages p)).
  { unfold p2. destruct (_ && _); [simpl; rewrite Hp|]; auto. }
  destruct (layoutHandlerFor s p2) as [ls [e|]] eqn:Hl; simpl.
  - repeat split; auto.
  - destruct (targetPath s p2 []) as [target [e|]] eqn:Ht; simpl;
      repeat split; auto.
Qed.

(** C7. [renderRSS] returns nil with nothing rendered or written when the
    RSS kind is disabled for the site or [disableRSS] is set. Otherwise,
    when [rssLimit] is not negative and the page list is longer, the list
    is cut to its first [rssLimit] entries: that is the list of the page
    output left, of its [Data] entry, and of whatever feed is rendered. *)
Theorem renderRSS_skip_and_limit (p : PageOutput) :
  (isEnabledRSS s = false \/ disableRSS s = true ->
   renderRSS s p = (p, [], None)) /\
  (isEnabledRSS s = true -> disableRSS s = false ->
   (0 <= rssLimit s)%Z -> (rssLimit s < Z.of_nat (length (Pages p)))%Z ->
   let cut := take (Z.to_nat (rssLimit s)) (Pages p) in
   let p' := fst (fst (renderRSS s p)) in
   Pages p' = cut /\
   Z.of_nat (length (Pages p')) = rssLimit s /\
   Data p' !! "Pages" = Some cut /\
   (forall name target q ls,
      In (RenderAndWriteXML name target q ls) (snd (fst (renderRSS s p))) ->
      q = p') /\
   (forall ls target,
      layoutHandlerFor s p' = (ls, None) -> targetPath s p' [] = (target, None) ->
      snd (fst (renderRSS s p)) = [RenderAndWriteXML (Title p') target p' ls])).
Proof.
  split.
  - intros [H | H]; unfold renderRSS.
    + rewrite H. reflexivity.
    + rewrite H. destruct (isEnabledRSS s); reflexivity.
  - intros Hen Hdis H0 Hlt cut p'.
    assert (Hcond : (0 <=? rssLimit s)%Z &&
                    (rssLimit s <? Z.of_nat (length (Pages p)))%Z = true).
    { apply andb_true_iff. split; [apply Z.leb_le | apply Z.ltb_lt]; lia. }
    assert (Hdata : Data p' !! "Pages" = Some cut).
    { unfold p', renderRSS. rewrite Hen, Hdis. simpl.
      assert (Hd : forall q : PageOutput, Pages q = Pages p ->
                Data (truncatePages q (rssLimit s)) !! "Pages" = Some cut).
      { intros q Hq. unfold truncatePages. simpl. rewrite Hq.
        apply lookup_insert_eq. }
      destruct (String.eqb (kindRSS s) (KindTaxonomy s)); simpl;
        rewrite Hcond;
        match goal with
        | |- context [layoutHandlerFor s ?q] =>
            destruct (layoutHandlerFor s q) as [ls [e|]]; simpl;
            [|destruct (targetPath s q []) as [t [e|]]; simpl];
            apply Hd; reflexivity
        end. }
    destruct (renderRSS_enabled p Hen Hdis) as (q & Hq & _ & Hpages & Hrun).
    fold p' in Hq. subst q. rewrite Hcond in Hpages. fold cut in Hpages.
    split; [exact Hpages|]. split.
    { rewrite Hpages. unfold cut. rewrite length_take. lia. }
    split; [exact Hdata|]. split.
    + intros name target q ls Hin.
      destruct (layoutHandlerFor s p') as [ls' [e|]];
        [rewrite Hrun in Hin; destruct Hin|].
      destruct (targetPath s p' []) as [t [e|]];
        rewrite Hrun in Hin; simpl in Hin; [destruct Hin|].
      destruct Hin as [Heq | []]. congruence.
    + intros ls target Hl Ht. rewrite Hl, Ht in Hrun. rewrite Hrun. reflexivity.
Qed.

End RSSFacts.

(** C7 at a feed of five posts with [rssLimit] 3, and with [disableRSS]. *)
Lemma renderRSS_skip_and_limit_witness :
  Render.renderRSS Samples.siteNoRSS Samples.blogFeed =
    (Samples.blogFeed, [], None) /\
  Render.Pages (fst (fst (Render.renderRSS Samples.site Samples.blogFeed))) =
    [Samples.post 1; Samples.post 2; Samples.post 3].
Proof.
  destruct (renderRSS_skip_and_limit Samples.siteNoRSS Samples.blogFeed)
    as [Hskip _].
  destruct (renderRSS_skip_and_limit Samples.site Samples.blogFeed)
    as [_ Hcut].
  split.
  - apply Hskip. right. reflexivity.
  - apply Hcut; [reflexivity | reflexivity | vm_compute; discriminate
                | vm_compute; reflexivity].
Defined.

(** *** [renderPaginator] *)

Section PaginatorFacts.
Import Render.

Variable s : Site.
Variable p : PageOutput.

(** The addend of the alias is [/<paginatePath>/1]. *)
Lemma paginateAddend_first :
  paginateAddend s 1 = "/" +:+ paginatePath s +:+ "/1".
Proof. reflexivity. Qed.

(** The loop over pagers numbered from [i + 1] on, with [i] at least 1:
    whatever it renders is a pager of number 2 or more, and when it returns
    nil it has rendered each pager in turn. *)
Lemma renderPagers_spec (pagers : list Pager) :
  forall (i : nat) (effs : list Effect) (out : Outcome),
    1 <= i ->
    (forall j pager, pagers !! j = Some pager ->
                     number pager = i + j + 1 /\ 0 < TotalPages pager) ->
    renderPagers s p i pagers = (effs, out) ->
    Forall notFirstPager effs /\
    (out = Returned None ->
     Forall2 (fun pager eff =>
                2 <= number pager /\ rendersPager s p (number pager) pager eff)
             pagers effs).
Proof.
  induction pagers as [|pager rest IH]; intros i effs out Hi Hnum Hrun.
  - simpl in Hrun. injection Hrun as <- <-. split; constructor.
  - simpl in Hrun.
    destruct (Nat.eqb_spec i 0) as [->|_]; [lia|].
    destruct (Hnum 0 pager eq_refl) as [Hn Htot].
    unfold pagerNodeOf in Hrun.
    apply Nat.ltb_lt in Htot. rewrite Htot in Hrun.
    destruct (pagerPage pager 0) as [first|] eqn:Hfirst.
    2:{ injection Hrun as <- <-. split; [repeat constructor | discriminate]. }
    destruct (pLayouts s p) as [ls [e|]] eqn:Hl.
    { injection Hrun as <- <-. split; [constructor | discriminate]. }
    set (node := setPaginator (copyPageOutput s p) pager) in *.
    set (node' := setLastmod (setDate node (spDate first)) (spLastmod first)) in *.
    assert (Hnot : notFirstPager
              (RenderAndWritePage (Title node')
                 (fst (targetPath s p [paginateAddend s (i + 1)])) node' ls)).
    { exists pager. split; [reflexivity | lia]. }
    destruct (renderAndWritePage s (Title node')
                (fst (targetPath s p [paginateAddend s (i + 1)])) node' ls)
      as [e|] eqn:Hw.
    { injection Hrun as <- <-. split; [repeat constructor; exact Hnot | discriminate]. }
    destruct (renderPagers s p (S i) rest) as [effs' out'] eqn:Hrest.
    injection Hrun as <- <-.
    assert (Hnum' : forall j pg, rest !! j = Some pg ->
                      number pg = S i + j + 1 /\ 0 < TotalPages pg).
    { intros j pg Hj. destruct (Hnum (S j) pg Hj) as [H1 H2]. split; lia. }
    destruct (IH (S i) effs' out' ltac:(lia) Hnum' Hrest) as [Hall Hok].
    split; [constructor; assumption|].
    intros Hout. constructor; [|apply Hok, Hout].
    split; [lia|]. exists first, node, ls.
    repeat split; auto. rewrite Hn. replace (i + 0 + 1) with (i + 1) by lia.
    reflexivity.
Qed.

(** The pagers of a paginator, after the first, are numbered from 2. *)
Lemma pagers_tail_numbers (pg : Pager) :
  forall j pager, tail (Pagers pg) !! j = Some pager ->
                  number pager = 1 + j + 1 /\ 0 < TotalPages pager.
Proof.
  unfold Pagers, TotalPages. intros j pager.
  destruct (paginatedElements (owner pg)) as [|e rest] eqn:He; simpl.
  - intros H. discriminate H.
  - rewrite list_lookup_imap.
    destruct (rest !! j); simpl; [|discriminate].
    intros H. injection H as <-. simpl. rewrite He. simpl. split; lia.
Qed.

Lemma renderPagers_skip_first (pg : Pager) :
  renderPagers s p 0 (Pagers pg) = renderPagers s p 1 (tail (Pagers pg)).
Proof.
  destruct (Pagers pg) as [|first rest]; reflexivity.
Qed.

(** C5. For a page output with a paginator: the alias from
    [/<paginatePath>/1] under the page's target path to the page's
    permalink is the first thing written, whenever its target path can be
    made; no pager of number 1 is ever rendered; and when [renderPaginator]
    returns nil it has written the alias and then, for each pager of number
    [n] from 2 on, an artifact at the page's target path extended by
    [/<paginatePath>/<n>], from a copy of the page that carries the pager
    and the date and last modification of the pager's first page. *)
Theorem renderPaginator_alias_and_pagers (pg : Pager) :
  paginator p = Some pg ->
  (forall target,
     createTargetPath s p (outputFormat p) ["/" +:+ paginatePath s +:+ "/1"]
       = (target, None) ->
     exists rest,
       fst (renderPaginator s p) = WriteDestAlias target (Permalink s p) :: rest) /\
  Forall notFirstPager (fst (renderPaginator s p)) /\
  (snd (renderPaginator s p) = Returned None ->
   exists target renders,
     createTargetPath s p (outputFormat p) ["/" +:+ paginatePath s +:+ "/1"]
       = (target, None) /\
     fst (renderPaginator s p) = WriteDestAlias target (Permalink s p) :: renders /\
     Forall2 (fun pager eff =>
                2 <= number pager /\ rendersPager s p (number pager) pager eff)
             (tail (Pagers pg)) renders).
Proof.
  intros Hpg. rewrite <- paginateAddend_first.
  unfold renderPaginator. rewrite Hpg.
  destruct (createTargetPath s p (outputFormat p) [paginateAddend s 1])
    as [target [e|]] eqn:Hc.
  { split; [intros t H; discriminate H|].
    split; [constructor | discriminate]. }
  destruct (writeDestAlias s target (Permalink s p)) as [e|] eqn:Hw.
  { split; [intros t H; injection H as <-; eexists; reflexivity|].
    split; [repeat constructor | discriminate]. }
  rewrite renderPagers_skip_first.
  destruct (renderPagers s p 1 (tail (Pagers pg))) as [effs out] eqn:Hrun.
  destruct (renderPagers_spec _ 1 effs out ltac:(lia) (pagers_tail_numbers pg) Hrun)
    as [Hall Hok].
  simpl. split; [intros t H; injection H as <-; eexists; reflexivity|].
  split; [constructor; [exact I | exact Hall]|].
  intros Hout. exists target, effs. repeat split; auto.
Qed.

End PaginatorFacts.

(** C5 at a list of five posts, two to a page: the alias at page 1, then
    pager 2 at [blog/page/2/index.html] with the dates of post 3 and pager
    3 at [blog/page/3/index.html] with the dates of post 5. *)
Lemma renderPaginator_witness :
  exists node2 node3 ls,
    fst (Render.renderPaginator Samples.site Samples.blogList) =
      [Render.WriteDestAlias "blog/page/1/index.html" "http://example.org/blog/";
       Render.RenderAndWritePage "Blog" "blog/page/2/index.html" node2 ls;
       Render.RenderAndWritePage "Blog" "blog/page/3/index.html" node3 ls] /\
    option_map Render.number (Render.paginator node2) = Some 2 /\
    (Render.Date node2, Render.Lastmod node2) = (1003%Z, 2003%Z) /\
    option_map Render.number (Render.paginator node3) = Some 3 /\
    (Render.Date node3, Render.Lastmod node3) = (1005%Z, 2005%Z).
Proof.
  destruct (renderPaginator_alias_and_pagers Samples.site Samples.blogList
              Samples.pager1 eq_refl) as (_ & _ & Hok).
  destruct (Hok eq_refl) as (target & renders & Hc & Heff & Hall).
  injection Hc as <-.
  remember (tail (Render.Pagers Samples.pager1)) as pagers eqn:Hps.
  vm_compute in Hps. subst pagers.
  apply Forall2_cons_inv_l in Hall as (e2 & r2 & [_ H2] & Hall & ->).
  apply Forall2_cons_inv_l in Hall as (e3 & r3 & [_ H3] & Hall & ->).
  apply Forall2_nil_inv_l in Hall as ->.
  destruct H2 as (first2 & n2 & ls2 & Hf2 & -> & Hl2 & ->).
  destruct H3 as (first3 & n3 & ls3 & Hf3 & -> & Hl3 & ->).
  vm_compute in Hf2. injection Hf2 as <-.
  vm_compute in Hf3. injection Hf3 as <-.
  vm_compute in Hl2. injection Hl2 as <-.
  vm_compute in Hl3. injection Hl3 as <-.
  eexists _, _, _. split; [exact Heff|].
  repeat split; reflexivity.
Defined.

(** [%d] of a page number: the decimal digits. *)
Example paginate_addend_decimal :
  Render.paginateAddend Samples.site 12 = "/page/12" /\
  Render.paginateAddend Samples.site 2 <> Render.paginateAddend Samples.site 1.
Proof. split; [reflexivity | discriminate]. Qed.

(** *** [pageRenderer] *)

Section RendererFacts.
Import Render.

Variable s : Site.

Lemma countEff_app (f : Effect -> bool) (l1 l2 : list Effect) :
  countEff f (l1 ++ l2) = countEff f l1 + countEff f l2.
Proof. unfold countEff. rewrite filter_app, length_app. reflexivity. Qed.

Lemma countEff_noNew (pid : nat) (l : list Effect) :
  noNew l -> countEff (isMainInit pid) l = 0.
Proof.
  unfold countEff. induction 1 as [|e l He Hl IH]; [reflexivity|].
  rewrite filter_cons. destruct (decide (isMainInit pid e = true)) as [H|H].
  - destruct e; simpl in *; discriminate.
  - exact IH.
Qed.

Lemma noNew_app (l1 l2 : list Effect) : noNew l1 -> noNew l2 -> noNew (l1 ++ l2).
Proof. unfold noNew. intros. apply Forall_app. split; assumption. Qed.

Lemma sendIfErr_noNew (err : error) : noNew (sendIfErr err).
Proof. destruct err; repeat constructor. Qed.

Lemma renderRSS_noNew (p : PageOutput) : noNew (snd (fst (renderRSS s p))).
Proof.
  unfold renderRSS.
  destruct (isEnabledRSS s); simpl; [|constructor].
  destruct (disableRSS s); simpl; [constructor|].
  match goal with
  | |- context [layoutHandlerFor s ?q] =>
      destruct (layoutHandlerFor s q) as [ls [e|]]; simpl; [constructor|];
      destruct (targetPath s q []) as [t [e|]]; simpl; repeat constructor
  end.
Qed.

Lemma renderPagers_noNew (p : PageOutput) (pagers : list Pager) :
  forall i, noNew (fst (renderPagers s p i pagers)).
Proof.
  induction pagers as [|pager rest IH]; intros i; simpl; [constructor|].
  destruct (i =? 0)%nat; [apply IH|].
  destruct (pagerNodeOf s p pager) as [node|]; [|repeat constructor].
  destruct (pLayouts s p) as [ls [e|]]; [constructor|].
  destruct (renderAndWritePage s _ _ node ls); [repeat constructor|].
  specialize (IH (S i)). destruct (renderPagers s p (S i) rest) as [effs out].
  simpl in *. constructor; [reflexivity | exact IH].
Qed.

Lemma renderPaginator_noNew (p : PageOutput) :
  noNew (fst (renderPaginator s p)).
Proof.
  unfold renderPaginator.
  destruct (paginator p) as [pg|]; [|constructor].
  destruct (createTargetPath s p (outputFormat p) _) as [target [e|]];
    [constructor|].
  destruct (writeDestAlias s target (Permalink s p)); [repeat constructor|].
  pose proof (renderPagers_noNew p (Pagers pg) 0) as H.
  destruct (renderPagers s p 0 (Pagers pg)) as [effs out].
  constructor; [reflexivity | exact H].
Qed.

Lemma storeRel_refl (m : gmap nat Page) (pid0 : nat) (b : bool) :
  storeRel m m pid0 b.
Proof. intros pid. destruct (m !! pid); auto. Qed.

Lemma storeRel_trans (m1 m2 m3 : gmap nat Page) (pid0 : nat) (b : bool) :
  storeRel m1 m2 pid0 b -> storeRel m2 m3 pid0 b -> storeRel m1 m3 pid0 b.
Proof.
  intros H12 H23 pid. specialize (H12 pid). specialize (H23 pid).
  destruct (m1 !! pid), (m2 !! pid), (m3 !! pid); try tauto.
  destruct H12 as (F1 & I1 & N1), H23 as (F2 & I2 & N2).
  repeat split; [congruence | tauto |].
  intros H. rewrite (N2 H), (N1 H). reflexivity.
Qed.

(** Storing the main page output runs the Once of that page only. *)
Lemma setMain_rel (st : State) (pid : nat) (page : Page) (po : option PageOutput) :
  pages st !! pid = Some page ->
  storeRel (pages st) (pages (setMain st pid page po)) pid true.
Proof.
  intros Hp pid'. simpl. destruct (decide (pid' = pid)) as [->|Hne].
  - rewrite Hp, lookup_insert_eq. simpl. repeat split; auto.
    intros [H|H]; [contradiction | discriminate].
  - rewrite lookup_insert_ne by congruence. destruct (pages st !! pid'); auto.
Qed.

(** Once the Once has run, storing the main output again changes nothing
    that [storeRel] sees, whatever the round. *)
Lemma setMain_rel_done (st : State) (pid : nat) (page : Page)
  (po : option PageOutput) (b : bool) :
  pages st !! pid = Some page -> pageOutputInit page = true ->
  storeRel (pages st) (pages (setMain st pid page po)) pid b.
Proof.
  intros Hp Hd pid'. simpl. destruct (decide (pid' = pid)) as [->|Hne].
  - rewrite Hp, lookup_insert_eq. simpl. repeat split; auto.
  - rewrite lookup_insert_ne by congruence. destruct (pages st !! pid'); auto.
Qed.

(** The part of a round after the page output is there: it creates no
    page output, and leaves the pages as [storeRel] allows a round that
    does not go through the Once. *)
Lemma renderOutput_spec (pid : nat) (page : Page) (shared : bool)
  (po : PageOutput) (st : State) :
  (shared = true ->
   exists pg, pages st !! pid = Some pg /\ pageOutputInit pg = true) ->
  exists delta,
    effects (renderOutput s pid page shared po st) = effects st ++ delta /\
    noNew delta /\
    storeRel (pages st) (pages (renderOutput s pid page shared po st)) pid false /\
    (crashed st = true -> crashed (renderOutput s pid page shared po st) = true).
Proof.
  intros Hshared. unfold renderOutput.
  destruct (if negb (String.eqb (selfLayout page) "")
            then ([selfLayout page], None) else layouts s po) as [ls [e|]].
  { eexists. simpl. repeat split; [repeat constructor | apply storeRel_refl | auto]. }
  destruct (String.eqb (Name (outputFormat po)) "RSS").
  - pose proof (renderRSS_noNew po) as Hn.
    destruct (renderRSS s po) as [[po' effs] err]. simpl in Hn.
    exists (effs ++ sendIfErr err).
    assert (Hnn : noNew (effs ++ sendIfErr err)).
    { apply noNew_app; [exact Hn | apply sendIfErr_noNew]. }
    destruct shared.
    + destruct (Hshared eq_refl) as (pg & Hpg & Hdone). simpl. rewrite Hpg.
      simpl. repeat split; auto.
      apply (setMain_rel_done (say st (effs ++ sendIfErr err)) pid pg (Some po') false);
        assumption.
    + simpl. repeat split; auto. apply storeRel_refl.
  - destruct (targetPath s po []) as [target [e|]].
    { eexists. simpl. repeat split; [repeat constructor | apply storeRel_refl | auto]. }
    destruct (isNode po).
    + pose proof (renderPaginator_noNew po) as Hn.
      destruct (renderPaginator s po) as [effs [err|]]; simpl in *.
      * eexists. rewrite <- app_assoc. repeat split; [| apply storeRel_refl | auto].
        apply noNew_app; [constructor; [reflexivity | apply sendIfErr_noNew]|].
        apply noNew_app; [exact Hn | apply sendIfErr_noNew].
      * eexists. rewrite <- app_assoc. repeat split; [| apply storeRel_refl].
        apply noNew_app; [constructor; [reflexivity | apply sendIfErr_noNew]|].
        exact Hn.
    + eexists. simpl. repeat split; [| apply storeRel_refl | auto].
      constructor; [reflexivity | apply sendIfErr_noNew].
Qed.

Lemma storeRel_weaken (m m' : gmap nat Page) (pid0 : nat) (b : bool) :
  storeRel m m' pid0 false -> storeRel m m' pid0 b.
Proof.
  intros H pid. specialize (H pid).
  destruct (m !! pid), (m' !! pid); auto.
  destruct H as (F & I & N). repeat split; auto.
Qed.

(** One round: its effects are appended, a panic stays, the pages change
    as [storeRel] allows, the main page output is created in this round
    exactly when the round fires, and the Once has run after it did. *)
Lemma count_main_new (pid pid0 : nat) (f : OutputFormat) :
  countEff (isMainInit pid) [NewPageOutput pid0 false f] =
  if (pid =? pid0)%nat then 1 else 0.
Proof.
  unfold countEff. rewrite filter_cons. simpl.
  rewrite (Nat.eqb_sym pid0 pid).
  destruct (pid =? pid0)%nat.
  - destruct (decide (true = true)); [reflexivity | congruence].
  - destruct (decide (false = true)); [discriminate | reflexivity].
Qed.

Lemma count_main_cons (pid pid0 : nat) (b : bool) (f : OutputFormat)
  (l : list Effect) :
  noNew l ->
  countEff (isMainInit pid) (NewPageOutput pid0 b f :: l) =
  countEff (isMainInit pid) [NewPageOutput pid0 b f].
Proof.
  intros Hl. change (NewPageOutput pid0 b f :: l)
    with ([NewPageOutput pid0 b f] ++ l).
  rewrite countEff_app, (countEff_noNew pid l Hl). lia.
Qed.

Lemma count_main_copy (pid pid0 : nat) (f : OutputFormat) :
  countEff (isMainInit pid) [NewPageOutput pid0 true f] = 0.
Proof.
  unfold countEff. rewrite filter_cons. simpl.
  destruct (decide (false = true)); [discriminate | reflexivity].
Qed.

Lemma renderFormat_spec (st : State) (pid0 i : nat) :
  exists delta,
    effects (renderFormat s st (pid0, i)) = effects st ++ delta /\
    (crashed st = true -> crashed (renderFormat s st (pid0, i)) = true) /\
    storeRel (pages st) (pages (renderFormat s st (pid0, i))) pid0 (i =? 0)%nat /\
    (forall pid, countEff (isMainInit pid) delta =
                 if fires st pid0 i && (pid =? pid0)%nat then 1 else 0) /\
    (fires st pid0 i = true ->
     initDone (renderFormat s st (pid0, i)) pid0 = true).
Proof.
  assert (Hidle : fires st pid0 i = false ->
            renderFormat s st (pid0, i) = st ->
            exists delta,
              effects (renderFormat s st (pid0, i)) = effects st ++ delta /\
              (crashed st = true -> crashed (renderFormat s st (pid0, i)) = true) /\
              storeRel (pages st) (pages (renderFormat s st (pid0, i))) pid0 (i =? 0)%nat /\
              (forall pid, countEff (isMainInit pid) delta =
                           if fires st pid0 i && (pid =? pid0)%nat then 1 else 0) /\
              (fires st pid0 i = true ->
               initDone (renderFormat s st (pid0, i)) pid0 = true)).
  { intros Hf Hst. rewrite Hst, Hf. exists []. rewrite app_nil_r.
    split; [reflexivity|]. split; [auto|]. split; [apply storeRel_refl|].
    split; [reflexivity | discriminate]. }
  destruct (crashed st) eqn:Hcr.
  { apply Hidle; unfold fires, renderFormat; rewrite Hcr; reflexivity. }
  destruct (pages st !! pid0) as [page|] eqn:Hpage.
  2:{ apply Hidle; unfold fires, renderFormat; rewrite Hcr, Hpage;
        [apply andb_false_r | reflexivity]. }
  destruct (outputFormats page !! i) as [outFormat|] eqn:Hfmt.
  2:{ apply Hidle; unfold fires, renderFormat; rewrite Hcr, Hpage; [|rewrite Hfmt; reflexivity].
      destruct (Nat.eqb_spec i 0) as [->|]; [|reflexivity].
      rewrite Hfmt. simpl. apply andb_false_r. }
  clear Hidle.
  unfold renderFormat, fires. rewrite Hcr, Hpage, Hfmt. unfold createOutput.
  destruct (Nat.eqb_spec i 0) as [->|Hi].
  - rewrite Hfmt. simpl. destruct (pageOutputInit page) eqn:Hdone; simpl.
    + (* the Once has run: the main page output is read *)
      destruct (mainPageOutput page) as [po|].
      * destruct (renderOutput_spec pid0 page true po st) as (delta & He & Hn & Hr & Hc).
        { intros _. exists page. split; assumption. }
        exists delta. split; [exact He|]. split; [intros H; discriminate H|].
        split; [apply storeRel_weaken, Hr|].
        split; [intros pid; apply countEff_noNew, Hn | discriminate].
      * exists [Panic]. simpl. split; [reflexivity|]. split; [intros H; discriminate H|].
        split; [apply storeRel_refl|].
        split; [intros pid; reflexivity | discriminate].
    + (* the Once runs now *)
      destruct (newPageOutput s pid0 false outFormat) as [po [e|]] eqn:Hnew; simpl.
      * exists [NewPageOutput pid0 false outFormat; LogError "Failed to create output page"].
        rewrite <- app_assoc.
        split; [reflexivity|]. split; [intros H; discriminate H|].
        split; [apply (setMain_rel st pid0 page po Hpage)|].
        split.
        { intros pid. rewrite count_main_cons by repeat constructor.
          apply count_main_new. }
        intros _. unfold initDone. simpl. rewrite lookup_insert_eq. reflexivity.
      * destruct po as [po|].
        -- set (st1 := say (setMain st pid0 page (Some po))
                         [NewPageOutput pid0 false outFormat]).
           destruct (renderOutput_spec pid0 page true po st1)
             as (delta & He & Hn & Hr & Hc).
           { intros _. eexists. split; [apply lookup_insert_eq | reflexivity]. }
           exists (NewPageOutput pid0 false outFormat :: delta).
           split; [rewrite He; simpl; rewrite <- app_assoc; reflexivity|].
           split; [intros H; discriminate H|].
           split.
           { eapply storeRel_trans; [apply (setMain_rel st pid0 page (Some po) Hpage)|].
             apply storeRel_weaken, Hr. }
           split.
           { intros pid. rewrite count_main_cons by exact Hn.
             apply count_main_new. }
           intros _. unfold initDone.
           specialize (Hr pid0). simpl in Hr. rewrite lookup_insert_eq in Hr.
           destruct (pages (renderOutput s pid0 page true po st1) !! pid0) as [pg'|];
             [|contradiction].
           destruct Hr as (_ & Hmono & _). apply Hmono. reflexivity.
        -- exists [NewPageOutput pid0 false outFormat; Panic].
           simpl. rewrite <- app_assoc.
           split; [reflexivity|]. split; [intros H; discriminate H|].
           split; [apply (setMain_rel st pid0 page None Hpage)|].
           split.
           { intros pid. rewrite count_main_cons by repeat constructor.
             apply count_main_new. }
           intros _. unfold initDone. simpl. rewrite lookup_insert_eq. reflexivity.
  - (* a later format: a page output of its own *)
    simpl.
    destruct (newPageOutput s pid0 true outFormat) as [po [e|]] eqn:Hnew; simpl.
    + exists [NewPageOutput pid0 true outFormat; LogError "Failed to create output page"].
      rewrite <- app_assoc.
      split; [reflexivity|]. split; [intros H; discriminate H|]. split; [apply storeRel_refl|].
      split; [|discriminate].
      intros pid. rewrite count_main_cons by repeat constructor.
      apply count_main_copy.
    + destruct po as [po|].
      * set (st1 := say st [NewPageOutput pid0 true outFormat]).
        destruct (renderOutput_spec pid0 page false po st1)
          as (delta & He & Hn & Hr & Hc); [discriminate|].
        exists (NewPageOutput pid0 true outFormat :: delta).
        split; [rewrite He; simpl; rewrite <- app_assoc; reflexivity|].
        split; [intros H; discriminate H|].
        split; [exact Hr|].
        split; [|discriminate].
        intros pid. rewrite count_main_cons by exact Hn. apply count_main_copy.
      * exists [NewPageOutput pid0 true outFormat; Panic].
        simpl. rewrite <- app_assoc.
        split; [reflexivity|]. split; [intros H; discriminate H|]. split; [apply storeRel_refl|].
        split; [|discriminate].
        intros pid. rewrite count_main_cons by repeat constructor.
        apply count_main_copy.
Qed.

(** A round for a later format creates a page output of its own, first
    thing, and no other. *)
Lemma renderFormat_copy (st : State) (pid i : nat) (page : Page)
  (f : OutputFormat) :
  0 < i -> crashed st = false -> pages st !! pid = Some page ->
  outputFormats page !! i = Some f ->
  exists rest,
    newEffects st (renderFormat s st (pid, i)) = NewPageOutput pid true f :: rest /\
    noNew rest.
Proof.
  intros Hi Hcr Hpage Hfmt. unfold newEffects, renderFormat.
  rewrite Hcr, Hpage, Hfmt. unfold createOutput.
  destruct (Nat.eqb_spec i 0) as [->|_]; [lia|].
  destruct (newPageOutput s pid true f) as [po [e|]]; simpl.
  - rewrite <- app_assoc, drop_app_length. eexists. split; [reflexivity|].
    repeat constructor.
  - destruct po as [po|].
    + set (st1 := say st [NewPageOutput pid true f]).
      destruct (renderOutput_spec pid page false po st1)
        as (delta & He & Hn & _); [discriminate|].
      rewrite He. simpl. rewrite <- app_assoc, drop_app_length.
      exists delta. split; [reflexivity | exact Hn].
    + simpl. rewrite <- app_assoc, drop_app_length. eexists.
      split; [reflexivity|]. repeat constructor.
Qed.

Lemma effects_grow_step (st : State) (job : nat * nat) :
  exists d, effects (renderFormat s st job) = effects st ++ d.
Proof.
  destruct job as [pid0 i].
  destruct (renderFormat_spec st pid0 i) as (d & He & _). eauto.
Qed.

Lemma effects_grow_run (sched : list (nat * nat)) :
  forall st, exists d, effects (run s sched st) = effects st ++ d.
Proof.
  induction sched as [|job rest IH]; intros st; simpl.
  - exists []. rewrite app_nil_r. reflexivity.
  - destruct (effects_grow_step st job) as (d1 & H1).
    destruct (IH (renderFormat s st job)) as (d2 & H2).
    exists (d1 ++ d2). unfold run in *. rewrite H2, H1, app_assoc. reflexivity.
Qed.

Lemma newEffects_cons (st : State) (job : nat * nat) (rest : list (nat * nat)) :
  newEffects st (run s (job :: rest) st) =
  newEffects st (renderFormat s st job) ++
  newEffects (renderFormat s st job) (run s rest (renderFormat s st job)).
Proof.
  destruct (effects_grow_step st job) as (d1 & H1).
  destruct (effects_grow_run rest (renderFormat s st job)) as (d2 & H2).
  unfold newEffects. change (run s (job :: rest) st)
    with (run s rest (renderFormat s st job)).
  rewrite H2, drop_app_length, H1, drop_app_length.
  rewrite <- app_assoc, drop_app_length. reflexivity.
Qed.

Lemma step_count (st : State) (pid0 i pid : nat) :
  countEff (isMainInit pid) (newEffects st (renderFormat s st (pid0, i))) =
  if fires st pid0 i && (pid =? pid0)%nat then 1 else 0.
Proof.
  destruct (renderFormat_spec st pid0 i) as (d & He & _ & _ & Hcount & _).
  unfold newEffects. rewrite He, drop_app_length. apply Hcount.
Qed.

Lemma step_initDone (st : State) (pid0 i pid : nat) :
  (initDone st pid = true -> initDone (renderFormat s st (pid0, i)) pid = true) /\
  (pid <> pid0 \/ i <> 0 ->
   initDone (renderFormat s st (pid0, i)) pid = initDone st pid) /\
  formatsOf (renderFormat s st (pid0, i)) pid = formatsOf st pid.
Proof.
  destruct (renderFormat_spec st pid0 i) as (d & _ & _ & Hr & _).
  specialize (Hr pid). unfold initDone, formatsOf.
  destruct (pages st !! pid) as [pg|],
           (pages (renderFormat s st (pid0, i)) !! pid) as [pg'|];
    try contradiction; auto.
  destruct Hr as (F & I & N). repeat split; auto.
  intros [H|H]; apply N; [left; exact H | right].
  destruct (Nat.eqb_spec i 0); congruence.
Qed.

Lemma fires_needs (st : State) (pid0 i : nat) :
  fires st pid0 i = true -> i = 0 /\ initDone st pid0 = false.
Proof.
  unfold fires, initDone. intros H.
  apply andb_true_iff in H as [H H3]. apply andb_true_iff in H as [H1 H2].
  apply Nat.eqb_eq in H2. split; [exact H2|].
  destruct (pages st !! pid0) as [pg|]; [|reflexivity].
  apply andb_true_iff in H3 as [H3 _]. destruct (pageOutputInit pg); auto.
Qed.

(** Once the Once of a page has run, no schedule creates its main page
    output again. *)
Lemma run_count_done (sched : list (nat * nat)) :
  forall st pid,
    initDone st pid = true ->
    countEff (isMainInit pid) (newEffects st (run s sched st)) = 0.
Proof.
  induction sched as [|[pid0 i] rest IH]; intros st pid Hd.
  - unfold newEffects. simpl. rewrite drop_all. reflexivity.
  - rewrite newEffects_cons, countEff_app, step_count.
    rewrite IH by (apply step_initDone, Hd).
    destruct (fires st pid0 i) eqn:Hf; [|reflexivity].
    destruct (Nat.eqb_spec pid pid0) as [->|]; [|reflexivity].
    apply fires_needs in Hf as [_ Hf]. congruence.
Qed.

Lemma run_count_le (sched : list (nat * nat)) :
  forall st pid,
    countEff (isMainInit pid) (newEffects st (run s sched st)) <= 1.
Proof.
  induction sched as [|[pid0 i] rest IH]; intros st pid.
  - unfold newEffects. simpl. rewrite drop_all.
    change (countEff (isMainInit pid) []) with 0. lia.
  - rewrite newEffects_cons, countEff_app, step_count.
    destruct (fires st pid0 i && (pid =? pid0)%nat) eqn:Hf.
    + apply andb_true_iff in Hf as [Hf Hp]. apply Nat.eqb_eq in Hp. subst pid0.
      rewrite run_count_done; [lia|].
      destruct (renderFormat_spec st pid i) as (_ & _ & _ & _ & _ & Hi).
      apply Hi, Hf.
    + specialize (IH (renderFormat s st (pid0, i)) pid). lia.
Qed.

Lemma run_count_no_first (sched : list (nat * nat)) :
  forall st pid,
    ~ In (pid, 0) sched ->
    countEff (isMainInit pid) (newEffects st (run s sched st)) = 0.
Proof.
  induction sched as [|[pid0 i] rest IH]; intros st pid Hnot.
  - unfold newEffects. simpl. rewrite drop_all. reflexivity.
  - rewrite newEffects_cons, countEff_app, step_count.
    rewrite IH by (intros H; apply Hnot; right; exact H).
    destruct (fires st pid0 i) eqn:Hf; [|reflexivity].
    destruct (Nat.eqb_spec pid pid0) as [->|]; [|reflexivity].
    apply fires_needs in Hf as [-> _]. exfalso. apply Hnot. left. reflexivity.
Qed.

Lemma crashed_sticky (sched : list (nat * nat)) :
  forall st, crashed st = true -> crashed (run s sched st) = true.
Proof.
  induction sched as [|[pid0 i] rest IH]; intros st H; [exact H|].
  apply IH. destruct (renderFormat_spec st pid0 i) as (_ & _ & Hc & _).
  apply Hc, H.
Qed.

Lemma run_count_first (sched : list (nat * nat)) :
  forall st pid,
    initDone st pid = false -> formatsOf st pid <> [] ->
    In (pid, 0) sched -> crashed (run s sched st) = false ->
    countEff (isMainInit pid) (newEffects st (run s sched st)) = 1.
Proof.
  induction sched as [|[pid0 i] rest IH]; intros st pid Hinit Hfmt Hin Hcr.
  - destruct Hin.
  - assert (Hcr0 : crashed st = false).
    { destruct (crashed st) eqn:H; [|reflexivity].
      rewrite (crashed_sticky _ st H) in Hcr. discriminate. }
    rewrite newEffects_cons, countEff_app, step_count.
    destruct (decide ((pid0, i) = (pid, 0))) as [Heq|Hne].
    + injection Heq as -> ->.
      assert (Hf : fires st pid 0 = true).
      { unfold fires, initDone, formatsOf in *. rewrite Hcr0. simpl.
        destruct (pages st !! pid) as [pg|]; [|congruence].
        rewrite Hinit. simpl. destruct (outputFormats pg); [congruence | reflexivity]. }
      rewrite Hf, Nat.eqb_refl. cbn [andb].
      rewrite run_count_done; [reflexivity|].
      destruct (renderFormat_spec st pid 0) as (_ & _ & _ & _ & _ & Hi).
      apply Hi, Hf.
    + assert (Hnf : fires st pid0 i && (pid =? pid0)%nat = false).
      { destruct (fires st pid0 i) eqn:Hf; [|reflexivity].
        destruct (Nat.eqb_spec pid pid0) as [->|]; [|reflexivity].
        apply fires_needs in Hf as [-> _]. congruence. }
      rewrite Hnf, Nat.add_0_l.
      destruct (step_initDone st pid0 i pid) as (_ & Hsame & Hfs).
      apply IH.
      * rewrite Hsame; [exact Hinit|].
        destruct (decide (pid = pid0)) as [->|]; [right | left; assumption].
        intros ->. congruence.
      * rewrite Hfs. exact Hfmt.
      * destruct Hin as [H|H]; [congruence | exact H].
      * exact Hcr.
Qed.

(** A worker that takes pages from the channel one after the other runs
    the rounds of each page in turn. *)
Lemma pageRenderer_run (received : list nat) :
  forall st,
    pageRenderer s received st =
    run s (flat_map (jobsOf st) received) st.
Proof.
  assert (Hjobs : forall sched st pid,
            jobsOf (run s sched st) pid = jobsOf st pid).
  { induction sched as [|[pid0 i] rest IH]; intros st pid; [reflexivity|].
    change (run s ((pid0, i) :: rest) st)
      with (run s rest (renderFormat s st (pid0, i))).
    rewrite IH. unfold jobsOf.
    destruct (renderFormat_spec st pid0 i) as (_ & _ & _ & Hr & _).
    specialize (Hr pid).
    destruct (pages st !! pid), (pages (renderFormat s st (pid0, i)) !! pid);
      try contradiction; auto.
    destruct Hr as (-> & _). reflexivity. }
  induction received as [|pid rest IH]; intros st; [reflexivity|].
  unfold pageRenderer in *. simpl. rewrite IH.
  unfold run. rewrite foldl_app. f_equal.
  clear IH. induction rest as [|pid' rest IH]; [reflexivity|].
  simpl. rewrite IH. f_equal. apply (Hjobs (jobsOf st pid) st pid').
Qed.

(** C4. Whatever the order in which the workers' rounds happen, the main
    page output of a page is created at most once; never again once the
    Once of the page has run; never by a round of a format index other
    than 0; and exactly once when the page has a format, its Once has not
    run, a round of index 0 is scheduled and no worker panics. A round of a
    later format creates a page output of its own. The same holds for one
    worker and the pages it receives. *)
Theorem main_page_output_once (sched : list (nat * nat)) (st : State)
  (pid : nat) :
  let created (st' : State) := countEff (isMainInit pid) (newEffects st st') in
  created (run s sched st) <= 1 /\
  (initDone st pid = true -> created (run s sched st) = 0) /\
  (~ In (pid, 0) sched -> created (run s sched st) = 0) /\
  (initDone st pid = false -> formatsOf st pid <> [] -> In (pid, 0) sched ->
   crashed (run s sched st) = false -> created (run s sched st) = 1) /\
  (forall i page f,
     0 < i -> crashed st = false -> pages st !! pid = Some page ->
     outputFormats page !! i = Some f ->
     exists rest,
       newEffects st (renderFormat s st (pid, i)) =
         NewPageOutput pid true f :: rest /\ noNew rest) /\
  (forall received, created (pageRenderer s received st) <= 1).
Proof.
  intros created. unfold created.
  split; [apply run_count_le|].
  split; [apply run_count_done|].
  split; [apply run_count_no_first|].
  split; [apply run_count_first|].
  split; [intros i page f; apply renderFormat_copy|].
  intros received. rewrite pageRenderer_run. apply run_count_le.
Qed.

End RendererFacts.

(** C4 at a page with the formats HTML and RSS: two workers race for the
    first format and one renders the second; the main page output is
    created once. *)
Lemma main_page_output_once_witness :
  Render.countEff (Render.isMainInit 7)
    (Render.newEffects Samples.store
       (Render.run Samples.site [(7, 0); (7, 0); (7, 1)] Samples.store)) = 1.
Proof.
  destruct (main_page_output_once Samples.site [(7, 0); (7, 0); (7, 1)]
              Samples.store 7) as (_ & _ & _ & Hone & _).
  apply Hone.
  - reflexivity.
  - vm_compute. discriminate.
  - left. reflexivity.
  - vm_compute. reflexivity.
Defined.


(** *** [TargetPath] *)

Section TargetPathFacts.
Import PageM.

Variable d : Deps.

Lemma noOverride_target (p : Page) :
  noOverride d p -> permalinkTarget d p = None.
Proof.
  unfold noOverride, permalinkTarget.
  destruct (Permalinks p !! Section p) as [override|]; [|reflexivity].
  destruct (Expand d override p) as [outfile [e|]]; simpl; [reflexivity|].
  intros H. congruence.
Qed.

(** C8, as the code has it. [TargetPath] resolves, highest first: (1) the
    URL of the page, trimmed, when the trimmed URL is longer than 2 bytes;
    (2) otherwise the expansion of the permalink pattern of the page's
    section, when there is one and it expands without error; (3) otherwise,
    when the trimmed slug is not empty, slug, dot and extension joined
    under the page's directory; (4) otherwise the file name with its
    extension replaced, joined under the page's directory. In (1) and (2) a
    result that ends in a slash gets [index.html]. *)
Theorem TargetPath_precedence (p : Page) :
  let url := GoStr.TrimSpace (Url p) in
  let slug := GoStr.TrimSpace (Slug p) in
  (2 < GoStr.len url -> TargetPath d p = withIndex url) /\
  (GoStr.len url <= 2 ->
   forall override outfile,
     Permalinks p !! Section p = Some override ->
     Expand d override p = (outfile, None) ->
     TargetPath d p = withIndex outfile) /\
  (GoStr.len url <= 2 -> noOverride d p -> 0 < GoStr.len slug ->
   TargetPath d p =
     GoStr.Join [Dir p; GoStr.TrimSpace (slug +:+ "." +:+ Extension p)]) /\
  (GoStr.len url <= 2 -> noOverride d p -> GoStr.len slug = 0 ->
   TargetPath d p =
     GoStr.Join [Dir p;
                 GoStr.TrimSpace
                   (replaceExtension d
                      (GoStr.TrimSpace (snd (GoStr.Split (FileName p))))
                      (Extension p))]) /\
  (forall outfile,
     withIndex outfile =
       if GoStr.HasSuffix outfile "/" then outfile +:+ "index.html" else outfile).
Proof.
  intros url slug. unfold TargetPath. fold url slug.
  split; [|split; [|split; [|split]]].
  - intros H. apply Nat.ltb_lt in H. rewrite H. reflexivity.
  - intros H override outfile Ho He. apply Nat.ltb_ge in H. rewrite H.
    unfold permalinkTarget. rewrite Ho, He. reflexivity.
  - intros H Hno Hs. apply Nat.ltb_ge in H. rewrite H.
    rewrite (noOverride_target p Hno).
    apply Nat.ltb_lt in Hs. rewrite Hs. reflexivity.
  - intros H Hno Hs. apply Nat.ltb_ge in H. rewrite H.
    rewrite (noOverride_target p Hno), Hs. simpl.
    destruct (GoStr.Split (FileName p)) as [dir t]. reflexivity.
  - reflexivity.
Qed.

End TargetPathFacts.

(** C8 as stated fails on a short URL: a page with [url: /a] and a slug
    is written under its directory by its slug, not at the URL. The length
    that counts is that of the trimmed URL: seven bytes that trim to [/a]
    fare the same. *)
Lemma short_url_not_used :
  PageM.Url Samples.shortUrlPage = "/a" /\
  PageM.TargetPath Samples.deps Samples.shortUrlPage = "post/s.html" /\
  PageM.TargetPath Samples.deps Samples.shortUrlPage
    <> PageM.withIndex (PageM.Url Samples.shortUrlPage) /\
  GoStr.len (PageM.Url Samples.paddedShortUrlPage) = 7 /\
  GoStr.TrimSpace (PageM.Url Samples.paddedShortUrlPage) = "/a" /\
  PageM.TargetPath Samples.deps Samples.paddedShortUrlPage = "post/s.html" /\
  PageM.TargetPath Samples.deps Samples.paddedShortUrlPage
    <> PageM.withIndex (PageM.Url Samples.paddedShortUrlPage).
Proof. vm_compute. repeat split; discriminate. Qed.

(** C8 at a page with [url: /about/], at the same URL between white
    space, which is used trimmed, and at a padded URL too short to be
    used, where the trimmed slug names the file. *)
Lemma TargetPath_precedence_witness :
  PageM.TargetPath Samples.deps Samples.aboutPage = "/about/index.html" /\
  PageM.TargetPath Samples.deps Samples.paddedAboutPage = "/about/index.html" /\
  PageM.TargetPath Samples.deps Samples.paddedShortUrlPage = "post/s.html".
Proof.
  split; [|split].
  - destruct (TargetPath_precedence Samples.deps Samples.aboutPage) as (Hurl & _).
    rewrite Hurl; [reflexivity|]. vm_compute. lia.
  - destruct (TargetPath_precedence Samples.deps Samples.paddedAboutPage)
      as (Hurl & _).
    rewrite Hurl; [reflexivity|]. vm_compute. lia.
  - destruct (TargetPath_precedence Samples.deps Samples.paddedShortUrlPage)
      as (_ & _ & Hslug & _).
    rewrite Hslug; [reflexivity | vm_compute; lia | exact I | vm_compute; lia].
Defined.

(** [strings.TrimSpace] trims Unicode white space, not only the six ASCII
    characters, and trims whole runes only: a byte [0xA0] or [0x85] that is
    not the end of an encoded U+00A0 or U+0085 is no white space. *)
Example trim_unicode_space :
  GoStr.TrimSpace (Samples.nbsp +:+ " /a" +:+ Samples.ideographicSpace +:+
                   String (ascii_of_nat 10) "") = "/a" /\
  GoStr.TrimSpace (Samples.nbsp +:+ Samples.ideographicSpace) = "" /\
  GoStr.TrimSpace (String (ascii_of_nat 160) ("a" +:+ String (ascii_of_nat 133) "")) =
    String (ascii_of_nat 160) ("a" +:+ String (ascii_of_nat 133) "") /\
  GoStr.TrimSpace (" a" +:+ String (ascii_of_nat 226) (String (ascii_of_nat 128) "")) =
    "a" +:+ String (ascii_of_nat 226) (String (ascii_of_nat 128) "").
Proof. repeat split; reflexivity. Qed.

(** C10 at a page of thirty words. *)
Lemma analyzePage_witness :
  PageM.FuzzyWordCount (PageM.analyzePage Samples.deps Samples.thirtyWords) = 100%Z /\
  PageM.ReadingTime (PageM.analyzePage Samples.deps Samples.thirtyWords) = 1%Z.
Proof.
  destruct (analyzePage_fuzzy_and_reading_time Samples.deps) as [Han _].
  destruct (Han Samples.thirtyWords) as (H0 & Hf & _ & _ & _ & Hr & _).
  { vm_compute. discriminate. }
  assert (Hwc : PageM.WordCount
                  (PageM.analyzePage Samples.deps Samples.thirtyWords) = 30%Z)
    by reflexivity.
  rewrite Hwc in Hf, Hr. split; [rewrite Hf; reflexivity | lia].
Defined.

(** [pickOneWriteOrCreatePath] at a batch where a directory and two files
    of equal length change: the first of the two files is picked. *)
Example pick_first_of_longest :
  Pick.pickOneWriteOrCreatePath
    [Fsnotify.mkEvent "content/post" Fsnotify.Write;
     Fsnotify.mkEvent "content/post/a.md" Fsnotify.Chmod;
     Fsnotify.mkEvent "content/post/b.md" Fsnotify.Write;
     Fsnotify.mkEvent "content/post/c.md" Fsnotify.Create]
  = "content/post/b.md".
Proof. reflexivity. Qed.

(** *** The watcher's event loop: what a batch can and cannot cause *)

Section WatcherBatchFacts.
Import Fsnotify Watcher WatcherRead.

Variable env : Env.

Lemma chmodOnly_has_chmod (ev : Event) :
  chmodOnly ev = true -> has Chmod ev = true.
Proof.
  unfold chmodOnly, has. intros H. apply Z.eqb_eq in H. apply Z.eqb_eq.
  change (Z.lor (Z.lor Chmod Write) Create) with 19%Z in H.
  change Chmod with 16%Z in *.
  replace (Z.land (Op ev) 16) with (Z.land (Z.land (Op ev) 19) 16).
  - rewrite H. reflexivity.
  - rewrite <- Z.land_assoc. reflexivity.
Qed.

(** Whatever the first loop appends for an event comes from that event. *)
Lemma filterLoop_from (cs : gmap string bool) (Q : Event -> Prop)
  (evs : list Event) :
  (forall ev ev', In ev evs -> rewrites env ev ev' -> Q ev') ->
  forall filtered,
    Forall Q filtered -> Forall Q (snd (filterLoop env cs evs filtered)).
Proof.
  induction evs as [|ev rest IH]; intros HQ filtered Hf; simpl; [exact Hf|].
  assert (HQ' : forall e e', In e rest -> rewrites env e e' -> Q e').
  { intros e e' Hin. apply HQ. right. exact Hin. }
  destruct (inConfigSet cs (Name ev)).
  - destruct (has Chmod ev); [apply IH; assumption | exact Hf].
  - destruct (0 <? length (GetSymbolicLinkMappings env (Name ev)))%nat.
    + apply IH; [exact HQ'|]. apply Forall_app. split; [exact Hf|].
      apply Forall_map, List.Forall_forall. intros mapped Hm.
      apply (HQ ev); [left; reflexivity|].
      split; [reflexivity|]. right. left. exact Hm.
    + destruct (GoStr.Split (Name ev)) as [dir name] eqn:Hsplit.
      destruct (length (GetSymbolicLinkMappings env dir) =? 0)%nat.
      * apply IH; [exact HQ'|]. apply Forall_app. split; [exact Hf|].
        constructor; [|constructor].
        apply (HQ ev); [left; reflexivity|].
        split; [reflexivity|]. left. reflexivity.
      * apply IH; [exact HQ'|]. apply Forall_app. split; [exact Hf|].
        apply Forall_map, List.Forall_forall. intros mapped Hm.
        apply (HQ ev); [left; reflexivity|].
        split; [reflexivity|]. right. right. exists mapped.
        rewrite Hsplit. split; [exact Hm | reflexivity].
Qed.

(** X1. The symbolic link rewriting of the first loop keeps the operation:
    every event it hands to the classification has the operation bits of an
    event of the batch, and is that event, or that event renamed to a
    mapping of its name, or to its file name joined to a mapping of its
    directory. *)
Theorem symlink_rewrite_keeps_op (evs : list Event) :
  Forall (fun ev' => exists ev, In ev evs /\ rewrites env ev ev')
         (snd (filterLoop env (mkConfigSet (configFiles env)) evs [])).
Proof.
  apply filterLoop_from; [|constructor].
  intros ev ev' Hin Hr. exists ev. split; assumption.
Qed.

Lemma classifyLoop_skipped (evs : list Event) :
  Forall (fun ev => skipped ev = true) evs ->
  forall adds st dyn, classifyLoop env evs adds st dyn = (adds, st, dyn).
Proof.
  induction 1 as [|ev rest Hev Hrest IH]; intros adds st dyn; [reflexivity|].
  simpl. unfold skipped in Hev.
  destruct (istemp ev); [apply IH|].
  destruct (String.eqb (Name ev) ""); [apply IH|].
  destruct (chmodOnly ev); [apply IH | discriminate Hev].
Qed.

Lemma handleEvents_skipped (evs : list Event) :
  length evs <= 50 ->
  fst (filterLoop env (mkConfigSet (configFiles env)) evs []) = false ->
  Forall (fun ev => skipped ev = true)
         (snd (filterLoop env (mkConfigSet (configFiles env)) evs [])) ->
  handleEvents env evs = [].
Proof.
  intros Hlen Hfst Hsk. unfold handleEvents.
  destruct (Nat.ltb_spec 50 (length evs)) as [H|_]; [lia|].
  destruct (filterLoop env (mkConfigSet (configFiles env)) evs [])
    as [b filtered].
  simpl in Hfst, Hsk. subst b.
  rewrite (classifyLoop_skipped filtered Hsk). reflexivity.
Qed.

(** X2. A batch of metadata changes does nothing: when every event of a
    batch of at most 50 has [Chmod] without [Write] or [Create], then
    whatever the config files, the symbolic links and the static
    directories are, the pass calls no collaborator at all. *)
Theorem chmod_only_batch_ignored (evs : list Event) :
  length evs <= 50 ->
  Forall (fun ev => chmodOnly ev = true) evs ->
  handleEvents env evs = [].
Proof.
  intros Hlen Hch. apply handleEvents_skipped; [exact Hlen | |].
  - apply (filterLoop_app env (mkConfigSet (configFiles env)) evs []).
    eapply Forall_impl; [exact Hch|]. intros ev Hev. simpl in Hev.
    rewrite (chmodOnly_has_chmod ev Hev). apply andb_false_r.
  - apply filterLoop_from; [|constructor].
    intros ev ev' Hin [Hop _]. unfold skipped.
    assert (Hc : chmodOnly ev' = true).
    { rewrite List.Forall_forall in Hch. specialize (Hch ev Hin).
      unfold chmodOnly in *. rewrite Hop. exact Hch. }
    rewrite Hc. rewrite !orb_true_r. reflexivity.
Qed.

(** X3. A batch of noise does nothing: with no symbolic link mappings and
    no config change in the batch, a batch of at most 50 events each of
    which is a temporary file, has an empty name or is a bare [Chmod]
    calls no collaborator: no sync, no rebuild, no reload. *)
Theorem noise_batch_ignored (evs : list Event) :
  length evs <= 50 ->
  (forall name, GetSymbolicLinkMappings env name = []) ->
  Forall (fun ev => isConfigChange env ev = false) evs ->
  Forall (fun ev => skipped ev = true) evs ->
  handleEvents env evs = [].
Proof.
  intros Hlen Hno Hcfg Hsk. apply handleEvents_skipped; [exact Hlen | |].
  - apply (filterLoop_app env (mkConfigSet (configFiles env)) evs []).
    exact Hcfg.
  - apply filterLoop_from; [|constructor].
    intros ev ev' Hin [Hop [Heq | [Hm | [mapped [Hm _]]]]].
    + subst ev'. rewrite List.Forall_forall in Hsk. apply Hsk, Hin.
    + rewrite Hno in Hm. destruct Hm.
    + rewrite Hno in Hm. destruct Hm.
Qed.

Lemma walkAdder_kinds (entries : list (string * bool)) :
  forall adds dyn,
    Forall (fun a => isWatcherAdd a = true) adds ->
    Forall (fun ev => isStatic env (Name ev) = false) dyn ->
    Forall (fun a => isWatcherAdd a = true) (fst (walkAdder env entries adds dyn)) /\
    Forall (fun ev => isStatic env (Name ev) = false)
           (snd (walkAdder env entries adds dyn)).
Proof.
  induction entries as [|[path isDir] rest IH]; intros adds dyn Ha Hd; simpl;
    [split; assumption|].
  assert (Ha' : Forall (fun a => isWatcherAdd a = true) (adds ++ [WatcherAdd path])).
  { apply Forall_app. split; [exact Ha | repeat constructor]. }
  destruct isDir.
  - destruct (watcherAddOk env path); [apply IH; assumption | split; assumption].
  - destruct (isStatic env path) eqn:Hs; simpl; [apply IH; assumption|].
    apply IH; [exact Ha|]. apply Forall_app. split; [exact Hd|].
    constructor; [exact Hs | constructor].
Qed.

(** The second loop only adds watches, puts only static paths among the
    static events and only other paths among the dynamic ones. *)
Lemma classifyLoop_kinds (evs : list Event) :
  forall adds st dyn,
    Forall (fun a => isWatcherAdd a = true) adds ->
    Forall (fun ev => isStatic env (Name ev) = true) st ->
    Forall (fun ev => isStatic env (Name ev) = false) dyn ->
    Forall (fun a => isWatcherAdd a = true)
           (fst (fst (classifyLoop env evs adds st dyn))) /\
    Forall (fun ev => isStatic env (Name ev) = true)
           (snd (fst (classifyLoop env evs adds st dyn))) /\
    Forall (fun ev => isStatic env (Name ev) = false)
           (snd (classifyLoop env evs adds st dyn)).
Proof.
  induction evs as [|ev rest IH]; intros adds st dyn Ha Hs Hd; simpl;
    [split; [|split]; assumption|].
  destruct (istemp ev); [apply IH; assumption|].
  destruct (String.eqb (Name ev) ""); [apply IH; assumption|].
  destruct (chmodOnly ev); [apply IH; assumption|].
  assert (Hw : Forall (fun a => isWatcherAdd a = true)
                 (fst (if has Create ev && statIsDir env (Name ev)
                       then walkAdder env (SymbolicWalk env (Name ev)) adds dyn
                       else (adds, dyn))) /\
               Forall (fun e => isStatic env (Name e) = false)
                 (snd (if has Create ev && statIsDir env (Name ev)
                       then walkAdder env (SymbolicWalk env (Name ev)) adds dyn
                       else (adds, dyn)))).
  { destruct (has Create ev && statIsDir env (Name ev));
      [apply walkAdder_kinds; assumption | split; assumption]. }
  destruct (if has Create ev && statIsDir env (Name ev)
            then walkAdder env (SymbolicWalk env (Name ev)) adds dyn
            else (adds, dyn)) as [adds' dyn'].
  destruct Hw as [Ha' Hd']. simpl in Ha', Hd'.
  destruct (isStatic env (Name ev)) eqn:Hst.
  - apply IH; [exact Ha' | | exact Hd'].
    apply Forall_app. split; [exact Hs | repeat constructor; exact Hst].
  - apply IH; [exact Ha' | exact Hs |].
    apply Forall_app. split; [exact Hd' | repeat constructor; exact Hst].
Qed.

Lemma staticPhase_calls (st : list Event) (a : Action) :
  In a (fst (staticPhase env st)) ->
  st <> [] /\
  (a = CopyStatic \/ a = StopOnErr \/ a = SyncsStaticEvents st \/
   (liveReload env = true /\ syncOk env st = true /\
    exists ev, In ev st /\ a = RefreshPath (MakeStaticPathRelative env (Name ev)))).
Proof.
  unfold staticPhase, syncOk. destruct st as [|ev0 rest]; [intros []|].
  cbn [length Nat.ltb Nat.leb]. set (st := ev0 :: rest).
  intros Hin. split; [discriminate|].
  assert (Hmap : In a (map (fun ev => RefreshPath (MakeStaticPathRelative env (Name ev))) st) ->
                 exists ev, In ev st /\ a = RefreshPath (MakeStaticPathRelative env (Name ev))).
  { intros H. apply in_map_iff in H as [ev [Hev Hi]]. exists ev. split; [exact Hi | symmetry; exact Hev]. }
  destruct (forceSyncStatic env).
  - destruct (copyStaticOk env).
    + simpl in Hin. destruct Hin as [<- | Hin]; [left; reflexivity|].
      destruct (liveReload env); [|destruct Hin].
      right. right. right. split; [reflexivity|]. split; [reflexivity|].
      apply Hmap, Hin.
    + simpl in Hin. destruct Hin as [<- | [<- | []]];
        [left; reflexivity | right; left; reflexivity].
  - destruct (syncsStaticEventsOk env st).
    + simpl in Hin. destruct Hin as [<- | Hin]; [right; right; left; reflexivity|].
      destruct (liveReload env); [|destruct Hin].
      right. right. right. split; [reflexivity|]. split; [reflexivity|].
      apply Hmap, Hin.
    + simpl in Hin. destruct Hin as [<- | []]. right; right; left; reflexivity.
Qed.

Lemma dynamicPhase_calls (dyn : list Event) (a : Action) :
  In a (dynamicPhase env dyn) ->
  dyn <> [] /\
  (a = RebuildSites dyn \/
   (liveReload env = true /\
    (a = ForceRefresh \/
     exists relPermalink port, a = NavigateToPathForPort relPermalink port))).
Proof.
  unfold dynamicPhase. destruct dyn as [|ev0 rest]; [intros []|].
  cbn [length Nat.ltb Nat.leb]. set (dyn := ev0 :: rest).
  intros [<- | Hin]; (split; [discriminate|]); [left; reflexivity|].
  right. destruct (liveReload env); [|destruct Hin].
  split; [reflexivity|].
  destruct (if navigateToChanged env then _ else _) as [[rel port]|];
    destruct Hin as [<- | []]; [right; exists rel, port|left]; reflexivity.
Qed.

(** What an action of the trace of a batch of at most 50 events is: the
    full rebuild after a config change, a watch added by the second loop, a
    call of the static phase on the static events, or, when the static
    phase falls through, a call of the dynamic phase on the dynamic
    events. *)
Lemma handleEvents_calls (evs : list Event) (a : Action) :
  length evs <= 50 ->
  In a (handleEvents env evs) ->
  (a = FullRebuild /\
   fst (filterLoop env (mkConfigSet (configFiles env)) evs []) = true) \/
  isWatcherAdd a = true \/
  In a (fst (staticPhase env (staticOf env evs))) \/
  (snd (staticPhase env (staticOf env evs)) = Proceed /\
   In a (dynamicPhase env (dynamicOf env evs))).
Proof.
  intros Hlen. unfold handleEvents, staticOf, dynamicOf, classified.
  destruct (Nat.ltb_spec 50 (length evs)) as [H|_]; [lia|].
  destruct (filterLoop env (mkConfigSet (configFiles env)) evs [])
    as [b filtered].
  pose proof (classifyLoop_kinds filtered [] [] []
                ltac:(constructor) ltac:(constructor) ltac:(constructor))
    as (Ha & _ & _).
  destruct (classifyLoop env filtered [] [] []) as [[adds st] dyn].
  simpl in Ha. simpl fst. simpl snd.
  destruct (staticPhase env st) as [sacts flow]. simpl fst. simpl snd.
  intros Hin. apply in_app_or in Hin as [Hin | Hin].
  { destruct b; [|destruct Hin]. destruct Hin as [<- | []]. left.
    split; reflexivity. }
  apply in_app_or in Hin as [Hin | Hin].
  { right. left. rewrite List.Forall_forall in Ha. apply Ha, Hin. }
  apply in_app_or in Hin as [Hin | Hin].
  { right. right. left. exact Hin. }
  right. right. right.
  destruct flow; [split; [reflexivity | exact Hin] | destruct Hin | destruct Hin].
Qed.

(** The trace of a batch of at most 50 events, laid out. *)
Lemma handleEvents_layout (evs : list Event) :
  length evs <= 50 ->
  exists pre adds,
    handleEvents env evs =
      pre ++ adds ++ fst (staticPhase env (staticOf env evs)) ++
      match snd (staticPhase env (staticOf env evs)) with
      | Proceed => dynamicPhase env (dynamicOf env evs)
      | _ => []
      end.
Proof.
  intros Hlen. unfold handleEvents, staticOf, dynamicOf, classified.
  destruct (Nat.ltb_spec 50 (length evs)) as [H|_]; [lia|].
  destruct (filterLoop env (mkConfigSet (configFiles env)) evs [])
    as [b filtered].
  destruct (classifyLoop env filtered [] [] []) as [[adds st] dyn].
  simpl fst. simpl snd.
  destruct (staticPhase env st) as [sacts flow]. simpl fst. simpl snd.
  exists (if b then [FullRebuild] else []), adds. reflexivity.
Qed.

(** [walkAdder] appends to what it is given. *)
Lemma walkAdder_appends (entries : list (string * bool)) :
  forall adds dyn,
    snd (walkAdder env entries adds dyn) =
      dyn ++ snd (walkAdder env entries [] []).
Proof.
  induction entries as [|[path isDir] rest IH]; intros adds dyn; simpl;
    [rewrite app_nil_r; reflexivity|].
  destruct isDir.
  - destruct (watcherAddOk env path);
      [rewrite (IH (adds ++ [WatcherAdd path]) dyn), (IH [WatcherAdd path] []);
       reflexivity
      | simpl; rewrite app_nil_r; reflexivity].
  - destruct (isStatic env path); simpl; [apply IH|].
    rewrite (IH adds (dyn ++ [mkEvent path Create])),
            (IH [] [mkEvent path Create]).
    rewrite <- app_assoc. reflexivity.
Qed.

(** The second loop, as what it appends to its two lists: the events it
    does not skip go to the static events when their path is static, and
    to the dynamic events, after the files of a walk, when it is not. *)
Lemma classifyLoop_lists (evs : list Event) :
  forall adds st dyn,
    snd (fst (classifyLoop env evs adds st dyn)) =
      st ++ List.filter (fun ev => negb (skipped ev) && isStatic env (Name ev)) evs /\
    snd (classifyLoop env evs adds st dyn) =
      dyn ++ flat_map (appended env) evs.
Proof.
  induction evs as [|ev rest IH]; intros adds st dyn;
    [simpl; rewrite !app_nil_r; split; reflexivity|].
  cbn [classifyLoop List.filter flat_map]. unfold appended at 1, skipped.
  destruct (istemp ev); [apply IH|].
  destruct (String.eqb (Name ev) ""); [apply IH|].
  destruct (chmodOnly ev); [apply IH|].
  cbn [orb negb andb].
  assert (Hw : snd (if has Create ev && statIsDir env (Name ev)
                    then walkAdder env (SymbolicWalk env (Name ev)) adds dyn
                    else (adds, dyn)) =
               dyn ++ (if has Create ev && statIsDir env (Name ev)
                       then snd (walkAdder env (SymbolicWalk env (Name ev)) [] [])
                       else [])).
  { destruct (has Create ev && statIsDir env (Name ev));
      [apply walkAdder_appends | simpl; rewrite app_nil_r; reflexivity]. }
  destruct (if has Create ev && statIsDir env (Name ev)
            then walkAdder env (SymbolicWalk env (Name ev)) adds dyn
            else (adds, dyn)) as [adds' dyn'].
  simpl in Hw. subst dyn'.
  destruct (isStatic env (Name ev)).
  - destruct (IH adds' (st ++ [ev])
                (dyn ++ (if has Create ev && statIsDir env (Name ev)
                         then snd (walkAdder env (SymbolicWalk env (Name ev)) [] [])
                         else []))) as [H1 H2].
    rewrite H1, H2. rewrite app_nil_r, <- !app_assoc. split; reflexivity.
  - destruct (IH adds' st
                ((dyn ++ (if has Create ev && statIsDir env (Name ev)
                          then snd (walkAdder env (SymbolicWalk env (Name ev)) [] [])
                          else [])) ++ [ev])) as [H1 H2].
    rewrite H1, H2. rewrite <- !app_assoc. split; reflexivity.
Qed.

Lemma classified_lists (evs : list Event) :
  staticOf env evs =
    List.filter (fun ev => negb (skipped ev) && isStatic env (Name ev))
                (filteredOf env evs) /\
  dynamicOf env evs = flat_map (appended env) (filteredOf env evs).
Proof.
  unfold staticOf, dynamicOf, filteredOf, classified.
  destruct (filterLoop env (mkConfigSet (configFiles env)) evs [])
    as [b filtered].
  exact (classifyLoop_lists filtered [] [] []).
Qed.

Lemma classified_kinds (evs : list Event) :
  Forall (fun ev => isStatic env (Name ev) = true) (staticOf env evs) /\
  Forall (fun ev => isStatic env (Name ev) = false) (dynamicOf env evs).
Proof.
  unfold staticOf, dynamicOf, classified.
  destruct (filterLoop env (mkConfigSet (configFiles env)) evs [])
    as [b filtered].
  pose proof (classifyLoop_kinds filtered [] [] []
                ltac:(constructor) ltac:(constructor) ltac:(constructor))
    as (_ & Hs & Hd).
  split; assumption.
Qed.

(** The lists the static syncer and [rebuildSites] are handed are the
    static and the dynamic events of the batch. *)
Lemma handleEvents_handed (evs : list Event) (l : list Event) :
  (In (SyncsStaticEvents l) (handleEvents env evs) ->
   l = staticOf env evs /\ l <> []) /\
  (In (RebuildSites l) (handleEvents env evs) ->
   l = dynamicOf env evs /\ l <> []).
Proof.
  destruct (50 <? length evs)%nat eqn:Hb.
  { unfold handleEvents. rewrite Hb.
    split; intros [Hin | []]; discriminate Hin. }
  apply Nat.ltb_ge in Hb.
  split; intros Hin; apply (handleEvents_calls evs _ Hb) in Hin.
  - destruct Hin as [[Hin _] | [Hin | [Hin | [_ Hin]]]]; try discriminate Hin.
    + apply staticPhase_calls in Hin as [Hne Hin].
      destruct Hin as [Hin | [Hin | [Hin | (_ & _ & ev & _ & Hin)]]];
        try discriminate Hin.
      injection Hin as ->. split; [reflexivity | exact Hne].
    + apply dynamicPhase_calls in Hin
        as [_ [Hin | [_ [Hin | (rel & port & Hin)]]]]; discriminate Hin.
  - destruct Hin as [[Hin _] | [Hin | [Hin | [_ Hin]]]]; try discriminate Hin.
    + apply staticPhase_calls in Hin as [_ Hin].
      destruct Hin as [Hin | [Hin | [Hin | (_ & _ & ev & _ & Hin)]]];
        discriminate Hin.
    + apply dynamicPhase_calls in Hin
        as [Hne [Hin | [_ [Hin | (rel & port & Hin)]]]]; try discriminate Hin.
      injection Hin as ->. split; [reflexivity | exact Hne].
Qed.

Lemma staticPhase_syncs (st : list Event) :
  st <> [] -> In (syncAction env st) (fst (staticPhase env st)).
Proof.
  unfold staticPhase, syncAction. destruct st as [|ev0 rest]; [congruence|].
  intros _. cbn [length Nat.ltb Nat.leb].
  destruct (forceSyncStatic env).
  - destruct (copyStaticOk env); left; reflexivity.
  - destruct (syncsStaticEventsOk env (ev0 :: rest)); left; reflexivity.
Qed.

Lemma staticPhase_proceeds (st : list Event) :
  st = [] \/ syncOk env st = true -> snd (staticPhase env st) = Proceed.
Proof.
  unfold staticPhase, syncOk. destruct st as [|ev0 rest]; [reflexivity|].
  intros [H | H]; [discriminate H|]. cbn [length Nat.ltb Nat.leb].
  destruct (forceSyncStatic env); rewrite H; reflexivity.
Qed.

(** X4. The second loop splits the batch by [isStatic] and loses nothing:
    the static events are the events of [filtered] that are not skipped
    and are on a static path, in their order; the dynamic events are, for
    each event of [filtered] that is not skipped, the files found by the
    walk of a created directory and then the event itself when its path is
    not static. So each event that is not skipped is in exactly the list of
    its kind. The static syncer is only ever handed the static events, and
    [rebuildSites] the dynamic events, neither of them empty; and a batch
    of at most 50 events with static events does sync them, and one with
    dynamic events does rebuild them unless the sync before it failed. *)
Theorem static_dynamic_partition (evs : list Event) (l : list Event) :
  (In (SyncsStaticEvents l) (handleEvents env evs) ->
   l <> [] /\ Forall (fun ev => isStatic env (Name ev) = true) l) /\
  (In (RebuildSites l) (handleEvents env evs) ->
   l <> [] /\ Forall (fun ev => isStatic env (Name ev) = false) l) /\
  staticOf env evs =
    List.filter (fun ev => negb (skipped ev) && isStatic env (Name ev))
                (filteredOf env evs) /\
  dynamicOf env evs = flat_map (appended env) (filteredOf env evs) /\
  (forall ev, In ev (filteredOf env evs) -> skipped ev = false ->
     if isStatic env (Name ev)
     then In ev (staticOf env evs) /\ ~ In ev (dynamicOf env evs)
     else In ev (dynamicOf env evs) /\ ~ In ev (staticOf env evs)) /\
  (In (SyncsStaticEvents l) (handleEvents env evs) -> l = staticOf env evs) /\
  (In (RebuildSites l) (handleEvents env evs) -> l = dynamicOf env evs) /\
  (length evs <= 50 -> staticOf env evs <> [] ->
   In (syncAction env (staticOf env evs)) (handleEvents env evs)) /\
  (length evs <= 50 -> dynamicOf env evs <> [] ->
   staticOf env evs = [] \/ syncOk env (staticOf env evs) = true ->
   In (RebuildSites (dynamicOf env evs)) (handleEvents env evs)).
Proof.
  destruct (classified_lists evs) as [Hst Hdyn].
  destruct (classified_kinds evs) as [Hs Hd].
  destruct (handleEvents_handed evs l) as [Hhs Hhd].
  split; [intros Hin; destruct (Hhs Hin) as [-> Hne]; split; assumption|].
  split; [intros Hin; destruct (Hhd Hin) as [-> Hne]; split; assumption|].
  split; [exact Hst|]. split; [exact Hdyn|].
  split.
  { intros ev Hin Hsk. rewrite List.Forall_forall in Hs, Hd.
    destruct (isStatic env (Name ev)) eqn:Hk.
    - split.
      + rewrite Hst. apply filter_In. split; [exact Hin|].
        rewrite Hsk, Hk. reflexivity.
      + intros Hbad. apply Hd in Hbad. congruence.
    - split.
      + rewrite Hdyn. apply in_flat_map. exists ev. split; [exact Hin|].
        unfold appended. rewrite Hsk, Hk. apply in_or_app. right. left.
        reflexivity.
      + intros Hbad. apply Hs in Hbad. congruence. }
  split; [intros Hin; apply Hhs, Hin|].
  split; [intros Hin; apply Hhd, Hin|].
  split.
  - intros Hlen Hne. destruct (handleEvents_layout evs Hlen) as (pre & adds & ->).
    apply in_or_app. right. apply in_or_app. right. apply in_or_app. left.
    apply staticPhase_syncs, Hne.
  - intros Hlen Hne Hok.
    destruct (handleEvents_layout evs Hlen) as (pre & adds & ->).
    rewrite (staticPhase_proceeds _ Hok).
    apply in_or_app. right. apply in_or_app. right. apply in_or_app. right.
    unfold dynamicPhase. destruct (dynamicOf env evs) as [|ev0 rest];
      [congruence|]. left. reflexivity.
Qed.

Lemma staticPhase_flow (st : list Event) :
  st <> [] -> syncOk env st = false -> snd (staticPhase env st) <> Proceed.
Proof.
  unfold staticPhase, syncOk. destruct st as [|ev0 rest]; [congruence|].
  intros _. cbn [length Nat.ltb Nat.leb].
  destruct (forceSyncStatic env); intros ->; simpl; discriminate.
Qed.

Lemma no_config_no_break (evs : list Event) :
  Forall (fun ev => isConfigChange env ev = false) evs ->
  fst (filterLoop env (mkConfigSet (configFiles env)) evs []) = false.
Proof.
  intros Hno.
  exact (proj1 (filterLoop_app env (mkConfigSet (configFiles env)) evs [] Hno [])).
Qed.

(** X5. A failed static sync costs the batch its rebuild: when a batch of
    at most 50 events holds no config change, its static events are not
    empty and their sync fails, the pass stops there ([continue] after
    [syncsStaticEvents], exit after [copyStatic]): the dynamic events of
    the same batch are not rebuilt, and nothing is called that reaches
    live reload, [c.fullRebuild()] included. *)
Theorem failed_static_sync_skips_rebuild (evs : list Event) :
  length evs <= 50 ->
  Forall (fun ev => isConfigChange env ev = false) evs ->
  staticOf env evs <> [] ->
  syncOk env (staticOf env evs) = false ->
  In (syncAction env (staticOf env evs)) (handleEvents env evs) /\
  Forall (fun a => isRebuildSites a = false /\ isLiveReloadCall a = false)
         (handleEvents env evs).
Proof.
  intros Hlen Hno Hne Hfail. split.
  { destruct (handleEvents_layout evs Hlen) as (pre & adds & ->).
    apply in_or_app. right. apply in_or_app. right. apply in_or_app. left.
    apply staticPhase_syncs, Hne. }
  apply List.Forall_forall. intros a Hin.
  apply (handleEvents_calls evs a Hlen) in Hin.
  destruct Hin as [[_ Hb] | [Hin | [Hin | [Hflow _]]]].
  - rewrite (no_config_no_break evs Hno) in Hb. discriminate Hb.
  - destruct a; try discriminate Hin. split; reflexivity.
  - apply staticPhase_calls in Hin as [_ Hin].
    destruct Hin as [-> | [-> | [-> | (_ & Hok & _)]]];
      try (split; reflexivity).
    congruence.
  - exfalso. exact (staticPhase_flow _ Hne Hfail Hflow).
Qed.

(** X6. Without live reload nothing is sent to the browser: when the
    command only watches ([buildWatch]) or [disableLiveReload] is set in
    the configuration the pass reads, a pass over a batch of at most 50
    events that holds no config change calls nothing that reaches
    [livereload]. A config change, or a batch of more than 50 events, goes
    to [c.fullRebuild()], which reads the setting anew from the
    configuration it loads. *)
Theorem no_live_reload_when_off (evs : list Event) :
  liveReload env = false ->
  length evs <= 50 ->
  Forall (fun ev => isConfigChange env ev = false) evs ->
  Forall (fun a => isLiveReloadCall a = false) (handleEvents env evs).
Proof.
  intros Hoff Hlen Hno. apply List.Forall_forall. intros a Hin.
  apply (handleEvents_calls evs a Hlen) in Hin.
  destruct Hin as [[_ Hb] | [Hin | [Hin | [_ Hin]]]].
  - rewrite (no_config_no_break evs Hno) in Hb. discriminate Hb.
  - destruct a; try discriminate Hin. reflexivity.
  - apply staticPhase_calls in Hin as [_ Hin].
    destruct Hin as [-> | [-> | [-> | (Hon & _)]]]; try reflexivity.
    congruence.
  - apply dynamicPhase_calls in Hin as [_ [-> | [Hon _]]]; [reflexivity|].
    congruence.
Qed.

End WatcherBatchFacts.

Lemma configSet_fold (files : list string) (name : string) :
  forall m : gmap string bool,
    default false (foldl (fun m f => <[f := true]> m) m files !! name) = true <->
    In name files \/ default false (m !! name) = true.
Proof.
  induction files as [|f files IH]; intros m; simpl.
  - split; [intros H; right; exact H | intros [[] | H]; exact H].
  - rewrite IH. destruct (decide (f = name)) as [-> | Hne].
    + rewrite lookup_insert_eq. simpl.
      split; intros _; [left; left; reflexivity | right; reflexivity].
    + rewrite lookup_insert_ne by exact Hne.
      split.
      * intros [H | H]; [left; right; exact H | right; exact H].
      * intros [[H | H] | H]; [congruence | left; exact H | right; exact H].
Qed.

(** The config set holds the registered config files and nothing
    else: a name reads true in it exactly when it is one of [c.configFiles]. *)
Theorem config_set_membership (files : list string) (name : string) :
  Watcher.inConfigSet (Watcher.mkConfigSet files) name = true <-> In name files.
Proof.
  unfold Watcher.inConfigSet, Watcher.mkConfigSet.
  rewrite configSet_fold. rewrite lookup_empty. simpl.
  split; [intros [H | H]; [exact H | discriminate H] | intros H; left; exact H].
Qed.

(** X2 at three metadata changes, one of them on the config file. *)
Lemma chmod_only_batch_witness :
  Watcher.handleEvents Samples.serverEnv MoreSamples.chmods = [].
Proof.
  apply (chmod_only_batch_ignored Samples.serverEnv MoreSamples.chmods).
  - vm_compute. lia.
  - repeat constructor.
Defined.

(** X3 at a batch of editor droppings. *)
Lemma noise_batch_witness :
  Watcher.handleEvents Samples.serverEnv MoreSamples.droppings = [].
Proof.
  apply (noise_batch_ignored Samples.serverEnv MoreSamples.droppings).
  - vm_compute. lia.
  - intros name. reflexivity.
  - repeat constructor.
  - repeat constructor.
Defined.

(** X5 at a change of a style sheet and of a page in one batch, with a
    static syncer that fails: only the sync is attempted. *)
Lemma failed_static_sync_witness :
  Watcher.handleEvents MoreSamples.brokenSyncEnv MoreSamples.staticAndContent =
    [Watcher.SyncsStaticEvents [Fsnotify.mkEvent "static/css/main.css" Fsnotify.Write]] /\
  In (Watcher.syncAction MoreSamples.brokenSyncEnv
        (WatcherRead.staticOf MoreSamples.brokenSyncEnv MoreSamples.staticAndContent))
     (Watcher.handleEvents MoreSamples.brokenSyncEnv MoreSamples.staticAndContent) /\
  Forall (fun a => WatcherRead.isRebuildSites a = false /\
                   WatcherRead.isLiveReloadCall a = false)
         (Watcher.handleEvents MoreSamples.brokenSyncEnv MoreSamples.staticAndContent).
Proof.
  split; [reflexivity|].
  apply (failed_static_sync_skips_rebuild MoreSamples.brokenSyncEnv
           MoreSamples.staticAndContent).
  - vm_compute. lia.
  - repeat constructor.
  - vm_compute. discriminate.
  - reflexivity.
Defined.

(** X6 at a new directory and a changed page under [--watch]: the
    directories are added to the watch list and the site is rebuilt, and
    that is all. *)
Lemma no_live_reload_witness :
  Watcher.handleEvents MoreSamples.watchEnv MoreSamples.newDir =
    [Watcher.WatcherAdd "content/new"; Watcher.WatcherAdd "content/new/img";
     Watcher.RebuildSites
       [Fsnotify.mkEvent "content/new/a.md" Fsnotify.Create;
        Fsnotify.mkEvent "content/new" Fsnotify.Create;
        Fsnotify.mkEvent "content/post/a.md" Fsnotify.Write]] /\
  Forall (fun a => WatcherRead.isLiveReloadCall a = false)
         (Watcher.handleEvents MoreSamples.watchEnv MoreSamples.newDir).
Proof.
  split; [reflexivity|].
  apply (no_live_reload_when_off MoreSamples.watchEnv MoreSamples.newDir).
  - reflexivity.
  - vm_compute. lia.
  - repeat constructor.
Defined.

(** The same static change with a change of the config file behind it: the
    sync fails and nothing is rebuilt from the change set, but the pass has
    called [c.fullRebuild()]. *)
Example failed_sync_after_config_change :
  Watcher.handleEvents MoreSamples.brokenSyncEnv
    [Fsnotify.mkEvent "static/css/main.css" Fsnotify.Write;
     Fsnotify.mkEvent "config.toml" Fsnotify.Write] =
    [Watcher.FullRebuild;
     Watcher.SyncsStaticEvents [Fsnotify.mkEvent "static/css/main.css" Fsnotify.Write]].
Proof. reflexivity. Qed.

(** The split of the batch with the new directory. *)
Example split_new_directory :
  WatcherRead.staticOf MoreSamples.watchEnv MoreSamples.newDir = [] /\
  WatcherRead.dynamicOf MoreSamples.watchEnv MoreSamples.newDir =
    [Fsnotify.mkEvent "content/new/a.md" Fsnotify.Create;
     Fsnotify.mkEvent "content/new" Fsnotify.Create;
     Fsnotify.mkEvent "content/post/a.md" Fsnotify.Write].
Proof. split; reflexivity. Qed.

(** *** [fullBuild]: its outcome under every schedule *)

Section BuildOutcome.
Import Build.

Variable env : Env.

Lemma wrap_none (prefix : string) (err : error) :
  wrap prefix err = None <-> err = None.
Proof. destruct err; simpl; split; intros H; congruence. Qed.

(** No failure is seen in an interleaving of two tasks that succeed. *)
Lemma firstFailure_ok (l : list Ev) :
  Interleave (taskEvents env CopyStatic) (taskEvents env BuildSites) l ->
  copyStaticFunc env = None -> buildSitesFunc env = None ->
  firstFailure l = None.
Proof.
  unfold taskEvents. simpl. intros H Hc Hb. rewrite Hc, Hb in H.
  repeat (match goal with
          | H : Interleave _ _ _ |- _ => inversion H; clear H; subst
          end); reflexivity.
Qed.

(** Whether the two phases of [fullBuild] succeed does not depend on the
    schedule. *)
Lemma phases_succeed_iff (sched : list Task) :
  (if cleanDestinationDir env then
     match copyStaticFunc env with
     | Some e => Some e
     | None => buildSitesFunc env
     end
   else firstErr (goAndWait env sched)) = None <->
  snd (copyStatic env) = None /\ buildSites env = None.
Proof.
  rewrite <- (wrap_none "Error copying static files: " (snd (copyStatic env))).
  rewrite <- (wrap_none "Error building site: " (buildSites env)).
  fold (copyStaticFunc env). fold (buildSitesFunc env).
  destruct (cleanDestinationDir env).
  - destruct (copyStaticFunc env); [split; [discriminate | intros [H _]; discriminate H]|].
    split; [intros H; split; [reflexivity | exact H] | intros [_ H]; exact H].
  - destruct (goAndWait_spec env sched) as [Hi Hf]. cbv zeta in Hf. rewrite Hf.
    split; [apply firstFailure_none, Hi | intros [Hc Hb]; apply firstFailure_ok; assumption].
Qed.

(** X7. [fullBuild] returns nil exactly when the static copy and the
    build of the sites both succeed and the garbage collection, if asked
    for, succeeds too; this holds with and without [cleanDestinationDir],
    and under every schedule of the two goroutines. *)
Theorem fullBuild_succeeds_iff (sched : list Task) :
  errorOf (fullBuild env sched) = None <->
  snd (copyStatic env) = None /\ buildSites env = None /\
  (gc env = true -> snd (hugoGC env) = None).
Proof.
  pose proof (phases_succeed_iff sched) as Hp.
  assert (Hfin : forall phases, snd (finish env phases) = None <->
                                (gc env = true -> snd (hugoGC env) = None)).
  { intros phases. unfold finish. destruct (gc env).
    - destruct (snd (hugoGC env)); simpl; split; intros H; try reflexivity.
      + discriminate H.
      + specialize (H eq_refl). discriminate H.
    - simpl. split; [intros _ H; discriminate H | reflexivity]. }
  unfold errorOf, fullBuild. destruct (cleanDestinationDir env).
  - destruct (copyStaticFunc env) as [e|].
    + simpl. split; [discriminate|]. intros (Hc & Hb & _).
      assert (H : Some e = None) by (apply Hp; split; assumption). discriminate H.
    + destruct (buildSitesFunc env) as [e|].
      * simpl. split; [discriminate|]. intros (Hc & Hb & _).
        assert (H : Some e = None) by (apply Hp; split; assumption). discriminate H.
      * rewrite Hfin. destruct Hp as [Hp _]. specialize (Hp eq_refl).
        destruct Hp as [Hc Hb].
        split; [intros H; split; [exact Hc | split; [exact Hb | exact H]] | intros (_ & _ & H); exact H].
  - destruct (firstErr (goAndWait env sched)) as [e|].
    + simpl. split; [discriminate|]. intros (Hc & Hb & _).
      assert (H : Some e = None) by (apply Hp; split; assumption). discriminate H.
    + rewrite Hfin. destruct Hp as [Hp _]. specialize (Hp eq_refl).
      destruct Hp as [Hc Hb].
      split; [intros H; split; [exact Hc | split; [exact Hb | exact H]] | intros (_ & _ & H); exact H].
Qed.

(** X8. The processing statistics under every schedule. When the static
    copy and the build both succeed, every site gets as [Static] the count
    the copy gave for its language, 0 when it gave none, also when the
    garbage collection then fails; [Cleaned] is written, for all sites
    alike, only by a garbage collection that succeeds, and is its count
    converted to [uint64], so that a negative count wraps around. When the
    copy or the build fails no statistics are written. *)
Theorem fullBuild_stats (sched : list Task) :
  (snd (copyStatic env) = None -> buildSites env = None ->
   snd (fst (fullBuild env sched)) =
     map (fun lang =>
            mkStats lang (default 0%Z (fst (copyStatic env) !! lang))
              (if gc env then
                 match snd (hugoGC env) with
                 | None => Some (toUint64 (fst (hugoGC env)))
                 | Some _ => None
                 end
               else None))
         (sites env)) /\
  (snd (copyStatic env) <> None \/ buildSites env <> None ->
   snd (fst (fullBuild env sched)) = []).
Proof.
  pose proof (phases_succeed_iff sched) as Hp.
  assert (Hfin : forall phases,
    snd (copyStatic env) = None ->
    snd (fst (finish env phases)) =
      map (fun lang =>
             mkStats lang (default 0%Z (fst (copyStatic env) !! lang))
               (if gc env then
                  match snd (hugoGC env) with
                  | None => Some (toUint64 (fst (hugoGC env)))
                  | Some _ => None
                  end
                else None))
          (sites env)).
  { intros phases Hc. unfold finish, langCountAfter. rewrite Hc.
    destruct (gc env); [|reflexivity].
    destruct (snd (hugoGC env)); simpl; [reflexivity|].
    rewrite map_map. reflexivity. }
  unfold fullBuild. split.
  - intros Hc Hb. destruct Hp as [_ Hp]. specialize (Hp (conj Hc Hb)).
    destruct (cleanDestinationDir env).
    + destruct (copyStaticFunc env); [discriminate Hp|].
      rewrite Hp. apply Hfin, Hc.
    + rewrite Hp. apply Hfin, Hc.
  - intros Hfail. destruct Hp as [Hp _].
    destruct (cleanDestinationDir env).
    + destruct (copyStaticFunc env); [reflexivity|].
      destruct (buildSitesFunc env); [reflexivity|].
      destruct (Hp eq_refl) as [Hc Hb]. destruct Hfail; contradiction.
    + destruct (firstErr (goAndWait env sched)); [reflexivity|].
      destruct (Hp eq_refl) as [Hc Hb]. destruct Hfail; contradiction.
Qed.

End BuildOutcome.

(** X8 at a build whose collector reports -1: [uint64(count)] is the
    largest [uint64]; the site without static files of its own gets 0. *)
Example fullBuild_negative_gc_count :
  snd (fst (Build.fullBuild MoreSamples.gcBuild [])) =
    [Build.mkStats "en" 12%Z (Some 18446744073709551615%Z);
     Build.mkStats "fr" 0%Z (Some 18446744073709551615%Z)].
Proof. reflexivity. Qed.

(** *** [doWithPublishDirs] *)

Section PublishDirsFacts.
Import Static.

Variable Dirs : Type.
Variable Language : Dirs -> option string.
Variable f : Dirs -> string -> Z * error.
Variable publishDir : string.
Variable languages : list string.

Local Abbreviation loop := (publishLoop Dirs Language f publishDir languages).
Local Abbreviation run := (doWithPublishDirs Dirs Language f publishDir languages).

Lemma publishLoop_app (pre rest : list Dirs) :
  Forall (fun d => snd (f d publishDir) = None) pre ->
  forall langCount,
    snd (loop pre langCount) = None /\
    loop (pre ++ rest) langCount = loop rest (fst (loop pre langCount)).
Proof.
  induction 1 as [|d pre Hd Hpre IH]; intros langCount; [split; reflexivity|].
  simpl. destruct (f d publishDir) as [cnt err]. simpl in Hd. subst err.
  apply IH.
Qed.

(** X9. The loop over the static directories stops at the first one whose
    copy fails: it returns that error and the counts of the directories
    before it, as if they were all there is; the directories after it
    leave no trace in the counts. *)
Theorem doWithPublishDirs_first_error (pre post : list Dirs) (d : Dirs)
  (e : string) :
  Forall (fun d => snd (f d publishDir) = None) pre ->
  snd (f d publishDir) = Some e ->
  run (pre ++ d :: post) = (fst (run pre), Some e).
Proof.
  intros Hpre Hd. unfold doWithPublishDirs.
  destruct (publishLoop_app pre (d :: post) Hpre ∅) as [_ Happ].
  rewrite Happ. simpl. destruct (f d publishDir) as [cnt err].
  simpl in Hd. subst err. reflexivity.
Qed.

Lemma credit_all (cnt : Z) (l : string) (ls : list string) :
  forall m : gmap string Z,
    (In l ls -> foldl (fun m l => <[l := cnt]> m) m ls !! l = Some cnt) /\
    (~ In l ls -> foldl (fun m l => <[l := cnt]> m) m ls !! l = m !! l).
Proof.
  induction ls as [|x ls IH]; intros m; simpl.
  - split; [intros [] | reflexivity].
  - destruct (IH (<[x := cnt]> m)) as [IHin IHout]. split.
    + intros [-> | Hin].
      * destruct (in_dec string_dec l ls) as [Hl | Hl]; [apply IHin, Hl|].
        rewrite (IHout Hl). apply lookup_insert_eq.
      * apply IHin, Hin.
    + intros Hno. rewrite IHout by (intros H; apply Hno; right; exact H).
      apply lookup_insert_ne. intros ->. apply Hno. left. reflexivity.
Qed.

(** X10. A site that is not multihost has one static directory, without a
    language of its own: when its copy succeeds every language of the site
    is credited with the whole count, and no other key is. *)
Theorem single_host_same_count (d : Dirs) (cnt : Z) (l : string) :
  Language d = None ->
  f d publishDir = (cnt, None) ->
  snd (run [d]) = None /\
  (In l languages -> fst (run [d]) !! l = Some cnt) /\
  (~ In l languages -> fst (run [d]) !! l = None).
Proof.
  intros Hl Hf. unfold doWithPublishDirs. simpl. rewrite Hf. simpl.
  unfold credit. rewrite Hl.
  destruct (credit_all cnt l languages ∅) as [Hin Hout].
  split; [reflexivity|]. split; [exact Hin|].
  intros H. rewrite (Hout H). apply lookup_empty.
Qed.

Lemma publishLoop_untouched (lang : string) (cfg : list Dirs) :
  Forall (fun d => Language d <> None) cfg ->
  ~ In (Some lang) (map Language cfg) ->
  forall langCount, fst (loop cfg langCount) !! lang = langCount !! lang.
Proof.
  induction 1 as [|d cfg Hd Hcfg IH]; intros Hno langCount; [reflexivity|].
  simpl. destruct (f d publishDir) as [cnt [e|]]; [reflexivity|].
  rewrite IH by (intros H; apply Hno; right; exact H).
  unfold credit. destruct (Language d) as [l|] eqn:Hl; [|congruence].
  apply lookup_insert_ne. intros ->. apply Hno. left. exact Hl.
Qed.

(** X11. In a multihost site every static directory has a language and no
    two share one: when all copies succeed each language is credited with
    the count of its own directory. *)
Theorem multihost_own_count (cfg : list Dirs) (d : Dirs) (lang : string) :
  Forall (fun d => snd (f d publishDir) = None) cfg ->
  Forall (fun d => Language d <> None) cfg ->
  NoDup (map Language cfg) ->
  In d cfg -> Language d = Some lang ->
  fst (run cfg) !! lang = Some (fst (f d publishDir)).
Proof.
  unfold doWithPublishDirs. generalize (∅ : gmap string Z).
  induction cfg as [|x cfg IH]; intros m Hok Hlang Hnd Hin Hd; [destruct Hin|].
  apply List.Forall_cons_iff in Hok as [Hx Hok].
  apply List.Forall_cons_iff in Hlang as [Hxl Hlang].
  simpl in Hnd. apply NoDup_cons in Hnd as [Hnotin Hnd].
  simpl. destruct (f x publishDir) as [cnt err] eqn:Hfx. simpl in Hx. subst err.
  destruct Hin as [-> | Hin].
  - rewrite Hfx. simpl.
    rewrite publishLoop_untouched; [| exact Hlang |].
    + unfold credit. rewrite Hd. apply lookup_insert_eq.
    + rewrite <- Hd. intros H. apply Hnotin. apply list_elem_of_In. exact H.
  - apply IH; assumption.
Qed.

End PublishDirsFacts.

(** X9 at a multihost site whose second copy fails: the first language
    keeps its count, the third is never copied. *)
Lemma doWithPublishDirs_first_error_witness :
  Static.doWithPublishDirs MoreSamples.StaticDir MoreSamples.dirLang
    MoreSamples.copyOf "public" ["en"; "fr"; "nn"]
    ([MoreSamples.enDir] ++ MoreSamples.frDir :: [MoreSamples.nnDir]) =
  (fst (Static.doWithPublishDirs MoreSamples.StaticDir MoreSamples.dirLang
          MoreSamples.copyOf "public" ["en"; "fr"; "nn"] [MoreSamples.enDir]),
   Some "disk full").
Proof.
  apply (doWithPublishDirs_first_error MoreSamples.StaticDir MoreSamples.dirLang
           MoreSamples.copyOf "public" ["en"; "fr"; "nn"]
           [MoreSamples.enDir] [MoreSamples.nnDir] MoreSamples.frDir "disk full").
  - repeat constructor.
  - reflexivity.
Defined.

(** X10 at a site in two languages with twelve static files. *)
Lemma single_host_same_count_witness :
  fst (Static.doWithPublishDirs MoreSamples.StaticDir MoreSamples.dirLang
         MoreSamples.copyOf "public" ["en"; "fr"] [MoreSamples.oneDir]) !! "fr"
  = Some 12%Z.
Proof.
  apply (single_host_same_count MoreSamples.StaticDir MoreSamples.dirLang
           MoreSamples.copyOf "public" ["en"; "fr"] MoreSamples.oneDir 12 "fr");
    [reflexivity | reflexivity | right; left; reflexivity].
Defined.

(** X11 at a multihost site in two languages. *)
Lemma multihost_own_count_witness :
  fst (Static.doWithPublishDirs MoreSamples.StaticDir MoreSamples.dirLang
         MoreSamples.copyOf "public" ["en"; "nn"]
         [MoreSamples.enDir; MoreSamples.nnDir]) !! "nn"
  = Some 7%Z.
Proof.
  apply (multihost_own_count MoreSamples.StaticDir MoreSamples.dirLang
           MoreSamples.copyOf "public" ["en"; "nn"]
           [MoreSamples.enDir; MoreSamples.nnDir] MoreSamples.nnDir "nn").
  - repeat constructor.
  - repeat constructor; discriminate.
  - repeat constructor; simpl; intros H;
      repeat (apply elem_of_cons in H as [H | H]; [discriminate H|]);
      apply elem_of_nil in H; exact H.
  - right. left. reflexivity.
  - reflexivity.
Defined.

(** *** [initSites], the builds and [fullRebuild] *)

Section SitesFacts.
Import Sites.

Variable w : World.

Lemma say_consistent (st : State) (a : Call) :
  consistent st ->
  (Hugo st <> None -> isNewHugoSites a = false) ->
  (Hugo st = None -> needsSites a = false) ->
  consistent (say st a).
Proof.
  unfold consistent, say. simpl. intros Hc Hnew Hneeds.
  destruct (Hugo st) as [h|].
  - destruct Hc as (pre & post & Hcalls & Hpre & Hpost).
    exists pre, (post ++ [a]). split; [|split].
    + rewrite Hcalls, <- app_assoc. reflexivity.
    + exact Hpre.
    + apply Forall_app. split; [exact Hpost | repeat constructor].
      apply Hnew. discriminate.
  - apply Forall_app. split; [exact Hc | repeat constructor; apply Hneeds; reflexivity].
Qed.

(** [initSites] keeps the calls consistent, and when it returns nil
    [Hugo] is set. *)
Lemma initSites_consistent (st : State) :
  consistent st ->
  consistent (fst (initSites w st)) /\
  c (fst (initSites w st)) = c st /\
  (snd (initSites w st) = None -> Hugo (fst (initSites w st)) <> None).
Proof.
  intros Hc. unfold initSites. destruct (Hugo st) as [h|] eqn:Hh.
  - simpl. split; [|split; [reflexivity | discriminate]].
    unfold consistent in *. rewrite Hh in Hc. simpl.
    destruct Hc as (pre & post & Hcalls & Hpre & Hpost).
    exists pre, (post ++ [ResetLogCounters]). split; [|split].
    + rewrite Hcalls, <- app_assoc. reflexivity.
    + exact Hpre.
    + apply Forall_app. split; [exact Hpost | repeat constructor].
  - destruct (newHugoSites w (calls st)) as [h|e]; simpl.
    + split; [|split; [reflexivity | discriminate]].
      unfold consistent in *. rewrite Hh in Hc. simpl.
      exists (calls st), []. split; [reflexivity|]. split; [exact Hc | constructor].
    + split; [|split; [reflexivity | discriminate]].
      apply say_consistent; [exact Hc | congruence | reflexivity].
Qed.

Lemma initAndBuild_consistent (cfg : BuildCfg) (events : list Fsnotify.Event)
  (st : State) :
  consistent st -> consistent (fst (initAndBuild w cfg events st)).
Proof.
  intros Hc. unfold initAndBuild.
  destruct (initSites_consistent st Hc) as (Hc1 & _ & Hset).
  destruct (initSites w st) as [st1 [e|]]; simpl in *; [exact Hc1|].
  apply say_consistent; [exact Hc1 | reflexivity |].
  intros Hnil. destruct (Hset eq_refl Hnil).
Qed.

Lemma rebuildSites_consistent (events : list Fsnotify.Event) (st : State) :
  consistent st -> consistent (fst (rebuildSites w events st)).
Proof.
  intros Hc. unfold rebuildSites.
  destruct (initSites_consistent st Hc) as (Hc1 & _ & Hset).
  destruct (initSites w st) as [st1 [e|]]; simpl in *; [exact Hc1|].
  apply say_consistent; [exact Hc1 | reflexivity |].
  intros Hnil. destruct (Hset eq_refl Hnil).
Qed.

Lemma fullRebuild_consistent (st : State) :
  consistent st -> consistent (fullRebuild w st).
Proof.
  intros Hc. unfold fullRebuild.
  destruct (loadConfig w (calls st) (c st)) as [c' err].
  assert (Hc1 : consistent (mkState (Hugo st) c' (calls st ++ [LoadConfig]))).
  { apply (say_consistent (mkState (Hugo st) c' (calls st)) LoadConfig);
      [exact Hc | reflexivity | reflexivity]. }
  destruct err as [e|].
  - apply say_consistent; [exact Hc1 | reflexivity | reflexivity].
  - unfold recreateAndBuildSites.
    pose proof (initAndBuild_consistent CreateSitesFromConfig [] _ Hc1) as Hc2.
    destruct (initAndBuild w CreateSitesFromConfig []
                (mkState (Hugo st) c' (calls st ++ [LoadConfig]))) as [st2 [e|]];
      simpl in Hc2.
    + apply say_consistent; [exact Hc2 | reflexivity | reflexivity].
    + destruct (doLiveReload (c st2)); [|exact Hc2].
      apply say_consistent; [exact Hc2 | reflexivity | reflexivity].
Qed.

Lemma run_consistent (ops : list Op) :
  forall st, consistent st -> consistent (run w ops st).
Proof.
  unfold run. induction ops as [|op ops IH]; intros st Hc; simpl; [exact Hc|].
  apply IH. destruct op; simpl.
  - apply initAndBuild_consistent, Hc.
  - apply initAndBuild_consistent, Hc.
  - apply initAndBuild_consistent, Hc.
  - apply rebuildSites_consistent, Hc.
  - apply fullRebuild_consistent, Hc.
Qed.

(** X12. The resident sites are created once and never used before.
    Whatever builds, rebuilds and full rebuilds follow one another from a
    start without sites, and whatever the collaborators answer:
    [Hugo.Build] and [ResetLogCounters] are only called after a
    [NewHugoSites] that succeeded, at most one [NewHugoSites] succeeds, and
    it is not called again afterwards, not even by a full rebuild. *)
Theorem sites_created_once (cm : Commandeer) (ops : list Op) :
  consistent (run w ops (mkState None cm [])).
Proof. apply run_consistent. constructor. Qed.

Lemma visited_kept (cm : Commandeer) (ls : list string) :
  forall (v : gmap string bool) (u : string),
    v !! u = Some true ->
    foldl (fun v l => <[home cm l := true]> v) v ls !! u = Some true.
Proof.
  induction ls as [|x ls IH]; intros v u Hu; simpl; [exact Hu|].
  apply IH. destruct (decide (home cm x = u)) as [<- | Hne].
  - apply lookup_insert_eq.
  - rewrite lookup_insert_ne by exact Hne. exact Hu.
Qed.

Lemma visited_homes (cm : Commandeer) (ls : list string) :
  forall (v : gmap string bool) (l : string),
    In l ls ->
    foldl (fun v l => <[home cm l := true]> v) v ls !! home cm l = Some true.
Proof.
  induction ls as [|x ls IH]; intros v l Hin; simpl; [destruct Hin|].
  destruct Hin as [<- | Hin]; [|apply IH, Hin].
  apply visited_kept, lookup_insert_eq.
Qed.

(** X13. What [rebuildSites] asks the build to render. Once the sites are
    there it calls [Hugo.Build] once, with the events it was given and a
    set of recently visited URLs that keeps every URL the server has seen
    visited; with live reload and fast render on the set also holds the
    home page of every language; otherwise it is the visited set as it
    is. *)
Theorem rebuildSites_recently_visited (events : list Fsnotify.Event)
  (st : State) :
  snd (initSites w st) = None ->
  let st1 := fst (initSites w st) in
  let seen := PeekAllSet w (calls st1) in
  exists visited,
    calls (fst (rebuildSites w events st)) =
      calls st1 ++ [HugoBuild (RecentlyVisited visited) events] /\
    (forall u, seen !! u = Some true -> visited !! u = Some true) /\
    (doLiveReload (c st) = true ->
     GetBool (Cfg (c st)) "disableFastRender" = false ->
     forall l, In l (languages (c st)) -> visited !! home (c st) l = Some true) /\
    (doLiveReload (c st) = false \/
     GetBool (Cfg (c st)) "disableFastRender" = true -> visited = seen).
Proof.
  intros Hok st1 seen. subst st1 seen. unfold rebuildSites.
  assert (Hcm : c (fst (initSites w st)) = c st).
  { unfold initSites. destruct (Hugo st); [reflexivity|].
    destruct (newHugoSites w (calls st)); reflexivity. }
  destruct (initSites w st) as [st1 err]. simpl in Hok, Hcm. subst err.
  simpl. rewrite Hcm.
  exists (visitedFor (c st) (PeekAllSet w (calls st1))).
  split; [reflexivity|]. unfold visitedFor. split; [|split].
  - intros u Hu.
    destruct (doLiveReload (c st) && negb (GetBool (Cfg (c st)) "disableFastRender"));
      [apply visited_kept, Hu | exact Hu].
  - intros Hlive Hfast l Hin. rewrite Hlive, Hfast. simpl.
    apply visited_homes, Hin.
  - intros [Hoff | Hoff]; rewrite Hoff; [reflexivity|].
    rewrite andb_false_r. reflexivity.
Qed.

End SitesFacts.

(** X13 at a server in two languages served below [/docs], after a first
    build has created the sites: the rebuild renders the page that was
    visited and the two home pages. *)
Lemma rebuildSites_recently_visited_witness :
  let st := fst (Sites.buildSites MoreSamples.world
                   (fst (Sites.buildSites MoreSamples.world
                           (Sites.mkState None MoreSamples.commandeer [])))) in
  exists visited,
    Sites.calls (fst (Sites.rebuildSites MoreSamples.world
                        [Fsnotify.mkEvent "content/post/a.md" Fsnotify.Write] st)) =
      [Sites.NewHugoSites false; Sites.NewHugoSites true;
       Sites.HugoBuild Sites.Zero []; Sites.ResetLogCounters;
       Sites.HugoBuild (Sites.RecentlyVisited visited)
         [Fsnotify.mkEvent "content/post/a.md" Fsnotify.Write]] /\
    visited !! "/docs/post/a/" = Some true /\
    visited !! "/docs/" = Some true /\
    visited !! "/docs/fr/" = Some true.
Proof.
  intros st.
  destruct (rebuildSites_recently_visited MoreSamples.world
              [Fsnotify.mkEvent "content/post/a.md" Fsnotify.Write] st eq_refl)
    as (visited & Hcalls & Hkeep & Hhomes & _).
  exists visited. split; [exact Hcalls|]. split; [|split].
  - apply Hkeep. reflexivity.
  - apply (Hhomes eq_refl eq_refl "en"). left. reflexivity.
  - apply (Hhomes eq_refl eq_refl "fr"). right. left. reflexivity.
Defined.

(** *** [pageRenderer]: what a round renders, sends and logs *)

Section RoundFacts.
Import Render RenderRead.

Variable s : Site.

Lemma renderRSS_only_xml (p : PageOutput) :
  Forall (fun e => isXMLWrite e = true) (snd (fst (renderRSS s p))).
Proof.
  unfold renderRSS.
  destruct (isEnabledRSS s); simpl; [|constructor].
  destruct (disableRSS s); simpl; [constructor|].
  match goal with
  | |- context [layoutHandlerFor s ?q] =>
      destruct (layoutHandlerFor s q) as [ls [e|]]; simpl; [constructor|];
      destruct (targetPath s q []) as [t [e|]]; simpl; repeat constructor
  end.
Qed.

Lemma renderPagers_only_pages (p : PageOutput) (pagers : list Pager) :
  forall i,
    Forall (fun e => isPageWrite e = true \/ e = Panic)
           (fst (renderPagers s p i pagers)).
Proof.
  induction pagers as [|pager rest IH]; intros i; simpl; [constructor|].
  destruct (i =? 0)%nat; [apply IH|].
  destruct (pagerNodeOf s p pager) as [node|];
    [|constructor; [right; reflexivity | constructor]].
  destruct (pLayouts s p) as [ls [e|]]; [constructor|].
  destruct (renderAndWritePage s _ _ node ls);
    [constructor; [left; reflexivity | constructor]|].
  specialize (IH (S i)). destruct (renderPagers s p (S i) rest) as [effs out].
  simpl in *. constructor; [left; reflexivity | exact IH].
Qed.

Lemma renderPaginator_only_pages (p : PageOutput) :
  Forall (fun e => isPageWrite e = true \/ e = Panic)
         (fst (renderPaginator s p)).
Proof.
  unfold renderPaginator.
  destruct (paginator p) as [pg|]; [|constructor].
  destruct (createTargetPath s p (outputFormat p) _) as [target [e|]];
    [constructor|].
  destruct (writeDestAlias s target (Permalink s p));
    [constructor; [left; reflexivity | constructor]|].
  pose proof (renderPagers_only_pages p (Pagers pg) 0) as H.
  destruct (renderPagers s p 0 (Pagers pg)) as [effs out].
  constructor; [left; reflexivity | exact H].
Qed.

Lemma sendIfErr_sends (err : error) :
  Forall (fun e => isSendResult e = true) (sendIfErr err).
Proof. destruct err; repeat constructor. Qed.

(** The second half of a round: its effects are appended, and they are a
    logged failure, the work of a feed when the format of the page output
    is named RSS, or the work of a document otherwise. *)
Lemma renderOutput_shape (pid : nat) (page : Page) (shared : bool)
  (po : PageOutput) (st : State) :
  exists d k,
    effects (renderOutput s pid page shared po st) = effects st ++ d /\
    roundShape k d /\
    (k = Feed -> Name (outputFormat po) = "RSS") /\
    (k = Document -> Name (outputFormat po) <> "RSS").
Proof.
  unfold renderOutput.
  destruct (if negb (String.eqb (selfLayout page) "")
            then ([selfLayout page], None) else layouts s po) as [ls [e|]].
  { exists [LogError "Failed to resolve layout output"], Skipped. simpl.
    split; [reflexivity|]. split; [eexists; reflexivity|].
    split; discriminate. }
  destruct (String.eqb_spec (Name (outputFormat po)) "RSS") as [Hrss | Hrss].
  - pose proof (renderRSS_only_xml po) as Hx.
    destruct (renderRSS s po) as [[po' effs] err]. simpl in Hx.
    exists (effs ++ sendIfErr err), Feed.
    split; [|split; [|split; [intros _; exact Hrss | discriminate]]].
    + destruct shared; [|reflexivity]. simpl.
      destruct (pages st !! pid); reflexivity.
    + simpl. apply Forall_app. split.
      * eapply Forall_impl; [exact Hx|]. intros e He. left. exact He.
      * eapply Forall_impl; [apply sendIfErr_sends|]. intros e He. right. exact He.
  - destruct (targetPath s po []) as [target [e|]].
    { exists [LogError "Failed to create target path"], Skipped. simpl.
      split; [reflexivity|]. split; [eexists; reflexivity|].
      split; discriminate. }
    assert (Hsend : forall err,
              Forall (fun e => isPageWrite e = true \/ isSendResult e = true \/ e = Panic)
                     (sendIfErr err)).
    { intros err. eapply Forall_impl; [apply sendIfErr_sends|].
      intros e He. right. left. exact He. }
    destruct (isNode po).
    + pose proof (renderPaginator_only_pages po) as Hp.
      assert (Hp' : Forall (fun e => isPageWrite e = true \/ isSendResult e = true \/ e = Panic)
                      (fst (renderPaginator s po))).
      { eapply Forall_impl; [exact Hp|]. intros e [He | He]; [left | right; right]; exact He. }
      destruct (renderPaginator s po) as [effs [err|]]; simpl in *.
      * eexists _, Document. rewrite <- app_assoc.
        split; [reflexivity|]. split; [|split; [discriminate | intros _; exact Hrss]].
        simpl. constructor; [left; reflexivity|].
        apply Forall_app. split; [apply Hsend|].
        apply Forall_app. split; [exact Hp' | apply Hsend].
      * eexists _, Document. rewrite <- app_assoc.
        split; [reflexivity|]. split; [|split; [discriminate | intros _; exact Hrss]].
        simpl. constructor; [left; reflexivity|].
        apply Forall_app. split; [apply Hsend | exact Hp'].
    + eexists _, Document. split; [reflexivity|].
      split; [|split; [discriminate | intros _; exact Hrss]].
      simpl. constructor; [left; reflexivity | apply Hsend].
Qed.

(** A whole round: the effects appended are at most one [newPageOutput]
    followed by nothing, a panic, a logged failure, or the second half of
    the round. *)
Lemma renderFormat_shape (st : State) (job : nat * nat) :
  exists pre d,
    effects (renderFormat s st job) = effects st ++ pre ++ d /\
    Forall (fun e => isNew e = true) pre /\
    (d = [] \/ d = [Panic] \/ exists k, roundShape k d).
Proof.
  destruct job as [pid i]. unfold renderFormat.
  assert (Hidle : exists pre d,
            effects st = effects st ++ pre ++ d /\
            Forall (fun e => isNew e = true) pre /\
            (d = [] \/ d = [Panic] \/ exists k, roundShape k d)).
  { exists [], []. rewrite app_nil_r. split; [reflexivity|].
    split; [constructor | left; reflexivity]. }
  destruct (crashed st); [exact Hidle|].
  destruct (pages st !! pid) as [page|]; [|exact Hidle].
  destruct (outputFormats page !! i) as [outFormat|]; [|exact Hidle].
  assert (Hrest : forall st1 pre po (err : error) shared,
            effects st1 = effects st ++ pre ->
            Forall (fun e => isNew e = true) pre ->
            exists pre' d,
              effects (match err with
                       | Some _ => say st1 [LogError "Failed to create output page"]
                       | None =>
                           match po with
                           | None => crash st1
                           | Some po => renderOutput s pid page shared po st1
                           end
                       end) = effects st ++ pre' ++ d /\
              Forall (fun e => isNew e = true) pre' /\
              (d = [] \/ d = [Panic] \/ exists k, roundShape k d)).
  { intros st1 pre po err shared He Hpre. destruct err as [e|].
    - exists pre, [LogError "Failed to create output page"]. simpl.
      rewrite He, <- app_assoc. split; [reflexivity|]. split; [exact Hpre|].
      right. right. exists Skipped. eexists. reflexivity.
    - destruct po as [po|].
      + destruct (renderOutput_shape pid page shared po st1) as (d & k & Hd & Hk & _).
        exists pre, d. rewrite Hd, He, <- app_assoc.
        split; [reflexivity|]. split; [exact Hpre|]. right. right. exists k. exact Hk.
      + exists pre, [Panic]. simpl. rewrite He, <- app_assoc.
        split; [reflexivity|]. split; [exact Hpre|]. right. left. reflexivity. }
  unfold createOutput. destruct (i =? 0)%nat.
  - destruct (pageOutputInit page).
    + apply (Hrest st [] (mainPageOutput page) None true);
        [rewrite app_nil_r; reflexivity | constructor].
    + destruct (newPageOutput s pid false outFormat) as [po err].
      apply (Hrest _ [NewPageOutput pid false outFormat] po err true);
        [reflexivity | repeat constructor].
  - destruct (newPageOutput s pid true outFormat) as [po err].
    apply (Hrest _ [NewPageOutput pid true outFormat] po err false);
      [reflexivity | repeat constructor].
Qed.

(** X14. A failure that a round logs is not reported and ends the round:
    when a round of [pageRenderer] logs an error (no page output, no
    layout, no target path), it renders nothing, writes nothing and sends
    nothing to the results channel, so [renderPages] does not see it. *)
Theorem logged_failure_ends_round (st : State) (job : nat * nat) (e : Effect) :
  In e (newEffects st (renderFormat s st job)) ->
  isLogError e = true ->
  Forall (fun e' => isArtifact e' = false /\ isSendResult e' = false)
         (newEffects st (renderFormat s st job)).
Proof.
  unfold newEffects.
  destruct (renderFormat_shape st job) as (pre & d & He & Hpre & Hd).
  rewrite He, drop_app_length. intros Hin Hlog.
  assert (Hpre' : Forall (fun e' => isArtifact e' = false /\ isSendResult e' = false) pre).
  { eapply Forall_impl; [exact Hpre|]. intros x Hx.
    destruct x; try discriminate Hx. split; reflexivity. }
  apply Forall_app. split; [exact Hpre'|].
  apply in_app_or in Hin as [Hin | Hin].
  { rewrite List.Forall_forall in Hpre. specialize (Hpre e Hin).
    destruct e; discriminate. }
  destruct Hd as [-> | [-> | [k Hk]]].
  - destruct Hin.
  - destruct Hin as [<- | []]. discriminate Hlog.
  - destruct k; simpl in Hk.
    + destruct Hk as [what ->]. repeat constructor.
    + rewrite List.Forall_forall in Hk. destruct (Hk e Hin) as [H | H];
        destruct e; discriminate.
    + rewrite List.Forall_forall in Hk. destruct (Hk e Hin) as [H | [H | H]];
        destruct e; discriminate.
Qed.

(** X15. Feeds and documents do not mix. Given a page output whose format
    is named RSS, the round only goes through [renderRSS]: no page is
    rendered with [renderAndWritePage], no alias is written and no
    paginator is rendered. Given any other format, nothing is handed to
    [renderAndWriteXML]. *)
Theorem feed_and_document_apart (pid : nat) (page : Page) (shared : bool)
  (po : PageOutput) (st : State) :
  let d := newEffects st (renderOutput s pid page shared po st) in
  (Name (outputFormat po) = "RSS" -> Forall (fun e => isPageWrite e = false) d) /\
  (Name (outputFormat po) <> "RSS" -> Forall (fun e => isXMLWrite e = false) d).
Proof.
  unfold newEffects.
  destruct (renderOutput_shape pid page shared po st) as (d & k & He & Hk & Hf & Hd).
  rewrite He, drop_app_length. cbv zeta.
  destruct k; simpl in Hk.
  - destruct Hk as [what ->]. split; intros _; repeat constructor.
  - split; intros Hn; [|destruct (Hn (Hf eq_refl))].
    eapply Forall_impl; [exact Hk|]. intros e [H | H]; destruct e; try discriminate; reflexivity.
  - split; intros Hn; [destruct (Hd eq_refl Hn)|].
    eapply Forall_impl; [exact Hk|].
    intros e [H | [H | H]]; destruct e; try discriminate; reflexivity.
Qed.

(** X16. A negative [rssLimit] means no limit, and a list within the limit
    is left alone: when the feed is enabled and the limit is negative or
    not below the length of the page list, [renderRSS] keeps the list and
    does not touch [Data]. *)
Theorem renderRSS_within_limit (p : PageOutput) :
  isEnabledRSS s = true -> disableRSS s = false ->
  (rssLimit s < 0 \/ Z.of_nat (length (Pages p)) <= rssLimit s)%Z ->
  Pages (fst (fst (renderRSS s p))) = Pages p /\
  Data (fst (fst (renderRSS s p))) = Data p.
Proof.
  intros Hen Hdis Hlim. unfold renderRSS. rewrite Hen, Hdis. simpl.
  assert (Hcond : forall n : nat,
            n = length (Pages p) ->
            (0 <=? rssLimit s)%Z && (rssLimit s <? Z.of_nat n)%Z = false).
  { intros n ->. apply andb_false_iff.
    destruct Hlim as [H | H]; [left; apply Z.leb_gt | right; apply Z.ltb_ge]; lia. }
  destruct (String.eqb (kindRSS s) (KindTaxonomy s)); simpl;
    rewrite (Hcond _ eq_refl);
    match goal with
    | |- context [layoutHandlerFor s ?q] =>
        destruct (layoutHandlerFor s q) as [ls [e|]]; simpl;
        [|destruct (targetPath s q []) as [t [e|]]; simpl];
        split; reflexivity
    end.
Qed.

(** X17. [renderRSS] tests the kind right after it has set it to the RSS
    kind, so the date is zeroed only if the RSS kind and the taxonomy kind
    are one and the same constant: as long as they differ, the feed of a
    taxonomy keeps its date like any other. *)
Theorem renderRSS_keeps_date (p : PageOutput) :
  kindRSS s <> KindTaxonomy s ->
  Date (fst (fst (renderRSS s p))) = Date p /\
  (isEnabledRSS s = true -> disableRSS s = false ->
   Kind (fst (fst (renderRSS s p))) = kindRSS s).
Proof.
  intros Hkinds. unfold renderRSS.
  destruct (isEnabledRSS s); simpl; [|split; [reflexivity | discriminate]].
  destruct (disableRSS s); simpl; [split; [reflexivity | discriminate]|].
  destruct (String.eqb_spec (kindRSS s) (KindTaxonomy s)) as [H | _];
    [contradiction|].
  destruct ((0 <=? rssLimit s)%Z &&
            (rssLimit s <? Z.of_nat (length (Pages (setKind p (kindRSS s)))))%Z);
    match goal with
    | |- context [layoutHandlerFor s ?q] =>
        destruct (layoutHandlerFor s q) as [ls [e|]]; simpl;
        [|destruct (targetPath s q []) as [t [e|]]; simpl];
        split; reflexivity
    end.
Qed.

End RoundFacts.

(** X14 at a site where no layout is found: the round creates the page
    output, logs, and that is all. *)
Lemma logged_failure_witness :
  Render.newEffects Samples.store
    (Render.renderFormat MoreSamples.siteNoLayout Samples.store (7, 0)) =
    [Render.NewPageOutput 7 false Samples.html;
     Render.LogError "Failed to resolve layout output"] /\
  Forall (fun e' => RenderRead.isArtifact e' = false /\
                    RenderRead.isSendResult e' = false)
         (Render.newEffects Samples.store
            (Render.renderFormat MoreSamples.siteNoLayout Samples.store (7, 0))).
Proof.
  split; [reflexivity|].
  apply (logged_failure_ends_round MoreSamples.siteNoLayout Samples.store (7, 0)
           (Render.LogError "Failed to resolve layout output")).
  - right. left. reflexivity.
  - reflexivity.
Defined.

(** X16 at a feed of five posts and [rssLimit] -1. *)
Lemma renderRSS_within_limit_witness :
  Render.Pages (fst (fst (Render.renderRSS MoreSamples.siteNoLimit Samples.blogFeed))) =
    Render.Pages Samples.blogFeed /\
  Render.Data (fst (fst (Render.renderRSS MoreSamples.siteNoLimit Samples.blogFeed))) =
    Render.Data Samples.blogFeed.
Proof.
  apply (renderRSS_within_limit MoreSamples.siteNoLimit Samples.blogFeed);
    [reflexivity | reflexivity | left; reflexivity].
Defined.

(** X17 at the sample site, whose kinds are RSS and taxonomy. *)
Lemma renderRSS_keeps_date_witness :
  Render.Date (fst (fst (Render.renderRSS Samples.site Samples.blogFeed))) = 1005%Z.
Proof.
  apply (renderRSS_keeps_date Samples.site Samples.blogFeed). discriminate.
Defined.

(** *** [renderRobotsTXT] and [renderAliases] *)

Section SiteFilesFacts.
Import SiteFiles.

Variable s : Site.

(** X18. [renderRobotsTXT] does not report a template failure. The only
    errors it returns are that of the target path descriptor, before
    anything is rendered, and that of publishing; a failure to render the
    robots layouts is warned about and nil is returned. And it publishes
    only what rendered without error, as [robots.txt]. *)
Theorem renderRobotsTXT_swallows_render_error :
  let rendered :=
    renderForLayouts s "robots"
      (appendThemeTemplates s
         ["robots.txt"; "_default/robots.txt"; "_internal/_default/robots.txt"]) in
  (forall e, snd (renderRobotsTXT s) = Some e ->
     initTargetPathDescriptor s = Some e \/
     (snd rendered = None /\ publish s "robots.txt" (fst rendered) = Some e)) /\
  (forall path content,
     In (Publish path content) (fst (renderRobotsTXT s)) ->
     snd rendered = None /\ path = "robots.txt" /\ content = fst rendered) /\
  (initTargetPathDescriptor s = None -> snd rendered <> None ->
   snd (renderRobotsTXT s) = None).
Proof.
  cbv zeta. unfold renderRobotsTXT.
  destruct (isEnabledRobotsTXT s); simpl;
    [|split; [discriminate | split; [intros ? ? [] | reflexivity]]].
  destruct (enableRobotsTXT s); simpl;
    [|split; [discriminate | split; [intros ? ? [] | reflexivity]]].
  destruct (initTargetPathDescriptor s) as [e0|]; simpl.
  { split; [intros e H; left; exact H|].
    split; [intros ? ? [] | discriminate]. }
  destruct (renderForLayouts s "robots" _) as [buf [e1|]]; simpl.
  - split; [discriminate|]. split; [|reflexivity].
    intros path content [H | [H | []]]; discriminate H.
  - split; [intros e H; right; split; [reflexivity | exact H]|].
    split; [|intros _ H; congruence].
    intros path content [H | [H | []]]; [discriminate H|].
    injection H as <- <-. repeat split.
Qed.

Lemma aliasLoop_sound (p : Page) (f : Format) (aliases : list string) (e : Effect) :
  In e (fst (aliasLoop s p f (Permalink s p f) aliases)) ->
  exists a, In a aliases /\ e = aliasOf s p f a.
Proof.
  induction aliases as [|a rest IH]; simpl; [intros []|].
  destruct (writeDestAlias s (aliasFor f a) (Permalink s p f) p).
  - simpl. intros [<- | []]. exists a. split; [left; reflexivity | reflexivity].
  - destruct (aliasLoop s p f (Permalink s p f) rest) as [effs err]. simpl in *.
    intros [<- | Hin].
    + exists a. split; [left; reflexivity | reflexivity].
    + destruct (IH Hin) as (a' & Ha & He). exists a'. split; [right; exact Ha | exact He].
Qed.

Lemma aliasLoop_complete (p : Page) (f : Format) (aliases : list string) (a : string) :
  snd (aliasLoop s p f (Permalink s p f) aliases) = None ->
  In a aliases ->
  In (aliasOf s p f a) (fst (aliasLoop s p f (Permalink s p f) aliases)).
Proof.
  induction aliases as [|x rest IH]; simpl; [intros _ []|].
  destruct (writeDestAlias s (aliasFor f x) (Permalink s p f) p);
    [discriminate|].
  destruct (aliasLoop s p f (Permalink s p f) rest) as [effs err]. simpl in *.
  intros Herr [<- | Hin]; [left; reflexivity | right; apply IH; assumption].
Qed.

Lemma formatLoop_sound (p : Page) (formats : list Format) (e : Effect) :
  In e (fst (formatLoop s p formats)) ->
  exists f a, In f formats /\ In a (Aliases p) /\ IsHTML f = true /\
              e = aliasOf s p f a.
Proof.
  induction formats as [|f rest IH]; simpl; [intros []|].
  destruct (IsHTML f) eqn:Hhtml; simpl.
  - pose proof (aliasLoop_sound p f (Aliases p) e) as Hs.
    destruct (aliasLoop s p f (Permalink s p f) (Aliases p)) as [effs [err|]];
      simpl in *.
    + intros Hin. destruct (Hs Hin) as (a & Ha & He).
      exists f, a. repeat split; auto.
    + destruct (formatLoop s p rest) as [effs' err']. simpl in *.
      intros Hin. apply in_app_or in Hin as [Hin | Hin].
      * destruct (Hs Hin) as (a & Ha & He). exists f, a. repeat split; auto.
      * destruct (IH Hin) as (f' & a & Hf & Ha & Hh & He).
        exists f', a. repeat split; auto.
  - intros Hin. destruct (IH Hin) as (f' & a & Hf & Ha & Hh & He).
    exists f', a. repeat split; auto.
Qed.

Lemma formatLoop_complete (p : Page) (formats : list Format) (f : Format)
  (a : string) :
  snd (formatLoop s p formats) = None ->
  In f formats -> In a (Aliases p) -> IsHTML f = true ->
  In (aliasOf s p f a) (fst (formatLoop s p formats)).
Proof.
  induction formats as [|x rest IH]; simpl; [intros _ []|].
  intros Herr Hin Ha Hh.
  destruct (IsHTML x) eqn:Hx; simpl in *.
  - pose proof (aliasLoop_complete p x (Aliases p) a) as Hc.
    destruct (aliasLoop s p x (Permalink s p x) (Aliases p)) as [effs [err|]];
      simpl in *; [discriminate|].
    destruct (formatLoop s p rest) as [effs' err']. simpl in *.
    apply in_or_app. destruct Hin as [<- | Hin].
    + left. apply Hc; [reflexivity | exact Ha].
    + right. apply IH; assumption.
  - destruct Hin as [<- | Hin]; [congruence|]. apply IH; assumption.
Qed.

Lemma pageLoop_sound (pages : list Page) (e : Effect) :
  In e (fst (pageLoop s pages)) ->
  exists p f a, In p pages /\ In f (outputFormats p) /\ In a (Aliases p) /\
                IsHTML f = true /\ e = aliasOf s p f a.
Proof.
  induction pages as [|p rest IH]; simpl; [intros []|].
  destruct (length (Aliases p) =? 0)%nat.
  - intros Hin. destruct (IH Hin) as (p' & f & a & Hp & H).
    exists p', f, a. split; [right; exact Hp | exact H].
  - pose proof (formatLoop_sound p (outputFormats p) e) as Hs.
    destruct (formatLoop s p (outputFormats p)) as [effs [err|]]; simpl in *.
    + intros Hin. destruct (Hs Hin) as (f & a & H).
      exists p, f, a. split; [left; reflexivity | exact H].
    + destruct (pageLoop s rest) as [effs' err']. simpl in *.
      intros Hin. apply in_app_or in Hin as [Hin | Hin].
      * destruct (Hs Hin) as (f & a & H).
        exists p, f, a. split; [left; reflexivity | exact H].
      * destruct (IH Hin) as (p' & f & a & Hp & H).
        exists p', f, a. split; [right; exact Hp | exact H].
Qed.

Lemma pageLoop_complete (pages : list Page) (p : Page) (f : Format) (a : string) :
  snd (pageLoop s pages) = None ->
  In p pages -> In f (outputFormats p) -> In a (Aliases p) -> IsHTML f = true ->
  In (aliasOf s p f a) (fst (pageLoop s pages)).
Proof.
  induction pages as [|x rest IH]; simpl; [intros _ []|].
  intros Herr Hin Hf Ha Hh.
  destruct (length (Aliases x) =? 0)%nat eqn:Hlen.
  - destruct Hin as [<- | Hin]; [|apply IH; assumption].
    apply Nat.eqb_eq in Hlen. destruct (Aliases x); [destruct Ha | discriminate Hlen].
  - pose proof (formatLoop_complete x (outputFormats x) f a) as Hc.
    destruct (formatLoop s x (outputFormats x)) as [effs [err|]]; simpl in *;
      [discriminate|].
    destruct (pageLoop s rest) as [effs' err']. simpl in *.
    apply in_or_app. destruct Hin as [<- | Hin].
    + left. apply Hc; auto.
    + right. apply IH; assumption.
Qed.

(** X19. The aliases [renderAliases] writes. Every alias written is an
    alias of a page of the site for one of its HTML formats, redirecting
    to the permalink of the page in that format, with the path of the
    format appended when it has one: no alias is written for a format that
    is not HTML. And when [renderAliases] returns nil, every alias of every
    page has been written for each of its HTML formats. *)
Theorem renderAliases_writes :
  (forall path permalink pid,
     In (WriteDestAlias path permalink pid) (fst (renderAliases s)) ->
     exists p f a,
       In p (Pages s) /\ In f (outputFormats p) /\ In a (Aliases p) /\
       IsHTML f = true /\ WriteDestAlias path permalink pid = aliasOf s p f a) /\
  (snd (renderAliases s) = None ->
   forall p f a,
     In p (Pages s) -> In f (outputFormats p) -> In a (Aliases p) ->
     IsHTML f = true ->
     In (aliasOf s p f a) (fst (renderAliases s))).
Proof.
  unfold renderAliases.
  pose proof (pageLoop_sound (Pages s)) as Hs.
  pose proof (pageLoop_complete (Pages s)) as Hc.
  destruct (pageLoop s (Pages s)) as [effs [err|]]; simpl in *.
  { split; [intros path permalink pid Hin; apply Hs, Hin | discriminate]. }
  assert (Htail : forall x tail,
            (forall e, In e tail -> exists b q u, e = PublishDestAlias b q u) ->
            In x (effs ++ tail) ->
            (exists b q u, x = PublishDestAlias b q u) \/ In x effs).
  { intros x tail Ht Hin. apply in_app_or in Hin as [Hin | Hin];
      [right; exact Hin | left; apply Ht, Hin]. }
  assert (Hone : forall b q u e, In e [PublishDestAlias b q u] ->
                                 exists b q u, e = PublishDestAlias b q u).
  { intros b q u e [<- | []]. eauto. }
  destruct (multilingualEnabled s);
    [|split; [intros ? ? ? Hin; apply Hs, Hin
             | intros _ p f a Hp Hf Ha Hh; apply Hc; auto]].
  destruct (defaultContentLanguageInSubdir s); simpl.
  - split.
    + intros path permalink pid Hin.
      apply (Htail _ _ (Hone _ _ _)) in Hin as [(b & q & u & H) | Hin];
        [discriminate H | apply Hs, Hin].
    + intros _ p f a Hp Hf Ha Hh. apply in_or_app. left. apply Hc; auto.
  - split.
    + intros path permalink pid Hin.
      apply (Htail _ _ (Hone _ _ _)) in Hin as [(b & q & u & H) | Hin];
        [discriminate H | apply Hs, Hin].
    + intros _ p f a Hp Hf Ha Hh. apply in_or_app. left. apply Hc; auto.
Qed.

End SiteFilesFacts.

(** The aliases of a page that moved twice, rendered as HTML, JSON and
    AMP, and the redirect to the main language. *)
Example renderAliases_moved_page :
  SiteFiles.renderAliases MoreSamples.filesSite =
    ([SiteFiles.WriteDestAlias "/old/" "http://example.org/new/" 3;
      SiteFiles.WriteDestAlias "/older/" "http://example.org/new/" 3;
      SiteFiles.WriteDestAlias "/old/amp" "http://example.org/new/amp" 3;
      SiteFiles.WriteDestAlias "/older/amp" "http://example.org/new/amp" 3;
      SiteFiles.PublishDestAlias true "en" "http://example.org/"], None).
Proof. reflexivity. Qed.

(** The robots template of the sample site does not render: a warning,
    and nil. *)
Example renderRobotsTXT_broken_template :
  SiteFiles.renderRobotsTXT MoreSamples.filesSite =
    ([SiteFiles.RenderForLayouts "robots"
        ["robots.txt"; "_default/robots.txt"; "_internal/_default/robots.txt"];
      SiteFiles.Warn "template: robots.txt: unexpected EOF"], None).
Proof. reflexivity. Qed.

(** *** The page: text, section, type, layouts, markup and links *)

Section PageTextFacts.
Import PageM PageMore.

Lemma byte_range (c : ascii) : (0 <= Utf8.byte c < 256)%Z.
Proof. unfold Utf8.byte. pose proof (N_ascii_bounded c). lia. Qed.

Lemma toByte_byte (z : Z) : Utf8.byte (Utf8.toByte z) = (z mod 256)%Z.
Proof.
  unfold Utf8.byte, Utf8.toByte.
  pose proof (Z.mod_pos_bound z 256 ltac:(lia)) as Hm.
  rewrite N_ascii_embedding by lia. lia.
Qed.

Lemma isBracket_byte (c : ascii) :
  Ascii.eqb c "<" || Ascii.eqb c ">" = true ->
  (Utf8.byte c = 60 \/ Utf8.byte c = 62)%Z.
Proof.
  intros H. apply orb_true_iff in H as [H | H]; apply Ascii.eqb_eq in H;
    subst c; [left | right]; reflexivity.
Qed.

(** A byte with its high bit set is no angle bracket. *)
Lemma toByte_high (z : Z) :
  Z.testbit z 7 = true ->
  Ascii.eqb (Utf8.toByte z) "<" || Ascii.eqb (Utf8.toByte z) ">" = false.
Proof.
  intros Hbit.
  destruct (Ascii.eqb (Utf8.toByte z) "<" || Ascii.eqb (Utf8.toByte z) ">")
    eqn:Hb; [|reflexivity].
  apply isBracket_byte in Hb. rewrite toByte_byte in Hb.
  assert (Hlow : Z.testbit (z mod 2 ^ 8) 7 = true).
  { rewrite Z.mod_pow2_bits_low by lia. exact Hbit. }
  change (2 ^ 8)%Z with 256%Z in Hlow.
  destruct Hb as [Hb | Hb]; rewrite Hb in Hlow; discriminate Hlow.
Qed.

Lemma lor_high (a b : Z) :
  Z.testbit a 7 = true -> Z.testbit (Z.lor a b) 7 = true.
Proof. intros H. rewrite Z.lor_spec, H. reflexivity. Qed.

(** What [EncodeRune] writes for a rune other than the two brackets holds
    neither of them. *)
Lemma EncodeRune_clean (r : Z) :
  (0 <= r < 2 ^ 32)%Z -> r <> 60%Z -> r <> 62%Z ->
  Forall (fun c => Ascii.eqb c "<" || Ascii.eqb c ">" = false)
         (Utf8.EncodeRune r).
Proof.
  intros Hr H60 H62. unfold Utf8.EncodeRune. rewrite Z.mod_small by exact Hr.
  destruct (Z.leb_spec r 127) as [Hsmall | _].
  - constructor; [|constructor].
    destruct (Ascii.eqb (Utf8.toByte r) "<" || Ascii.eqb (Utf8.toByte r) ">")
      eqn:Hb; [|reflexivity].
    apply isBracket_byte in Hb. rewrite toByte_byte in Hb.
    rewrite Z.mod_small in Hb by lia. destruct Hb; contradiction.
  - destruct (r <=? 2047)%Z;
      [repeat constructor; apply toByte_high, lor_high; reflexivity|].
    destruct ((Utf8.MaxRune <? r)%Z || ((55296 <=? r)%Z && (r <=? 57343)%Z));
      [repeat constructor; apply toByte_high, lor_high; reflexivity|].
    destruct (r <=? 65535)%Z;
      repeat constructor; apply toByte_high, lor_high; reflexivity.
Qed.

Lemma first_spec (s0 : Z) (sz : nat) (lo hi : Z) :
  Utf8.first s0 = Some (sz, lo, hi) ->
  (128 <= lo)%Z /\ (hi <= 191)%Z /\
  ((sz = 2%nat /\ (194 <= s0 <= 223)%Z) \/
   (sz = 3%nat /\ (224 <= s0 <= 239)%Z) \/
   (sz = 4%nat /\ (240 <= s0 <= 244)%Z)).
Proof.
  unfold Utf8.first.
  repeat match goal with
         | |- context [(?a <=? ?b)%Z] => destruct (Z.leb_spec a b)
         | |- context [(?a =? ?b)%Z] => destruct (Z.eqb_spec a b)
         end; simpl; intros Hsome; try discriminate Hsome;
    injection Hsome as <- <- <-; lia.
Qed.

(** The runes [DecodeRune] gives are code points. *)
Lemma DecodeRune_range (l : list ascii) :
  (0 <= fst (Utf8.DecodeRune l) < 2 ^ 32)%Z.
Proof.
  assert (He : (0 <= Utf8.RuneError < 2 ^ 32)%Z) by (unfold Utf8.RuneError; lia).
  unfold Utf8.DecodeRune. destruct l as [|c0 rest]; [exact He|].
  pose proof (byte_range c0) as Hb0.
  destruct (Utf8.byte c0 <? Utf8.RuneSelf)%Z; [simpl; lia|].
  destruct (Utf8.first (Utf8.byte c0)) as [[[sz lo] hi]|] eqn:Hf; [|exact He].
  apply first_spec in Hf as (Hlo & Hhi & Hsz).
  destruct (length (c0 :: rest) <? sz)%nat; [exact He|].
  destruct rest as [|c1 rest1]; [exact He|].
  pose proof (byte_range c1) as Hb1.
  destruct (Z.ltb_spec (Utf8.byte c1) lo); [exact He|].
  destruct (Z.ltb_spec hi (Utf8.byte c1)); [exact He|]. simpl orb. cbv iota.
  destruct (Nat.leb_spec sz 2); [simpl; lia|].
  destruct rest1 as [|c2 rest2]; [exact He|].
  pose proof (byte_range c2) as Hb2. unfold Utf8.isCont.
  destruct (Z.leb_spec 128 (Utf8.byte c2)); [|exact He].
  destruct (Z.leb_spec (Utf8.byte c2) 191); [|exact He]. simpl negb. cbv iota.
  destruct (Nat.leb_spec sz 3); [simpl; lia|].
  destruct rest2 as [|c3 rest3]; [exact He|].
  pose proof (byte_range c3) as Hb3.
  destruct (Z.leb_spec 128 (Utf8.byte c3)); [|exact He].
  destruct (Z.leb_spec (Utf8.byte c3) 191); [|exact He]. simpl; lia.
Qed.

Lemma stripRunes_clean (l : list ascii) :
  forall skip inTag,
    Forall (fun c => Ascii.eqb c "<" || Ascii.eqb c ">" = false)
           (stripRunes l skip inTag).
Proof.
  induction l as [|c l IH]; intros skip inTag; [constructor|].
  cbn [stripRunes]. destruct skip as [|k]; [|apply IH].
  pose proof (DecodeRune_range (c :: l)) as Hr.
  destruct (Utf8.DecodeRune (c :: l)) as [r wid]. simpl in Hr.
  destruct (Z.eqb_spec r 60); [apply IH|].
  destruct (Z.eqb_spec r 62); [apply IH|].
  destruct inTag; [apply IH|].
  apply Forall_app. split; [apply EncodeRune_clean; assumption | apply IH].
Qed.

Lemma containsAny_str (l : list ascii) :
  containsAny (GoStr.str l) ["<"%char; ">"%char] =
  existsb (fun c => Ascii.eqb c "<" || Ascii.eqb c ">") l.
Proof.
  induction l as [|c l IH]; [reflexivity|].
  simpl. rewrite IH, orb_false_r. reflexivity.
Qed.

Lemma stripTags_clean (s : string) :
  forall inTag, containsAny (stripTags s inTag) ["<"%char; ">"%char] = false.
Proof.
  intros inTag. unfold stripTags. rewrite containsAny_str.
  pose proof (stripRunes_clean (GoStr.chars s) 0 inTag) as H.
  induction H as [|c l Hc Hl IH]; [reflexivity|].
  simpl. rewrite Hc, IH. reflexivity.
Qed.

(** X20. What [StripHTML] returns holds no angle bracket, whatever the
    input: unbalanced and stray brackets go too. So stripping is
    idempotent: a text that was stripped is returned as it is. *)
Theorem StripHTML_no_angle_brackets (s : string) :
  containsAny (StripHTML s) ["<"%char; ">"%char] = false /\
  StripHTML (StripHTML s) = StripHTML s.
Proof.
  assert (Hclean : containsAny (StripHTML s) ["<"%char; ">"%char] = false).
  { unfold StripHTML.
    destruct (containsAny s ["<"%char; ">"%char]) eqn:Hs; simpl;
      [apply stripTags_clean | exact Hs]. }
  split; [exact Hclean|].
  unfold StripHTML at 1. rewrite Hclean. reflexivity.
Qed.

(** [analyzePage] is idempotent: analysing a page again changes
    nothing, since the plain text kept by [Plain] and the counters derived
    from it are those of the first analysis. *)
Theorem analyzePage_idempotent (d : Deps) (p : Page) :
  analyzePage d (analyzePage d p) = analyzePage d p /\
  snd (Plain d (analyzePage d p)) = snd (Plain d p).
Proof.
  unfold analyzePage, Plain.
  destruct (GoStr.len (plain p) =? 0)%nat eqn:Hp; simpl.
  - destruct (GoStr.len (StripHTML (StripShortcodes d (rawContent p))) =? 0)%nat;
      simpl; split; reflexivity.
  - rewrite Hp. simpl. split; reflexivity.
Qed.

Lemma chars_app (a b : string) :
  GoStr.chars (a +:+ b) = GoStr.chars a ++ GoStr.chars b.
Proof.
  unfold GoStr.chars. induction a as [|c a IH]; simpl; [reflexivity|].
  rewrite IH. reflexivity.
Qed.

Lemma noSlash_cons (c : ascii) (e : string) :
  noSlash (String c e) = true ->
  Ascii.eqb c GoStr.slash = false /\ noSlash e = true.
Proof.
  unfold noSlash. simpl. rewrite orb_false_r. intros H.
  apply negb_true_iff, orb_false_iff in H as [H1 H2].
  split; [exact H1 | rewrite H2; reflexivity].
Qed.

(** Splitting at the slashes passes over an element that has none. *)
Lemma splitSlash_elem (e : string) (rest cur : list ascii) :
  noSlash e = true ->
  GoStr.splitSlash (GoStr.chars e ++ rest) cur =
  GoStr.splitSlash rest (rev (GoStr.chars e) ++ cur).
Proof.
  revert cur. induction e as [|c e IH]; intros cur He; [reflexivity|].
  apply noSlash_cons in He as [Hc He].
  change (GoStr.chars (String c e)) with (c :: GoStr.chars e).
  simpl. rewrite Hc, (IH (c :: cur) He), <- app_assoc. reflexivity.
Qed.

Lemma str_chars (e : string) : GoStr.str (GoStr.chars e) = e.
Proof. apply string_of_list_ascii_of_string. Qed.

Lemma splitSlash_slash (l cur : list ascii) :
  GoStr.splitSlash (GoStr.slash :: l) cur =
  GoStr.str (rev cur) :: GoStr.splitSlash l [].
Proof. reflexivity. Qed.

(** Splitting what was joined with slashes gives the elements back. *)
Lemma splitSlash_joinWith (r : list string) :
  forall x,
    Forall (fun e => noSlash e = true) (x :: r) ->
    GoStr.splitSlash (GoStr.chars (GoStr.joinWith "/" (x :: r))) [] = x :: r.
Proof.
  induction r as [|y r IH]; intros x Hall.
  - apply List.Forall_cons_iff in Hall as [Hx _]. simpl.
    rewrite <- (app_nil_r (GoStr.chars x)), (splitSlash_elem x [] [] Hx).
    simpl. rewrite app_nil_r, rev_involutive, str_chars. reflexivity.
  - apply List.Forall_cons_iff in Hall as [Hx Hr].
    change (GoStr.joinWith "/" (x :: y :: r))
      with (x +:+ "/" +:+ GoStr.joinWith "/" (y :: r)).
    rewrite !chars_app, (splitSlash_elem x _ [] Hx).
    change (GoStr.chars "/" ++ GoStr.chars (GoStr.joinWith "/" (y :: r)))
      with (GoStr.slash :: GoStr.chars (GoStr.joinWith "/" (y :: r))).
    rewrite splitSlash_slash, app_nil_r, rev_involutive, str_chars, (IH y Hr).
    reflexivity.
Qed.

Lemma dirName_parts (e : string) :
  dirName e = true ->
  noSlash e = true /\ String.eqb e "" = false /\ String.eqb e "." = false /\
  String.eqb e ".." = false.
Proof.
  unfold dirName. intros H.
  apply andb_true_iff in H as [H H4]. apply andb_true_iff in H as [H H3].
  apply andb_true_iff in H as [H1 H2].
  apply negb_true_iff in H2, H3, H4. auto.
Qed.

Lemma cleanElems_dirs (rooted : bool) (l : list string) :
  Forall (fun e => dirName e = true) l ->
  forall stack, GoStr.cleanElems rooted l stack = rev l ++ stack.
Proof.
  induction 1 as [|e l He Hl IH]; intros stack; [reflexivity|].
  apply dirName_parts in He as (_ & H1 & H2 & H3).
  simpl. rewrite H1, H2, H3. simpl. rewrite IH, <- app_assoc. reflexivity.
Qed.

(** Joining directory names proper is joining them with slashes: [Clean]
    finds nothing to clean. *)
Lemma Join_dirs (l : list string) :
  Forall (fun e => dirName e = true) l ->
  GoStr.Join l = GoStr.joinWith "/" l.
Proof.
  intros Hall. destruct l as [|x r]; [reflexivity|].
  assert (Hns : Forall (fun e => noSlash e = true) (x :: r)).
  { eapply Forall_impl; [exact Hall|]. intros e He.
    apply dirName_parts in He as [H _]. exact H. }
  pose proof (splitSlash_joinWith r x Hns) as Hsplit.
  pose proof (proj1 (List.Forall_cons_iff _ _ _) Hall) as [Hx _].
  apply dirName_parts in Hx as (Hxs & Hxe & _).
  unfold GoStr.Join. simpl GoStr.dropEmpty. rewrite Hxe.
  unfold GoStr.Clean. rewrite Hsplit.
  destruct x as [|c x]; [discriminate Hxe|].
  apply noSlash_cons in Hxs as [Hc _].
  assert (Hchars : exists tl, GoStr.chars (GoStr.joinWith "/" (String c x :: r)) = c :: tl).
  { destruct r; simpl; eexists; reflexivity. }
  destruct Hchars as [tl Htl]. rewrite Htl. cbv zeta. rewrite Hc.
  rewrite (cleanElems_dirs false (String c x :: r) Hall).
  rewrite app_nil_r, rev_involutive.
  destruct (GoStr.joinWith "/" (String c x :: r)) eqn:Hj; [discriminate Htl|].
  reflexivity.
Qed.

(** X21. The section [guessSection] gives a page that has none is the
    directory of its file, without a leading [content]: for a file name
    made of directory names proper and a file, joined with slashes, it is
    those directories joined with slashes, less the first one when that is
    [content]. A file with no directory gets no section. *)
Theorem guessSection_directory (p : Page) (dirs : list string) (file : string) :
  Section p = "" ->
  FileName p = GoStr.joinWith "/" (dirs ++ [file]) ->
  Forall (fun e => dirName e = true) dirs ->
  noSlash file = true ->
  Section (guessSection p) =
    GoStr.joinWith "/"
      match dirs with
      | x0 :: rest => if String.eqb x0 "content" then rest else dirs
      | [] => []
      end.
Proof.
  intros Hsec Hname Hdirs Hfile. unfold guessSection. rewrite Hsec, Hname.
  simpl String.eqb. cbv iota.
  assert (Hns : Forall (fun e => noSlash e = true) (dirs ++ [file])).
  { apply Forall_app. split; [|repeat constructor; exact Hfile].
    eapply Forall_impl; [exact Hdirs|]. intros e He.
    apply dirName_parts in He as [H _]. exact H. }
  assert (Hsplit : GoStr.splitSlash
                     (GoStr.chars (GoStr.joinWith "/" (dirs ++ [file]))) [] =
                   dirs ++ [file]).
  { destruct dirs as [|x r]; [apply (splitSlash_joinWith [] file Hns)|].
    apply (splitSlash_joinWith (r ++ [file]) x Hns). }
  rewrite Hsplit, length_app. simpl length.
  replace (length dirs + 1 - 1) with (length dirs) by lia.
  rewrite take_app_length.
  destruct dirs as [|x0 rest]; [exact Hsec|].
  simpl. apply List.Forall_cons_iff in Hdirs as [Hx Hrest].
  destruct (String.eqb x0 "content").
  - apply Join_dirs, Hrest.
  - apply Join_dirs. constructor; assumption.
Qed.

Lemma guessSection_eq (p : Page) :
  guessSection p =
  if String.eqb (Section p) "" then
    match take (length (GoStr.splitSlash (GoStr.chars (FileName p)) []) - 1)
               (GoStr.splitSlash (GoStr.chars (FileName p)) []) with
    | [] => p
    | x0 :: rest =>
        setSection p
          (GoStr.Join (if String.eqb x0 "content" then rest else x0 :: rest))
    end
  else p.
Proof.
  unfold guessSection. destruct (String.eqb (Section p) ""); [|reflexivity].
  destruct (take _ _); reflexivity.
Qed.

Lemma guessSection_idempotent (p : Page) :
  guessSection (guessSection p) = guessSection p.
Proof.
  rewrite (guessSection_eq p).
  destruct (String.eqb (Section p) "") eqn:Hsec.
  - destruct (take _ _) as [|x0 rest] eqn:Hx.
    + rewrite guessSection_eq, Hsec, Hx. reflexivity.
    + rewrite guessSection_eq. cbn [Section FileName setSection].
      destruct (String.eqb
                  (GoStr.Join (if String.eqb x0 "content" then rest else x0 :: rest))
                  ""); [|reflexivity].
      rewrite Hx. reflexivity.
  - rewrite guessSection_eq, Hsec. reflexivity.
Qed.

(** X22. [Type] never returns the empty string: it is the content type
    of the front matter when there is one, else the section, guessed from
    the file name if need be, else [page]. Asking again gives the same
    answer and leaves the page as the first call left it. *)
Theorem Type_never_empty (p : PageX) :
  snd (Type_ p) <> "" /\
  (contentType p <> "" -> Type_ p = (p, contentType p)) /\
  Type_ (fst (Type_ p)) = Type_ p.
Proof.
  unfold Type_.
  destruct (String.eqb_spec (contentType p) "") as [Hc | Hc]; simpl.
  - split; [|split; [intros H; contradiction|]].
    + destruct (String.eqb_spec (Section (guessSection (base p))) "") as [Hs | Hs];
        simpl; [discriminate | exact Hs].
    + destruct (String.eqb (Section (guessSection (base p))) "") eqn:Hs; simpl;
        rewrite Hc; simpl; rewrite guessSection_idempotent, Hs; reflexivity.
  - split; [exact Hc|]. split; [reflexivity|].
    destruct (String.eqb_spec (contentType p) ""); [contradiction | reflexivity].
Qed.

End PageTextFacts.

Section PageMethodFacts.
Import PageM PageMore.

Variable ToLower : string -> string.
Variable Lookup : string -> bool.
Variable Execute : string -> PageX -> string.
Variable MarkdownCommon getRstContent RemoveSummaryDivider : string -> string.

Lemma firstFound_spec (l : list string) :
  match firstFound Lookup l with
  | Some t => In t l /\ Lookup t = true
  | None => Forall (fun t => Lookup t = false) l
  end.
Proof.
  induction l as [|x l IH]; simpl; [constructor|].
  destruct (Lookup x) eqn:Hx; [split; [left; reflexivity | exact Hx]|].
  destruct (firstFound Lookup l) as [t|].
  - destruct IH as [Hin Ht]. split; [right; exact Hin | exact Ht].
  - constructor; assumption.
Qed.

Lemma firstFound_some (l : list string) (t : string) :
  In t l -> Lookup t = true -> firstFound Lookup l <> None.
Proof.
  intros Hin Ht. pose proof (firstFound_spec l) as H.
  destruct (firstFound Lookup l); [discriminate|].
  rewrite List.Forall_forall in H. rewrite (H t Hin) in Ht. discriminate Ht.
Qed.

Lemma layouts_last (types layout : string) :
  last (layouts ToLower types layout) = Some (layout +:+ ".html") /\
  2 <= length (layouts ToLower types layout).
Proof.
  unfold layouts. split.
  - apply last_snoc.
  - rewrite length_app, length_map, length_seq. simpl.
    assert (H : 1 <= length (GoStr.splitSlash (GoStr.chars types) [])).
    { generalize (@nil ascii). induction (GoStr.chars types) as [|c l IH];
        intros cur; simpl; [lia|].
      destruct (Ascii.eqb c GoStr.slash); simpl; [lia | apply IH]. }
    lia.
Qed.

(** X23. The bare layout file is the last resort of [ExecuteTemplate].
    The candidates of [Layout] number at least two and end with
    [<layout>.html], where the layout is that of the front matter when
    there is one and the one asked for otherwise. So when that template
    exists some candidate is executed, an existing one; and when no
    candidate exists the buffer comes back empty, with no error. *)
Theorem ExecuteTemplate_fallback (p : PageX) (asked : string) :
  let chosen := if negb (String.eqb (layout p) "") then layout p else asked in
  let candidates := snd (Layout ToLower p [asked]) in
  last candidates = Some (chosen +:+ ".html") /\
  2 <= length candidates /\
  (Lookup (chosen +:+ ".html") = true ->
   exists t, In t candidates /\ Lookup t = true /\
             snd (ExecuteTemplate ToLower Lookup Execute p asked) =
               Execute t (fst (ExecuteTemplate ToLower Lookup Execute p asked))) /\
  ((forall t, In t candidates -> Lookup t = false) ->
   snd (ExecuteTemplate ToLower Lookup Execute p asked) = "").
Proof.
  cbv zeta. unfold ExecuteTemplate.
  assert (HL : exists p' ty,
            Layout ToLower p [asked] =
            (p', layouts ToLower ty
                   (if negb (String.eqb (layout p) "") then layout p else asked))).
  { unfold Layout. destruct (negb (String.eqb (layout p) ""));
      destruct (Type_ p) as [p' ty]; eauto. }
  destruct HL as (p' & ty & HL). rewrite HL. simpl fst. simpl snd.
  destruct (layouts_last ty (if negb (String.eqb (layout p) "") then layout p else asked))
    as [Hlast Hlen].
  split; [exact Hlast|]. split; [exact Hlen|].
  pose proof (firstFound_spec
                (layouts ToLower ty
                   (if negb (String.eqb (layout p) "") then layout p else asked)))
    as Hspec.
  split.
  - intros Hbare.
    assert (Hin : In ((if negb (String.eqb (layout p) "") then layout p else asked) +:+ ".html")
                     (layouts ToLower ty
                        (if negb (String.eqb (layout p) "") then layout p else asked))).
    { unfold layouts. apply in_or_app. right. left. reflexivity. }
    pose proof (firstFound_some _ _ Hin Hbare) as Hsome.
    destruct (firstFound Lookup _) as [t|]; [|congruence].
    destruct Hspec as [Ht1 Ht2]. exists t. simpl. auto.
  - intros Hnone.
    destruct (firstFound Lookup _) as [t|]; [|reflexivity].
    destruct Hspec as [Ht1 Ht2]. rewrite (Hnone t Ht1) in Ht2. discriminate Ht2.
Qed.

Lemma guessType_values (x : string) :
  guessType ToLower x = "markdown" \/ guessType ToLower x = "rst" \/
  guessType ToLower x = "html" \/ guessType ToLower x = "unknown".
Proof.
  unfold guessType.
  destruct (String.eqb (ToLower x) "md" || String.eqb (ToLower x) "markdown" ||
            String.eqb (ToLower x) "mdown"); [left; reflexivity|].
  destruct (String.eqb (ToLower x) "rst"); [right; left; reflexivity|].
  destruct (String.eqb (ToLower x) "html" || String.eqb (ToLower x) "htm");
    [right; right; left; reflexivity | right; right; right; reflexivity].
Qed.

Lemma guessMarkupType_values (p : PageX) :
  guessMarkupType ToLower p = "markdown" \/ guessMarkupType ToLower p = "rst" \/
  guessMarkupType ToLower p = "html" \/ guessMarkupType ToLower p = "unknown".
Proof.
  unfold guessMarkupType.
  destruct (negb (String.eqb (Markup p) "") &&
            negb (String.eqb (guessType ToLower (Markup p)) "unknown"));
    [apply guessType_values|].
  destruct (GoStr.HasPrefix _ "."); [apply guessType_values|].
  right. right. right. reflexivity.
Qed.

(** X24. [Convert] fails exactly on a page whose markup is not known,
    neither from the front matter nor from the extension of its file; the
    error then names the type [unknown] and the page is left as it was. A
    page of HTML gets its raw content as content, byte for byte, the
    summary divider included. *)
Theorem Convert_unsupported (p : PageX) :
  let r := Convert ToLower MarkdownCommon getRstContent RemoveSummaryDivider p in
  (snd r <> None <-> guessMarkupType ToLower p = "unknown") /\
  (forall e, snd r = Some e ->
     e = "Error converting unsupported file type unknown" /\ fst r = p) /\
  (guessMarkupType ToLower p = "html" -> Content (fst r) = rawContent (base p)).
Proof.
  cbv zeta. unfold Convert.
  destruct (guessMarkupType_values p) as [H | [H | [H | H]]]; rewrite H; simpl.
  - split; [split; [intros F; contradiction | discriminate]|].
    split; [discriminate | discriminate].
  - split; [split; [intros F; contradiction | discriminate]|].
    split; [discriminate | discriminate].
  - split; [split; [intros F; contradiction | discriminate]|].
    split; [discriminate | reflexivity].
  - split; [split; [reflexivity | discriminate]|].
    split; [|discriminate].
    intros e He. injection He as <-. split; reflexivity.
Qed.

End PageMethodFacts.

Section PageLinkFacts.
Import PageM PageMore.

Variable URL : Type.
Variable urlParse : string -> URL * error.
Variable MakePermalink : URL -> URL -> URL.
Variable fileExt : string -> string * string.
Variable d : Deps.

(** X25. The link of a page and the file it is written to go by
    different rules. For a page with a slug and a URL of more than two
    bytes, in a section without permalink pattern, [TargetPath] is the URL
    while the path of [permalink] is made from the slug: the link does not
    lead to the file. *)
Theorem permalink_and_target_disagree (p : PageX) :
  Permalinks (base p) !! Section (base p) = None ->
  0 < GoStr.len (GoStr.TrimSpace (Slug (base p))) ->
  2 < GoStr.len (GoStr.TrimSpace (Url (base p))) ->
  TargetPath d (base p) = withIndex (GoStr.TrimSpace (Url (base p))) /\
  permalinkPath fileExt d p =
    (if UglyUrls p
     then GoStr.Join [GoStr.TrimSpace (Dir (base p)); Slug (base p);
                      Extension (base p)]
     else GoStr.Join [GoStr.TrimSpace (Dir (base p)); Slug (base p)] +:+ "/",
     None).
Proof.
  intros Hno Hslug Hurl. split.
  - unfold TargetPath.
    destruct (Nat.ltb_spec 2 (GoStr.len (GoStr.TrimSpace (Url (base p)))));
      [reflexivity | lia].
  - unfold permalinkPath. rewrite Hno.
    destruct (Nat.ltb_spec 0 (GoStr.len (GoStr.TrimSpace (Slug (base p)))));
      [|lia].
    destruct (UglyUrls p); reflexivity.
Qed.

(** X26. A permalink pattern that does not expand is an error for the
    link and nothing for the file: [permalink] returns the error of the
    expansion, whatever the slug and the URL of the page are and before
    any URL is parsed, while [TargetPath] passes over the pattern. *)
Theorem permalink_override_error (p : PageX) (override e : string) :
  Permalinks (base p) !! Section (base p) = Some override ->
  snd (Expand d override (base p)) = Some e ->
  permalink URL urlParse MakePermalink fileExt d p = (None, Some e) /\
  permalinkTarget d (base p) = None.
Proof.
  intros Hov Hexp. unfold permalink, permalinkPath, permalinkTarget.
  rewrite Hov. destruct (Expand d override (base p)) as [x err].
  simpl in Hexp. subst err. split; reflexivity.
Qed.

End PageLinkFacts.

Section TomlFacts.
Import PageM PageMore.

Local Abbreviation R s := (replaceFrom "+++" "" s 0) (only parsing).

Lemma replace_plain (c : ascii) (s : string) :
  String.prefix "+++" (String c s) = false ->
  R (String c s) = String c (R s).
Proof.
  intros H.
  change (R (String c s))
    with (if String.prefix "+++" (String c s)
          then "" +:+ replaceFrom "+++" "" s (GoStr.len "+++" - 1)
          else String c (R s)).
  rewrite H. reflexivity.
Qed.

Lemma prefix_step (a b : ascii) (s1 s2 : string) :
  String.prefix (String a s1) (String b s2) =
  Ascii.eqb a b && String.prefix s1 s2.
Proof.
  cbn [String.prefix]. destruct (ascii_dec a b) as [-> | H].
  - rewrite Ascii.eqb_refl. reflexivity.
  - destruct (Ascii.eqb_spec a b); [contradiction | reflexivity].
Qed.

Lemma prefix_shape (s : string) :
  String.prefix "+++" s = true ->
  exists t, s = String "+" (String "+" (String "+" t)).
Proof.
  destruct s as [|a [|b [|c s]]]; try discriminate;
    rewrite ?prefix_step; cbn [String.prefix]; rewrite ?andb_false_r;
    try discriminate.
  intros H. apply andb_true_iff in H as [Ha H].
  apply andb_true_iff in H as [Hb H]. apply andb_true_iff in H as [Hc _].
  apply Ascii.eqb_eq in Ha, Hb, Hc. subst a b c. exists s. reflexivity.
Qed.

Lemma prefix_plusRun (s : string) :
  String.prefix "+++" s = true <-> 3 <= plusRun s.
Proof.
  split.
  - intros H. apply prefix_shape in H as [t ->]. simpl. lia.
  - destruct s as [|a [|b [|c s]]]; cbn [plusRun];
      repeat match goal with
             | |- context [Ascii.eqb ?x "+"] =>
                 destruct (Ascii.eqb_spec x "+"); [subst x|]
             end; try lia.
    intros _. rewrite !prefix_step. destruct s; reflexivity.
Qed.

Lemma prefix_false_plusRun (s : string) :
  String.prefix "+++" s = false <-> plusRun s < 3.
Proof.
  pose proof (prefix_plusRun s) as H.
  destruct (String.prefix "+++" s); split; intros H'; try reflexivity.
  - discriminate H'.
  - assert (3 <= plusRun s) by (apply H; reflexivity). lia.
  - destruct (le_lt_dec 3 (plusRun s)) as [Hle | Hlt]; [|exact Hlt].
    apply H in Hle. discriminate Hle.
Qed.

(** A short run of [+] at the head is kept as it is. *)
Lemma replace_short_run (s : string) :
  plusRun s < 3 -> plusRun (R s) = plusRun s.
Proof.
  induction s as [|c s IH]; intros Hrun; [reflexivity|].
  rewrite replace_plain by (apply prefix_false_plusRun, Hrun).
  simpl in *. destruct (Ascii.eqb c "+"); [|reflexivity].
  rewrite IH by lia. reflexivity.
Qed.

Lemma replace_match (s : string) :
  R (String "+" (String "+" (String "+" s))) = R s.
Proof.
  change (R (String "+" (String "+" (String "+" s))))
    with (if String.prefix "+++" (String "+" (String "+" (String "+" s)))
          then "" +:+ R s
          else String "+" (R (String "+" (String "+" s)))).
  rewrite !prefix_step. destruct s; reflexivity.
Qed.

Lemma replace_clean_upto (n : nat) :
  forall s, String.length s <= n -> contains "+++" (R s) = false.
Proof.
  induction n as [|n IH]; intros s Hlen.
  - destruct s; [reflexivity | simpl in Hlen; lia].
  - destruct s as [|c s]; [reflexivity|].
    destruct (String.prefix "+++" (String c s)) eqn:Hpre.
    + apply prefix_shape in Hpre as [t Ht]. rewrite Ht.
      rewrite replace_match. apply IH.
      rewrite Ht in Hlen. simpl in Hlen. lia.
    + rewrite replace_plain by exact Hpre.
      assert (Htail : contains "+++" (R s) = false).
      { apply IH. simpl in Hlen. lia. }
      assert (Hhead : String.prefix "+++" (String c (R s)) = false).
      { apply prefix_false_plusRun. apply prefix_false_plusRun in Hpre.
        simpl in *. destruct (Ascii.eqb c "+"); [|lia].
        rewrite replace_short_run by lia. exact Hpre. }
      change (contains "+++" (String c (R s)))
        with (String.prefix "+++" (String c (R s)) || contains "+++" (R s)).
      rewrite Hhead, Htail. reflexivity.
Qed.

Lemma replace_nothing (s : string) :
  contains "+++" s = false -> R s = s.
Proof.
  induction s as [|c s IH]; intros H; [reflexivity|].
  change (contains "+++" (String c s))
    with (String.prefix "+++" (String c s) || contains "+++" s) in H.
  apply orb_false_iff in H as [Hpre Hrest].
  rewrite replace_plain by exact Hpre. rewrite IH by exact Hrest. reflexivity.
Qed.

(** X27. [removeTomlIdentifier] leaves no [+++] behind: the delimiters
    go, and so does every other run of three [+], inside the front matter
    as well; what is left of a longer run is shorter than three. A datum
    that holds no [+++] comes back unchanged, so removing twice is removing
    once. *)
Theorem removeTomlIdentifier_leaves_none (datum : string) :
  contains "+++" (removeTomlIdentifier datum) = false /\
  (contains "+++" datum = false -> removeTomlIdentifier datum = datum) /\
  removeTomlIdentifier (removeTomlIdentifier datum) = removeTomlIdentifier datum.
Proof.
  unfold removeTomlIdentifier, Replace.
  pose proof (replace_clean_upto (String.length datum) datum (Nat.le_refl _)) as Hc.
  split; [exact Hc|]. split; [apply replace_nothing|].
  apply replace_nothing, Hc.
Qed.

End TomlFacts.

(** X21 at a page two directories below [content]. *)
Lemma guessSection_directory_witness :
  PageM.Section (PageM.guessSection MoreSamples.archivePage) = "post/2013".
Proof.
  apply (guessSection_directory MoreSamples.archivePage
           ["content"; "post"; "2013"] "a.md");
    [reflexivity | reflexivity | repeat constructor | reflexivity].
Defined.

(** X25 at a page with [slug: first] and [url: /hello/]: the file is
    [/hello/index.html], the link goes to [post/first/]. With Unicode
    white space around the two the file is the same, the URL being
    trimmed, and the link keeps the white space of the slug. *)
Lemma permalink_and_target_disagree_witness :
  (PageM.TargetPath Samples.deps (PageMore.base MoreSamples.slugAndUrl) =
     "/hello/index.html" /\
   PageMore.permalinkPath (fun t => (t, "")) Samples.deps MoreSamples.slugAndUrl =
     ("post/first/", None)) /\
  (PageM.TargetPath Samples.deps (PageMore.base MoreSamples.paddedSlugAndUrl) =
     "/hello/index.html" /\
   PageMore.permalinkPath (fun t => (t, "")) Samples.deps
     MoreSamples.paddedSlugAndUrl =
     ("post/" +:+ Samples.nbsp +:+ "first/", None)).
Proof.
  split.
  - apply (permalink_and_target_disagree (fun t => (t, "")) Samples.deps
             MoreSamples.slugAndUrl);
      [reflexivity | vm_compute; lia | vm_compute; lia].
  - apply (permalink_and_target_disagree (fun t => (t, "")) Samples.deps
             MoreSamples.paddedSlugAndUrl);
      [reflexivity | vm_compute; lia | vm_compute; lia].
Defined.

(** X26 at a page of a section whose pattern does not expand. *)
Lemma permalink_override_error_witness :
  PageMore.permalink string (fun u => (u, None)) (fun b u => b +:+ u)
    (fun t => (t, "")) MoreSamples.brokenDeps MoreSamples.brokenPattern =
    (None, Some "permalink ill-formed") /\
  PageM.permalinkTarget MoreSamples.brokenDeps
    (PageMore.base MoreSamples.brokenPattern) = None.
Proof.
  apply (permalink_override_error string (fun u => (u, None)) (fun b u => b +:+ u)
           (fun t => (t, "")) MoreSamples.brokenDeps MoreSamples.brokenPattern
           "/:nope/" "permalink ill-formed"); reflexivity.
Defined.

Example strip_unbalanced :
  PageM.StripHTML "a < b and <b>bold</b> > c" = "a bold  c".
Proof. reflexivity. Qed.

(** The walk of [StripHTML] is over runes: multi-byte runes are kept whole,
    and a byte that starts no rune comes out as U+FFFD, [EF BF BD]. *)
Example strip_invalid_byte :
  PageM.StripHTML ("<b>" +:+ String (ascii_of_nat 255)
                     ("a" +:+ String (ascii_of_nat 195) (String (ascii_of_nat 169) "</b>"))) =
    String (ascii_of_nat 239) (String (ascii_of_nat 191) (String (ascii_of_nat 189)
      ("a" +:+ String (ascii_of_nat 195) (String (ascii_of_nat 169) "")))).
Proof. reflexivity. Qed.

Example toml_runs :
  PageMore.removeTomlIdentifier "+++++ title = a+++b ++++" = "++ title = ab +".
Proof. reflexivity. Qed.

Example convert_text_file :
  snd (PageMore.Convert MoreSamples.lowerAscii (fun s => s) (fun s => s) (fun s => s)
         MoreSamples.textPage) =
    Some "Error converting unsupported file type unknown".
Proof. reflexivity. Qed.

Example layout_candidates :
  snd (PageMore.Layout MoreSamples.lowerAscii MoreSamples.postPage ["summary"]) =
    ["post/summary.html"; "summary.html"].
Proof. reflexivity. Qed.

(** *** The handler registry *)

Section HandlerFacts.
Import Handlers.

Lemma matchLoop_In (ext : string) (extensions : list string) :
  matchLoop ext extensions = true <-> In ext extensions.
Proof.
  induction extensions as [|x rest IH]; simpl; [split; [discriminate | intros []]|].
  destruct (String.eqb_spec ext x) as [-> | Hne].
  - split; [intros _; left; reflexivity | reflexivity].
  - rewrite IH. split; [intros H; right; exact H | intros [H | H]; [congruence | exact H]].
Qed.

Lemma HandlerFor_app (hs : list Handler) (h : Handler) (ext : string) :
  HandlerFor (hs ++ [h]) ext =
  match HandlerFor hs ext with
  | Some h' => Some h'
  | None => if Match h ext then Some h else None
  end.
Proof.
  induction hs as [|x hs IH]; simpl; [reflexivity|].
  unfold Handlers in *. destruct (Match x ext); [reflexivity | exact IH].
Qed.

(** X28. The registry answers with the handler registered first among
    those that list the extension. Registering a handler never changes the
    answer for an extension that already had one; the new handler only
    serves extensions it lists and that nobody served before. The answer
    is nil exactly when no registered handler lists the extension. *)
Theorem registry_first_registered (hs : list Handler) (h : Handler)
  (ext : string) :
  HandlerFor (RegisterHandler h hs) ext =
    match HandlerFor hs ext with
    | Some h' => Some h'
    | None => if Match h ext then Some h else None
    end /\
  (forall h', HandlerFor hs ext = Some h' ->
     exists pre post,
       hs = pre ++ h' :: post /\ In ext (Extensions h') /\
       Forall (fun x => ~ In ext (Extensions x)) pre) /\
  (HandlerFor hs ext = None <->
   Forall (fun x => ~ In ext (Extensions x)) hs).
Proof.
  split; [apply HandlerFor_app|]. split.
  - induction hs as [|x hs IH]; simpl; [discriminate|].
    unfold Handlers in *. intros h' Hh.
    destruct (Match x ext) eqn:Hx.
    + injection Hh as <-. exists [], hs. split; [reflexivity|].
      split; [apply matchLoop_In, Hx | constructor].
    + destruct (IH h' Hh) as (pre & post & Heq & Hin & Hpre).
      exists (x :: pre), post. split; [rewrite Heq; reflexivity|].
      split; [exact Hin|]. constructor; [|exact Hpre].
      intros H. apply matchLoop_In in H. unfold Match in Hx. congruence.
  - induction hs as [|x hs IH]; simpl; [split; [constructor | reflexivity]|].
    unfold Handlers in *. destruct (Match x ext) eqn:Hx.
    + split; [discriminate|]. intros H.
      apply List.Forall_cons_iff in H as [H _]. exfalso. apply H.
      apply matchLoop_In, Hx.
    + rewrite IH. split.
      * intros H. constructor; [|exact H].
        intros Hin. apply matchLoop_In in Hin. unfold Match in Hx. congruence.
      * intros H. apply List.Forall_cons_iff in H as [_ H]. exact H.
Qed.

End HandlerFacts.

Example registry_late_handler :
  Handlers.HandlerFor
    (Handlers.RegisterHandler MoreSamples.asciidocHandler
       (Handlers.RegisterHandler MoreSamples.htmlHandler
          (Handlers.RegisterHandler MoreSamples.markdownHandler [])))
    "md" = Some MoreSamples.markdownHandler.
Proof. reflexivity. Qed.

(** *** The walker of [getDirList] *)

Section DirListFacts.
Import DirList.

Variable fs : Fs.

Lemma regular_not_dir (fi : FileInfo) : IsRegular fi = true -> IsDir fi = false.
Proof.
  unfold IsRegular, IsDir. intros H. apply Z.eqb_eq in H.
  apply negb_false_iff, Z.eqb_eq.
  replace (Z.land (Mode fi) ModeDir)
    with (Z.land (Z.land (Mode fi) ModeType) ModeDir).
  - rewrite H. reflexivity.
  - rewrite <- Z.land_assoc. reflexivity.
Qed.

Lemma addDir_result (path : string) (fi : FileInfo) (st : State) :
  (snd (addDir path fi st) = SkipDir ->
   IsDir fi = true /\ fst (addDir path fi st) = st /\
   (Name fi = ".git" \/ Name fi = "node_modules" \/ Name fi = "bower_components")) /\
  (seen (fst (addDir path fi st)) = seen st /\
   nested (fst (addDir path fi st)) = nested st) /\
  (forall p, In p (a (fst (addDir path fi st))) ->
     In p (a st) \/
     (p = path /\ IsDir fi = true /\ Name fi <> ".git" /\
      Name fi <> "node_modules" /\ Name fi <> "bower_components")).
Proof.
  unfold addDir. destruct (IsDir fi); simpl;
    [|split; [discriminate | split; [split; reflexivity | intros p H; left; exact H]]].
  destruct (String.eqb_spec (Name fi) ".git") as [H1 | H1]; simpl.
  { split; [intros _; auto | split; [split; reflexivity | intros p H; left; exact H]]. }
  destruct (String.eqb_spec (Name fi) "node_modules") as [H2 | H2]; simpl.
  { split; [intros _; auto | split; [split; reflexivity | intros p H; left; exact H]]. }
  destruct (String.eqb_spec (Name fi) "bower_components") as [H3 | H3]; simpl.
  { split; [intros _; auto | split; [split; reflexivity | intros p H; left; exact H]]. }
  split; [discriminate|]. split; [split; reflexivity|].
  intros p H. apply in_app_or in H as [H | [<- | []]]; [left; exact H|].
  right. auto.
Qed.

(** X29. What the walk function of [getDirList] prunes. It returns
    [SkipDir] only for an entry that is not a symbolic link and is a
    directory named [node_modules] or [bower_components]; in every other
    case, an error handed in by the walk included, it returns nil and the
    walk goes on. An entry named [.git] returns before its kind is looked
    at: it is not added, and it is not pruned either, so the test for
    [.git] among the pruned names never decides. In no case does pruning
    change the list, the seen set or the queue. *)
Theorem walker_prunes (allow : bool) (path : string) (fi : FileInfo)
  (err : error) (st : State) :
  (snd (walker fs allow path fi err st) = SkipDir ->
   err = None /\ isSymlink fi = false /\ IsDir fi = true /\
   (Name fi = "node_modules" \/ Name fi = "bower_components") /\
   fst (walker fs allow path fi err st) = st) /\
  (Name fi = ".git" -> walker fs allow path fi err st = (st, Nil)) /\
  (err <> None -> walker fs allow path fi err st = (st, Nil)).
Proof.
  unfold walker. destruct err as [e|];
    [split; [discriminate | split; [reflexivity | reflexivity]]|].
  destruct (String.eqb_spec (Name fi) ".git") as [Hgit | Hgit].
  { split; [discriminate | split; [reflexivity | intros H; contradiction]]. }
  split; [|split; [intros H; contradiction | intros H; contradiction]].
  destruct (isSymlink fi).
  - destruct (EvalSymlinks fs path) as [link [e|]]; [discriminate|].
    destruct (LstatIfPossible fs link) as [linkfi [e|]]; [discriminate|].
    destruct allow; simpl.
    + destruct (IsDir linkfi) eqn:Hd.
      * destruct (negb (default false (seen st !! path))); discriminate.
      * unfold addDir. rewrite Hd. discriminate.
    + destruct (IsRegular linkfi) eqn:Hr; simpl; [|discriminate].
      unfold addDir. rewrite (regular_not_dir linkfi Hr). discriminate.
  - intros Hskip.
    destruct (addDir_result path fi st) as (Hs & _ & _).
    destruct (Hs Hskip) as (Hd & Hst & [Hn | Hn]); [contradiction|].
    repeat split; assumption.
Qed.

Lemma walker_state (allow : bool) (path : string) (fi : FileInfo)
  (err : error) (st : State) :
  let st' := fst (walker fs allow path fi err st) in
  (st' = st \/
   (a st' = a st ++ [path] /\ seen st' = seen st /\ nested st' = nested st) \/
   (allow = true /\ seen st !! path <> Some true /\ a st' = a st /\
    seen st' = <[path := true]> (seen st) /\ nested st' = nested st ++ [path])).
Proof.
  cbv zeta. unfold walker. destruct err as [e|]; [left; reflexivity|].
  destruct (String.eqb (Name fi) ".git"); [left; reflexivity|].
  assert (Hadd : forall info,
            fst (addDir path info st) = st \/
            (a (fst (addDir path info st)) = a st ++ [path] /\
             seen (fst (addDir path info st)) = seen st /\
             nested (fst (addDir path info st)) = nested st) \/
            (allow = true /\ seen st !! path <> Some true /\
             a (fst (addDir path info st)) = a st /\
             seen (fst (addDir path info st)) = <[path := true]> (seen st) /\
             nested (fst (addDir path info st)) = nested st ++ [path])).
  { intros info. unfold addDir. destruct (IsDir info); [|left; reflexivity].
    destruct (_ || _); [left; reflexivity|].
    right. left. simpl. auto. }
  destruct (isSymlink fi); [|apply Hadd].
  destruct (EvalSymlinks fs path) as [link [e|]]; [left; reflexivity|].
  destruct (LstatIfPossible fs link) as [linkfi [e|]]; [left; reflexivity|].
  destruct (negb allow && negb (IsRegular linkfi)); [left; reflexivity|].
  destruct allow; simpl; [|apply Hadd].
  destruct (IsDir linkfi); [|apply Hadd].
  destruct (seen st !! path) as [[|]|] eqn:Hseen; simpl.
  - left. reflexivity.
  - right. right. repeat split; auto; discriminate.
  - right. right. repeat split; auto; discriminate.
Qed.

Lemma step_queue (acc : State * list string) (s : Step) :
  NoDup (snd acc) -> queuedSeen acc ->
  NoDup (snd (step fs acc s)) /\ queuedSeen (step fs acc s).
Proof.
  destruct acc as [st queued]. intros Hnd [Hseen Hsub]. simpl in *.
  destruct s as [allow path fi err|]; simpl.
  2: { split; [exact Hnd|]. split; [exact Hseen | intros p []]. }
  destruct (walker_state allow path fi err st) as [H | [H | H]]; cbv zeta in H.
  - rewrite H, drop_all, app_nil_r. split; [exact Hnd|]. split; assumption.
  - destruct H as (_ & Hs & Hn). unfold queuedSeen. simpl.
    rewrite Hs, Hn, drop_all, app_nil_r. split; [exact Hnd|]. split; assumption.
  - destruct H as (_ & Hnot & _ & Hs & Hn). unfold queuedSeen. simpl.
    rewrite Hs, Hn, drop_app_length. split; [|split].
    + apply NoDup_app. split; [exact Hnd|]. split; [|apply NoDup_singleton].
      intros x Hx Hx'. apply list_elem_of_singleton in Hx'. subst x.
      apply list_elem_of_In in Hx. apply Hnot, Hseen, Hx.
    + intros p Hp. apply in_app_or in Hp as [Hp | [<- | []]].
      * destruct (decide (path = p)) as [<- | Hne];
          [apply lookup_insert_eq|].
        rewrite lookup_insert_ne by exact Hne. apply Hseen, Hp.
      * apply lookup_insert_eq.
    + intros p Hp. apply in_or_app.
      apply in_app_or in Hp as [Hp | Hp]; [left; apply Hsub, Hp | right; exact Hp].
Qed.

(** X30. No symbolic directory is queued twice. Whatever the walks hand
    to the walk functions, in whatever order and over however many rounds
    of nested walks, the paths put on the queue are pairwise different and
    all marked as seen, and the queue holds only paths that were put on
    it. *)
Theorem nested_queued_once (l : list Step) :
  NoDup (snd (steps fs l (mkState [] ∅ [], []))) /\
  queuedSeen (steps fs l (mkState [] ∅ [], [])).
Proof.
  assert (H : forall acc, NoDup (snd acc) -> queuedSeen acc ->
                          NoDup (snd (steps fs l acc)) /\
                          queuedSeen (steps fs l acc)).
  { unfold steps. induction l as [|s rest IH]; intros acc Hnd Hq; simpl;
      [split; assumption|].
    destruct (step_queue acc s Hnd Hq) as [Hnd' Hq'].
    apply IH; assumption. }
  apply H; [constructor | split; intros p []].
Qed.

End DirListFacts.
